(** * webilastik: tiled feature extraction, annotations and the prediction server

    A shallow embedding of the parts of webilastik that the specification
    talks about, with the properties proved (or refuted) on it:

    - [Nd]           the 5-axis points, shapes and intervals of ndstructs;
    - [Blocks]       arrays anchored at an interval, views and painting;
    - [Features]     [feature_extractor.py]: the extractor interface,
                     [ChannelwiseFilter] and [FeatureExtractorCollection];
    - [FastFilters]  [channelwise_fastfilters.py]: [ChannelwiseFastFilter];
    - [LruCache]     [functools.lru_cache()], the decorator of [compute];
    - [Annotations]  [annotation.py]: [Color] and [Annotation];
    - [Orchestration] the process-pool branches of the benchmark and of
                     [server.py];
    - [Wire]         [ng_predict]'s raw chunk encoding;
    - [Request]      [utility/request.py]: [request];
    - [ColorInit], [Scribblings]  [annotation.py]: [Color.from_channels]
                     and [Annotation.interpolate_from_points];
    - [RequestSize]  [utility/request.py]: [request_size];
    - [CollectionMultiplier], [PrecomputedUrl]  the channel multiplier of a
                     collection and the url scheme of [server.py];
    - [BucketFs], [BucketUrl]  [filesystem/bucket_fs.py]: the data proxy,
                     the object store and the urls of a bucket;
    - [Versions]     [webilastik/__init__.py]: the version functions;
    - [ExportWorker] [ui/applet/export_worker.py]: [main].

    The definitions come first, module by module as in the sources; the
    facts follow in modules of their own ([NdFacts], [ApplicabilityFacts],
    [AnnotationFacts], [RequestFacts], [ColorFacts], [OrchestrationFacts],
    [WireFacts], [LruCacheFacts], [FastFilterFacts], [SplitFacts],
    [CollectionFacts], and then [LruCacheUse], [MergeFacts],
    [ColorInitFacts], [ScribblingFacts], [RequestSizeFacts],
    [BackendFacts], [CollectionShapeFacts], [PrecomputedUrlFacts],
    [BucketFsFacts], [FastFilterCropFacts], [PreprocessorFacts],
    [VersionFacts], [ExportWorkerFacts], [WorkerCountFacts],
    [BucketUrlFacts]).  ndstructs, numpy, fastfilters, requests and the
    classifier are outside the sources: what is used of them is either a
    parameter or modelled from the specification, and marked so.
*)

From Stdlib Require Import ZArith List Bool Lia Permutation Sorted.
From Stdlib Require Import QArith.
From Stdlib.Strings Require Import Ascii String Byte.
From Stdlib Require Import DecimalString.
From Stdlib Require DecimalPos DecimalZ.
Import ListNotations.

Local Open Scope Z_scope.

(* ===================================================================== *)
(** * ndstructs: points, shapes, intervals                                 *)
(* ===================================================================== *)

Module Nd.

(** The axis letters, in the order of [Point5D.LABELS]. *)
Inductive Axis := AxT | AxX | AxY | AxZ | AxC.

Definition LABELS : list Axis := [AxT; AxX; AxY; AxZ; AxC].

(** [Point5D]: five signed integers.  [Shape5D] is the same data read as
    extents. *)
Record Point5D := mkPoint5D { x : Z; y : Z; z : Z; t : Z; c : Z }.

Definition Shape5D := Point5D.

(** [p[label]] *)
Definition get (p : Point5D) (k : Axis) : Z :=
  match k with
  | AxT => t p | AxX => x p | AxY => y p | AxZ => z p | AxC => c p
  end.

(** [p.updated(label=v)] (called [with_coord] in older ndstructs). *)
Definition updated (p : Point5D) (k : Axis) (v : Z) : Point5D :=
  match k with
  | AxT => mkPoint5D (x p) (y p) (z p) v (c p)
  | AxX => mkPoint5D v (y p) (z p) (t p) (c p)
  | AxY => mkPoint5D (x p) v (z p) (t p) (c p)
  | AxZ => mkPoint5D (x p) (y p) v (t p) (c p)
  | AxC => mkPoint5D (x p) (y p) (z p) (t p) v
  end.

(** [Point5D.zero] and [Shape5D] with keyword coordinates: the coordinates
    left out are 0 for a point and 1 for a shape. *)
Definition zero : Point5D := mkPoint5D 0 0 0 0 0.
Definition zero_c (v : Z) : Point5D := updated zero AxC v.
Definition shape_ones : Shape5D := mkPoint5D 1 1 1 1 1.

Definition pointwise (f : Z -> Z -> Z) (p q : Point5D) : Point5D :=
  mkPoint5D (f (x p) (x q)) (f (y p) (y q)) (f (z p) (z q))
            (f (t p) (t q)) (f (c p) (c q)).

Definition padd : Point5D -> Point5D -> Point5D := pointwise Z.add.
Definition psub : Point5D -> Point5D -> Point5D := pointwise Z.sub.
Definition pmax : Point5D -> Point5D -> Point5D := pointwise Z.max.
Definition pmin : Point5D -> Point5D -> Point5D := pointwise Z.min.

(** [p * k] and [p // k] with an integer [k]. *)
Definition pscale (p : Point5D) (k : Z) : Point5D :=
  mkPoint5D (x p * k) (y p * k) (z p * k) (t p * k) (c p * k).
Definition pfloordiv (p : Point5D) (k : Z) : Point5D :=
  mkPoint5D (x p / k) (y p / k) (z p / k) (t p / k) (c p / k).

(** Modelled from the spec: the comparison operators of [Point5D] (ndstructs
    is a library the sources import); "equality and ordering are
    component-wise", so [p >= q] holds when it holds on every axis. *)
Definition forall_axes (f : Axis -> bool) : bool :=
  forallb f LABELS.
Definition pge (p q : Point5D) : bool :=
  forall_axes (fun k => get q k <=? get p k).
Definition ple (p q : Point5D) : bool := pge q p.
Definition plt (p q : Point5D) : bool :=
  forall_axes (fun k => get p k <? get q k).
Definition peqb (p q : Point5D) : bool :=
  forall_axes (fun k => get p k =? get q k).

(** [Interval5D] (called [Slice5D] in older ndstructs, once its bounds are
    defined): the half-open box from [start] to [stop]. *)
Record Interval5D := mkInterval5D { start : Point5D; stop : Point5D }.

Definition shape (r : Interval5D) : Shape5D := psub (stop r) (start r).

Definition ieqb (r s : Interval5D) : bool :=
  peqb (start r) (start s) && peqb (stop r) (stop s).

(** [shape.to_slice_5d()] / [shape.to_interval5d()]: the box from the origin. *)
Definition to_interval5d (s : Shape5D) : Interval5D := mkInterval5D zero s.

Definition translated (r : Interval5D) (d : Point5D) : Interval5D :=
  mkInterval5D (padd (start r) d) (padd (stop r) d).

(** Modelled from the spec: [Interval5D.enlarged] "grows symmetrically by
    margin per axis, no clamping". *)
Definition enlarged (r : Interval5D) (radius : Point5D) : Interval5D :=
  mkInterval5D (psub (start r) radius) (padd (stop r) radius).

(** Modelled from the spec: [Interval5D.clamped] "intersects with bounds". *)
Definition clamped (r limits : Interval5D) : Interval5D :=
  mkInterval5D (pmax (start r) (start limits)) (pmin (stop r) (stop limits)).

(** Modelled from the spec: [Interval5D.contains], the other box lies inside
    this one on every axis. *)
Definition contains (r other : Interval5D) : bool :=
  ple (start r) (start other) && ple (stop other) (stop r).

(** A voxel lies in a half-open box. *)
Definition inside (r : Interval5D) (p : Point5D) : bool :=
  ple (start r) p && plt p (stop r).

(** [r.updated(c=All)] against another box: take the channel range of
    [whole]. *)
Definition with_c_of (r whole : Interval5D) : Interval5D :=
  mkInterval5D (updated (start r) AxC (c (start whole)))
               (updated (stop r) AxC (c (stop whole))).

(** ** Splitting *)

(** The pieces of [range(a, b, step)] on one axis: each piece starts at
    [a + k*step] and stops [step] later, the last one clamped to [b].
    Python's [range] raises on a zero step; pieces are only produced for a
    positive step. *)
Definition axis_pieces (a b step : Z) : list (Z * Z) :=
  if 0 <? step then
    map (fun k => (a + Z.of_nat k * step,
                   Z.min (a + (Z.of_nat k + 1) * step) b))
        (seq 0 (Z.to_nat ((b - a + step - 1) / step)))
  else [].

(** Modelled from the spec: [Interval5D.split(block_shape)], "a true
    partition", with "the last tile on each axis [clamped] to the input's
    stop".  Tiles are produced with the axes nested in [LABELS] order, the
    channel axis varying fastest. *)
Definition split (r : Interval5D) (block_shape : Shape5D) : list Interval5D :=
  flat_map (fun it =>
  flat_map (fun ix =>
  flat_map (fun iy =>
  flat_map (fun iz =>
  map (fun ic =>
         mkInterval5D
           (mkPoint5D (fst ix) (fst iy) (fst iz) (fst it) (fst ic))
           (mkPoint5D (snd ix) (snd iy) (snd iz) (snd it) (snd ic)))
      (axis_pieces (c (start r)) (c (stop r)) (c block_shape)))
      (axis_pieces (z (start r)) (z (stop r)) (z block_shape)))
      (axis_pieces (y (start r)) (y (stop r)) (y block_shape)))
      (axis_pieces (x (start r)) (x (stop r)) (x block_shape)))
      (axis_pieces (t (start r)) (t (stop r)) (t block_shape)).

(** [Interval5D.enclosing] of a box and further boxes: the smallest box
    around them. *)
Definition enclosing (first : Interval5D) (others : list Interval5D) : Interval5D :=
  fold_left (fun acc r => mkInterval5D (pmin (start acc) (start r))
                                       (pmax (stop acc) (stop r)))
            others first.

(** [[a, a+1, ..., b-1]] *)
Definition zrange (a b : Z) : list Z :=
  map (fun k => a + Z.of_nat k) (seq 0 (Z.to_nat (b - a))).

End Nd.

(* ===================================================================== *)
(** * Blocks: arrays anchored at an interval                               *)
(* ===================================================================== *)

Module Blocks.
Import Nd.

(** [Array5D]: a box and the scalars behind it.  The buffer is a function of
    the absolute voxel position; a view made by [cut] shares the buffer of
    the array it was cut from and only narrows the box. *)
Record Array5D (V : Type) := mkArray5D {
  interval : Interval5D;
  data : Point5D -> V
}.
Arguments mkArray5D {V} _ _.
Arguments interval {V} _.
Arguments data {V} _ _.

(** [DataSource]: only its box and its native tile shape are used. *)
Record DataSource := mkDataSource {
  ds_roi : Interval5D;
  tile_shape : Shape5D
}.

Definition ds_shape (ds : DataSource) : Shape5D := shape (ds_roi ds).

(** [DataSourceSlice] (later [DataRoi]): an interval that knows its data
    source. *)
Record DataRoi := mkDataRoi {
  datasource : DataSource;
  roi : Interval5D
}.

Definition roi_split (r : DataRoi) (step : Shape5D) : list DataRoi :=
  map (mkDataRoi (datasource r)) (split (roi r) step).

Definition roi_enlarged (r : DataRoi) (radius : Point5D) : DataRoi :=
  mkDataRoi (datasource r) (enlarged (roi r) radius).

Section Ops.
Context {V : Type}.

(** [Array5D.allocate(roi, value=v)] *)
Definition allocate (r : Interval5D) (v : V) : Array5D V :=
  mkArray5D r (fun _ => v).

(** [a.translated(d)]: the same scalars, moved by [d]. *)
Definition atranslated (a : Array5D V) (d : Point5D) : Array5D V :=
  mkArray5D (translated (interval a) d) (fun p => data a (psub p d)).

(** [a.cut(roi)]: a view on the buffer of [a]. *)
Definition cut (a : Array5D V) (r : Interval5D) : Array5D V :=
  mkArray5D r (data a).

(** What the array [a] holds after a view on [r] was handed to code that
    left [written] behind it: a write through a view lands in the shared
    buffer, and cannot touch a voxel outside the view. *)
Definition write_through (a : Array5D V) (r : Interval5D)
    (written : Point5D -> V) : Array5D V :=
  mkArray5D (interval a)
            (fun p => if inside r p then written p else data a p).

(** [a.set(other)]: paint the block [other] into [a]. *)
Definition set (a other : Array5D V) : Array5D V :=
  write_through a (interval other) (data other).

End Ops.

End Blocks.

(* ===================================================================== *)
(** * feature_extractor.py                                                 *)
(* ===================================================================== *)

Module Features.
Import Nd Blocks.

(** The exceptions of the module. *)
Inductive FeatureError :=
| FeatureDataMismatchException
| AssertionError.

Section Extractors.

(** The scalar type of feature data, and the content of a fresh allocation. *)
Variable V : Type.
Variable v0 : V.

Definition FeatureData := Array5D V.

(** A [compute_into] leaves the buffer behind [out] changed, or raises. *)
Definition Writer := DataRoi -> FeatureData -> option (Point5D -> V).

(** [class FeatureExtractor]: the abstract methods and the methods that
    subclasses override. *)
Record FeatureExtractor := mkFeatureExtractor {
  get_expected_shape : Shape5D -> Shape5D;
  compute_into : Writer;
  kernel_shape : Shape5D;
  is_applicable_to : DataSource -> bool
}.

(** [FeatureExtractor.is_applicable_to], the default of the base class. *)
Definition default_is_applicable_to (kernel : Shape5D) (ds : DataSource) : bool :=
  pge (ds_shape ds) kernel.

(** [FeatureExtractor.ensure_applicable] *)
Definition ensure_applicable (fx : FeatureExtractor) (ds : DataSource)
  : FeatureError + unit :=
  if negb (is_applicable_to fx ds) then inl FeatureDataMismatchException
  else inr tt.

(** [FeatureExtractor.halo] *)
Definition halo (fx : FeatureExtractor) : Point5D :=
  pfloordiv (kernel_shape fx) 2.

(** [FeatureExtractor.allocate_for] *)
Definition allocate_for (fx : FeatureExtractor) (input_shape : Shape5D)
  : FeatureData :=
  allocate (to_interval5d (get_expected_shape fx input_shape)) v0.

(** [FeatureExtractor.compute], the function that [lru_cache] wraps. *)
Definition compute (fx : FeatureExtractor) (input_roi : DataRoi)
  : option FeatureData :=
  let out_features :=
    atranslated (allocate_for fx (shape (roi input_roi)))
                (start (roi input_roi)) in
  match compute_into fx input_roi out_features with
  | Some written => Some (mkArray5D (interval out_features) written)
  | None => None
  end.

(** ** ChannelwiseFilter *)

(** [ChannelwiseFilter.is_applicable_to] *)
Definition ChannelwiseFilter_is_applicable_to
    (kernel : Shape5D) (num_input_channels : Z) (ds : DataSource) : bool :=
  pge (ds_shape ds) kernel && (c (ds_shape ds) =? num_input_channels).

(** [ChannelwiseFilter.get_expected_shape] *)
Definition ChannelwiseFilter_get_expected_shape
    (channel_multiplier : Z) (input_shape : Shape5D) : Shape5D :=
  updated input_shape AxC (c input_shape * channel_multiplier).

(** The loop of [ChannelwiseFilter.compute_into] over
    [zip(input_roi.split(in_step), out.split(out_step))]; each [slc_out] is
    a view on [out]. *)
Fixpoint compute_slices (compute_slice : Writer)
    (pairs : list (DataRoi * Interval5D)) (out : FeatureData)
  : option (Point5D -> V) :=
  match pairs with
  | [] => Some (data out)
  | (slc_in, slc_out) :: rest =>
      match compute_slice slc_in (cut out slc_out) with
      | Some written => compute_slices compute_slice rest
                                       (write_through out slc_out written)
      | None => None
      end
  end.

(** [ChannelwiseFilter.compute_into]; [_compute_slice] is the abstract
    method. *)
Definition ChannelwiseFilter_compute_into
    (axis_2d : option Axis) (channel_multiplier : Z) (_compute_slice : Writer)
  : Writer :=
  fun input_roi out =>
    let in_step := updated (updated (shape (roi input_roi)) AxC 1) AxT 1 in
    let in_step := match axis_2d with
                   | Some a => updated in_step a 1
                   | None => in_step
                   end in
    let out_step := updated in_step AxC channel_multiplier in
    compute_slices _compute_slice
      (combine (roi_split input_roi in_step) (split (interval out) out_step))
      out.

(** A [ChannelwiseFilter] as an extractor.  The class leaves [kernel_shape]
    and [_compute_slice] abstract and a subclass may override
    [channel_multiplier] (1 in the class itself). *)
Definition ChannelwiseFilter (axis_2d : option Axis) (num_input_channels : Z)
    (channel_multiplier : Z) (kernel : Shape5D) (_compute_slice : Writer)
  : FeatureExtractor :=
  {| get_expected_shape := ChannelwiseFilter_get_expected_shape channel_multiplier;
     compute_into := ChannelwiseFilter_compute_into axis_2d channel_multiplier
                                                    _compute_slice;
     kernel_shape := kernel;
     is_applicable_to := ChannelwiseFilter_is_applicable_to kernel num_input_channels |}.

(** A [_compute_slice] that runs a kernel on the raw slice and stores the
    kernel's output, read relative to the start of [out]. *)
Definition kernel_slice (kernel : DataRoi -> Point5D -> V) : Writer :=
  fun raw_data out =>
    Some (fun p => if inside (interval out) p
                   then kernel raw_data (psub p (start (interval out)))
                   else data out p).

(** ** FeatureExtractorCollection *)

(** [max(f.kernel_shape[label] for f in extractors)] on every axis. *)
Definition max_kernel_shape (first : FeatureExtractor)
    (others : list FeatureExtractor) : Shape5D :=
  fold_left (fun acc f => pmax acc (kernel_shape f)) others (kernel_shape first).

(** [FeatureExtractorCollection.get_expected_shape] *)
Definition Collection_get_expected_shape (extractors : list FeatureExtractor)
    (input_shape : Shape5D) : Shape5D :=
  let expected_c :=
    fold_right Z.add 0
      (map (fun fx => c (get_expected_shape fx input_shape)) extractors) in
  updated input_shape AxC expected_c.

(** The loop of [FeatureExtractorCollection.compute_into]. *)
Fixpoint collection_loop (extractors : list FeatureExtractor)
    (input_roi : DataRoi) (offset : Point5D) (out : FeatureData)
  : option (Point5D -> V) :=
  match extractors with
  | [] => Some (data out)
  | fx :: rest =>
      let out_roi :=
        translated (to_interval5d (get_expected_shape fx (shape (roi input_roi))))
                   offset in
      let out_array := cut out out_roi in
      match compute_into fx input_roi out_array with
      | Some written =>
          collection_loop rest input_roi
            (padd offset (zero_c (c (shape out_roi))))
            (write_through out out_roi written)
      | None => None
      end
  end.

(** [FeatureExtractorCollection.compute_into]; the [assert] on the shape of
    [out] raises when it fails. *)
Definition Collection_compute_into (extractors : list FeatureExtractor)
  : Writer :=
  fun input_roi out =>
    if peqb (shape (interval out))
            (Collection_get_expected_shape extractors (shape (roi input_roi)))
    then collection_loop extractors input_roi (start (interval out)) out
    else None.

(** [FeatureExtractorCollection(extractors)]; the constructor asserts that
    there is at least one extractor.  [is_applicable_to] is inherited from
    the base class. *)
Definition FeatureExtractorCollection (extractors : list FeatureExtractor)
  : option FeatureExtractor :=
  match extractors with
  | [] => None
  | first :: others =>
      let ks := max_kernel_shape first others in
      Some {| get_expected_shape := Collection_get_expected_shape extractors;
              compute_into := Collection_compute_into extractors;
              kernel_shape := ks;
              is_applicable_to := default_is_applicable_to ks |}
  end.

End Extractors.

Arguments get_expected_shape {V} _ _.
Arguments compute_into {V} _ _ _.
Arguments kernel_shape {V} _.
Arguments is_applicable_to {V} _ _.
Arguments ensure_applicable {V} _ _.
Arguments halo {V} _.
Arguments compute {V} _ _ _.
Arguments ChannelwiseFilter {V} _ _ _ _ _.
Arguments kernel_slice {V} _.
Arguments FeatureExtractorCollection {V} _.
Arguments Collection_get_expected_shape {V} _ _.
Arguments Collection_compute_into {V} _.
Arguments collection_loop {V} _ _ _ _.

End Features.

(* ===================================================================== *)
(** * channelwise_fastfilters.py                                           *)
(* ===================================================================== *)

Module FastFilters.
Import Nd Blocks.

(** [Operator[DataRoi, Array5D]]: the preprocessors a filter reads from.
    [OpRetriever()] is the default argument of every constructor. *)
Inductive Operator :=
| OpRetriever
| OtherOperator (id : nat).

(** The concrete filter classes with their own parameters (floats are read
    as rationals). *)
Inductive Kernel :=
| StructureTensorEigenvalues (innerScale outerScale window_size : Q)
| GaussianGradientMagnitude (sigma window_size : Q)
| GaussianSmoothing (sigma window_size : Q)
| DifferenceOfGaussians (sigma0 sigma1 window_size : Q)
| HessianOfGaussianEigenvalues (scale window_size : Q)
| LaplacianOfGaussian (scale window_size : Q).

(** [class ChannelwiseFastFilter]: the attributes set by [__init__]. *)
Record ChannelwiseFastFilter := mkFilter {
  kernel : Kernel;
  preprocessor : Operator;
  axis_2d : option Axis;
  presmooth_sigma : Q
}.

(** [SigmaWindowFilter.__init__] calls [super().__init__(axis_2d=...,
    presmooth_sigma=...)] and does not hand its [preprocessor] argument on,
    so the attribute is the default [OpRetriever()]. *)
Definition SigmaWindowFilter (k : Q -> Q -> Kernel) (preprocessor : Operator)
    (sigma window_size : Q) (axis_2d : option Axis) (presmooth_sigma : Q)
  : ChannelwiseFastFilter :=
  mkFilter (k sigma window_size) OpRetriever axis_2d presmooth_sigma.

(** [ChannelwiseFastFilter.halo] *)
Definition halo (f : ChannelwiseFastFilter) : Point5D :=
  let args := mkPoint5D 30 30 30 0 0 in
  match axis_2d f with
  | Some a => updated args a 0
  | None => args
  end.

(** [ChannelwiseFastFilter.is_applicable_to] *)
Definition is_applicable_to (f : ChannelwiseFastFilter) (ds : DataSource) : bool :=
  pge (ds_shape ds) (pscale (halo f) 2).

(** What [compute] calls, in call order.  A presmoothing sub-operator logs
    its own calls under its entry. *)
#[warnings="-register-all"]
Inductive Invocation :=
| InvPreprocessor (op : Operator) (region : DataRoi)
| InvGaussian (g : ChannelwiseFastFilter) (region : DataRoi)
              (inner : list Invocation)
| InvFilterFn (k : Kernel) (input : Interval5D).

(** The region a source of data was asked for. *)
Definition requested_region (i : Invocation) : option DataRoi :=
  match i with
  | InvPreprocessor _ region => Some region
  | InvGaussian _ region _ => Some region
  | InvFilterFn _ _ => None
  end.

Fixpoint requested_regions (log : list Invocation) : list DataRoi :=
  match log with
  | [] => []
  | i :: rest =>
      match requested_region i with
      | Some region => region :: requested_regions rest
      | None => requested_regions rest
      end
  end.

Section Compute.

Variable V : Type.
Variable v0 : V.

(** A numpy array as [filter_fn] sees it: extents, whether a channel axis
    was appended, and the scalars by index. *)
Record NdArray := mkNdArray {
  nd_shape : Shape5D;
  nd_has_c : bool;
  nd_at : Point5D -> V
}.

(** The preprocessors and the fastfilters kernels are external. *)
Variable run_operator : Operator -> DataRoi -> Array5D V.
Variable filter_fn : Kernel -> option Axis -> NdArray -> NdArray.

(** [source_data.raw(source_axes)] *)
Definition raw (a : Array5D V) : NdArray :=
  mkNdArray (shape (interval a)) false
            (fun i => data a (padd i (start (interval a)))).

(** [FeatureData(raw_feature_data, axiskeys=output_axes, location=...)] *)
Definition FeatureData_at (nd : NdArray) (location : Point5D) : Array5D V :=
  mkArray5D (translated (to_interval5d (nd_shape nd)) location)
            (fun p => nd_at nd (psub p location)).

(** [results[0].combine(results[1:])]; an empty list has no first element. *)
Definition combine_results (results : list (Array5D V)) : option (Array5D V) :=
  match results with
  | [] => None
  | first :: others =>
      let out_roi := enclosing (interval first) (map interval others) in
      Some (fold_left set results (allocate out_roi v0))
  end.

(** A computation that logs its calls; [None] is a raised exception. *)
Definition Logged (A : Type) : Type := list Invocation * option A.

(** The body of the [for roi_slice in roi.split(roi_step)] loop for one
    slice; [source] is the branch taken on [presmooth_sigma]. *)
Definition compute_one (f : ChannelwiseFastFilter)
    (source : DataRoi -> Logged (Array5D V))
    (whole roi_slice : DataRoi) : Logged (Array5D V) :=
  let haloed_roi := roi_enlarged roi_slice (halo f) in
  let channel_offset := c (start (roi roi_slice)) - c (start (roi whole)) in
  match source haloed_roi with
  | (log, None) => (log, None)
  | (log, Some source_data) =>
      let raw_data := raw source_data in
      let raw_feature_data := filter_fn (kernel f) (axis_2d f) raw_data in
      let channel_multiplier :=
        if nd_has_c raw_feature_data then c (nd_shape raw_feature_data) else 1 in
      let feature_data :=
        FeatureData_at raw_feature_data
          (updated (start (roi haloed_roi)) AxC
                   (channel_offset * channel_multiplier)) in
      (log ++ [InvFilterFn (kernel f) (interval source_data)],
       Some (cut feature_data (with_c_of (roi roi_slice) (interval feature_data))))
  end.

Fixpoint compute_all (f : ChannelwiseFastFilter)
    (source : DataRoi -> Logged (Array5D V))
    (whole : DataRoi) (slices : list DataRoi) : Logged (list (Array5D V)) :=
  match slices with
  | [] => ([], Some [])
  | roi_slice :: rest =>
      match compute_one f source whole roi_slice with
      | (log, None) => (log, None)
      | (log, Some result) =>
          match compute_all f source whole rest with
          | (log', None) => (log ++ log', None)
          | (log', Some results) => (log ++ log', Some (result :: results))
          end
      end
  end.

(** [roi_step] of [compute]. *)
Definition roi_step (f : ChannelwiseFastFilter) (whole : DataRoi) : Shape5D :=
  let step := updated (updated (shape (roi whole)) AxC 1) AxT 1 in
  match axis_2d f with
  | Some a => updated step a 1
  | None => step
  end.

(** [compute] with the source of each slice's data given. *)
Definition compute_from (f : ChannelwiseFastFilter)
    (source : DataRoi -> Logged (Array5D V)) (whole : DataRoi)
  : Logged (Array5D V) :=
  match compute_all f source whole (roi_split whole (roi_step f whole)) with
  | (log, None) => (log, None)
  | (log, Some per_channel_results) => (log, combine_results per_channel_results)
  end.

(** [self.preprocessor.compute(haloed_roi)] *)
Definition from_preprocessor (op : Operator) : DataRoi -> Logged (Array5D V) :=
  fun haloed_roi => ([InvPreprocessor op haloed_roi], Some (run_operator op haloed_roi)).

(** The sub-operator [GaussianSmoothing(preprocessor=self.preprocessor,
    sigma=self.presmooth_sigma, axis_2d=self.axis_2d, window_size=3.5)]; its
    own [presmooth_sigma] is the default 0. *)
Definition gaussian_filter (f : ChannelwiseFastFilter) : ChannelwiseFastFilter :=
  SigmaWindowFilter GaussianSmoothing (preprocessor f) (presmooth_sigma f)
                    (7 # 2) (axis_2d f) 0.

(** [gaussian_filter.compute(haloed_roi)]: the sub-operator takes the branch
    without presmoothing. *)
Definition from_gaussian (g : ChannelwiseFastFilter) : DataRoi -> Logged (Array5D V) :=
  fun haloed_roi =>
    let '(inner, result) :=
      compute_from g (from_preprocessor (preprocessor g)) haloed_roi in
    ([InvGaussian g haloed_roi inner], result).

(** [ChannelwiseFastFilter.compute], the function that [operator_cache]
    wraps. *)
Definition compute (f : ChannelwiseFastFilter) (whole : DataRoi)
  : Logged (Array5D V) :=
  if Qlt_le_dec 0 (presmooth_sigma f)
  then compute_from f (from_gaussian (gaussian_filter f)) whole
  else compute_from f (from_preprocessor (preprocessor f)) whole.

End Compute.

Arguments compute {V} _ _ _ _ _.
Arguments compute_from {V} _ _ _ _ _.
Arguments compute_all {V} _ _ _ _ _.
Arguments compute_one {V} _ _ _ _ _.
Arguments from_preprocessor {V} _ _ _.
Arguments from_gaussian {V} _ _ _ _ _.
Arguments mkNdArray {V} _ _ _.
Arguments nd_shape {V} _.

End FastFilters.

(* ===================================================================== *)
(** * functools.lru_cache(): the cache in front of compute                  *)
(* ===================================================================== *)

Module LruCache.

(** [lru_cache()] is called without arguments, so [maxsize] is its default. *)
Definition default_maxsize : nat := 128%nat.

Section Cache.

(** Keys are the argument tuples [(self, roi)], compared by value. *)
Variable K : Type.
Variable R : Type.
Variable key_eqb : K -> K -> bool.

(** The wrapped function; [None] is a raised exception. *)
Variable user_function : K -> option R.
Variable maxsize : nat.

(** The cache, most recently used entry first, and the arguments the
    wrapped function was really called with, oldest first. *)
Record State := mkState {
  entries : list (K * R);
  calls : list K
}.

Definition empty : State := mkState [] [].

Fixpoint lookup (k : K) (l : list (K * R)) : option R :=
  match l with
  | [] => None
  | (k', v) :: rest => if key_eqb k k' then Some v else lookup k rest
  end.

Fixpoint remove (k : K) (l : list (K * R)) : list (K * R) :=
  match l with
  | [] => []
  | (k', v) :: rest =>
      if key_eqb k k' then rest else (k', v) :: remove k rest
  end.

(** One call of the decorated function.  A hit moves the entry to the most
    recent end; a miss calls the wrapped function, and stores the result,
    dropping the least recently used entry when the cache is full.  A raised
    exception is not stored. *)
Definition call (st : State) (k : K) : option R * State :=
  match lookup k (entries st) with
  | Some v => (Some v, mkState ((k, v) :: remove k (entries st)) (calls st))
  | None =>
      match user_function k with
      | None => (None, mkState (entries st) (calls st ++ [k]))
      | Some v =>
          let kept := if (List.length (entries st) <? maxsize)%nat
                      then entries st
                      else removelast (entries st) in
          (Some v, mkState ((k, v) :: kept) (calls st ++ [k]))
      end
  end.

(** A sequence of calls, results dropped. *)
Definition run (st : State) (ks : list K) : State :=
  fold_left (fun s k => snd (call s k)) ks st.

(** How often the wrapped function ran on [k]. *)
Definition times_computed (st : State) (k : K) : nat :=
  List.length (filter (key_eqb k) (calls st)).

End Cache.

Arguments mkState {K R} _ _.
Arguments entries {K R} _.
Arguments calls {K R} _.
Arguments empty {K R}.
Arguments lookup {K R} _ _ _.
Arguments remove {K R} _ _ _.
Arguments call {K R} _ _ _ _ _.
Arguments run {K R} _ _ _ _ _.
Arguments times_computed {K R} _ _ _.

End LruCache.

(* ===================================================================== *)
(** * annotation.py                                                        *)
(* ===================================================================== *)

Module Annotations.
Import Nd Blocks.

(** [np.uint8(n)] of a Python integer: the value modulo 256. *)
Definition uint8 (n : Z) : Z := n mod 256.

(** [class Color]: four [np.uint8] channels and a name. *)
Record Color := mkColor { r : Z; g : Z; b : Z; a : Z; name : string }.

Definition rgba (col : Color) : Z * Z * Z * Z := (r col, g col, b col, a col).

(** [Color.q_rgba]: [sum(c * 16 ** (3 - idx) for idx, c in enumerate(rgba))],
    read over the integers. *)
Definition q_rgba (col : Color) : Z :=
  r col * 16 ^ 3 + g col * 16 ^ 2 + b col * 16 ^ 1 + a col * 16 ^ 0.

(** [Color.__eq__] between two colors: [self.rgba == other.rgba]. *)
Definition Color_eqb (c1 c2 : Color) : bool :=
  (r c1 =? r c2) && (g c1 =? g c2) && (b c1 =? b c2) && (a c1 =? a c2).

(** [sorted(colors, key=lambda c: c.q_rgba)]: a stable sort. *)
Fixpoint insert_by {A : Type} (key : A -> Z) (v : A) (l : list A) : list A :=
  match l with
  | [] => [v]
  | h :: rest => if key v <=? key h then v :: h :: rest
                 else h :: insert_by key v rest
  end.

Definition sorted_by {A : Type} (key : A -> Z) (l : list A) : list A :=
  fold_right (insert_by key) [] l.

Definition Color_sort (colors : list Color) : list Color :=
  sorted_by q_rgba colors.

(** [set(colors)]: one color of each [rgba].  The iteration order of a
    Python set is not specified; here the colors come in the order of
    their first occurrence. *)
Fixpoint py_set (colors : list Color) : list Color :=
  match colors with
  | [] => []
  | col :: rest =>
      col :: filter (fun other => negb (Color_eqb col other)) (py_set rest)
  end.

Fixpoint enumerate_from {A : Type} (n : Z) (l : list A) : list (Z * A) :=
  match l with
  | [] => []
  | h :: rest => (n, h) :: enumerate_from (n + 1) rest
  end.

(** [Color.create_color_map]: a dict, as the list of its items in insertion
    order. *)
Definition create_color_map (colors : list Color) : list (Color * Z) :=
  map (fun ic => (snd ic, uint8 (fst ic + 1)))
      (enumerate_from 0 (Color_sort (py_set colors))).

(** [color_map[color]] *)
Fixpoint color_map_get (color_map : list (Color * Z)) (col : Color) : option Z :=
  match color_map with
  | [] => None
  | (k, v) :: rest => if Color_eqb k col then Some v else color_map_get rest col
  end.

(** [class Annotation(ScalarData)]: the boolean mask with its box, the color
    and the data source the annotation was drawn on. *)
Record Annotation := mkAnnotation {
  _data : Array5D bool;
  color : Color;
  raw_data : DataSource
}.

Definition Annotation_roi (an : Annotation) : Interval5D := interval (_data an).

Inductive AnnotationError :=
| AnnotationOutOfBounds (annotation_roi : Interval5D) (raw : DataSource).

(** [Annotation.__init__]: [arr] is given by its extents and its scalars by
    index; [arr.astype(bool)] keeps what is not zero.  The array is built
    first, then the bounds are checked. *)
Definition Annotation_init (arr_shape : Shape5D) (arr : Point5D -> Z)
    (location : Point5D) (col : Color) (raw : DataSource)
  : AnnotationError + Annotation :=
  let self_data :=
    mkArray5D (translated (to_interval5d arr_shape) location)
              (fun p => negb (arr (psub p location) =? 0)) in
  if negb (contains (ds_roi raw) (interval self_data))
  then inl (AnnotationOutOfBounds (interval self_data) raw)
  else inr (mkAnnotation self_data col raw).

(** [Annotation.rebuild]: a new annotation through [__init__]. *)
Definition rebuild (an : Annotation) (arr_shape : Shape5D) (arr : Point5D -> Z)
    (location : option Point5D) : AnnotationError + Annotation :=
  let location := match location with
                  | Some l => l
                  | None => start (Annotation_roi an)
                  end in
  Annotation_init arr_shape arr location (color an) (raw_data an).

(** The voxels of a box, in "tzyxc" order. *)
Definition voxels (box : Interval5D) : list Point5D :=
  flat_map (fun vt =>
  flat_map (fun vz =>
  flat_map (fun vy =>
  flat_map (fun vx =>
  map (fun vc => mkPoint5D vx vy vz vt vc)
      (zrange (c (start box)) (c (stop box))))
      (zrange (x (start box)) (x (stop box))))
      (zrange (y (start box)) (y (stop box))))
      (zrange (z (start box)) (z (stop box))))
      (zrange (t (start box)) (t (stop box))).

(** [self._data.tobytes()]: one byte per voxel of the mask. *)
Definition tobytes (m : Array5D bool) : list bool :=
  map (data m) (voxels (interval m)).

(** The right-hand side of [==]: another annotation, an object that has a
    [color] and a [_data], or anything else. *)
Inductive PyObject :=
| PyAnnotation (an : Annotation)
| PyDuck (other_color : Color) (other_data : list bool)
| PyPlain.

Fixpoint all_equal (l1 l2 : list bool) : bool :=
  match l1, l2 with
  | [], [] => true
  | h1 :: t1, h2 :: t2 => Bool.eqb h1 h2 && all_equal t1 t2
  | _, _ => false
  end.

(** [Annotation.__eq__]; [None] is the [AttributeError] of an object without
    the attributes. *)
Definition Annotation_eq (self : Annotation) (other : PyObject) : option bool :=
  match other with
  | PyAnnotation _ => Some false
  | PyDuck other_color other_data =>
      Some (Color_eqb (color self) other_color
            && all_equal (tobytes (_data self)) other_data)
  | PyPlain => None
  end.

Section Hash.

(** Python's [hash] of a tuple of channels and of a (bytes, hash) pair. *)
Variable hash_rgba : Z * Z * Z * Z -> Z.
Variable hash_pair : list bool * Z -> Z.

(** [Color.__hash__] *)
Definition Color_hash (col : Color) : Z := hash_rgba (rgba col).

(** [Annotation.__hash__] *)
Definition Annotation_hash (an : Annotation) : Z :=
  hash_pair (tobytes (_data an), Color_hash (color an)).

End Hash.

(** [Annotation.colored]: [self._data * value]. *)
Definition colored (an : Annotation) (value : Z) : Array5D Z :=
  mkArray5D (Annotation_roi an) (fun p => if data (_data an) p then value else 0).

(** [out.set(block, mask_value=0)]: the voxels of [block] that hold the mask
    value are not painted. *)
Definition set_masked (out block : Array5D Z) (mask_value : Z) : Array5D Z :=
  mkArray5D (interval out)
    (fun p => if inside (interval block) p && negb (data block p =? mask_value)
              then data block p else data out p).

Fixpoint merge_loop (annotations : list Annotation) (color_map : list (Color * Z))
    (out : Array5D Z) : option (Array5D Z) :=
  match annotations with
  | [] => Some out
  | annot :: rest =>
      match color_map_get color_map (color annot) with
      | Some label => merge_loop rest color_map (set_masked out (colored annot label) 0)
      | None => None
      end
  end.

(** [Slice5D.enclosing(annot.roi for annot in annotations)].  What
    ndstructs does for no box at all is not in the sources:
    [enclosing_nothing] is the box that it returns then, or [None] when it
    raises. *)
Definition enclosing_all (enclosing_nothing : option Interval5D)
    (boxes : list Interval5D) : option Interval5D :=
  match boxes with
  | [] => enclosing_nothing
  | first :: others => Some (enclosing first others)
  end.

(** [Annotation.merge]; [None] when [Slice5D.enclosing] raises or a color
    is missing from the map. *)
Definition merge (enclosing_nothing : option Interval5D)
    (annotations : list Annotation) (color_map : option (list (Color * Z)))
  : option (Array5D Z) :=
  match enclosing_all enclosing_nothing (map Annotation_roi annotations) with
  | None => None
  | Some out_roi =>
      let out := allocate out_roi 0 in
      let color_map :=
        match color_map with
        | Some (item :: items) => item :: items
        | _ => create_color_map (map color annotations)
        end in
      merge_loop annotations color_map out
  end.

End Annotations.

(* ===================================================================== *)
(** * Process-pool orchestration                                           *)
(* ===================================================================== *)

Module Orchestration.
Import Nd Blocks.

(** [Slice5D]: a box whose bounds may be left open ([None]). *)
Record Slice5D := mkSlice5D {
  sl_x : option (Z * Z);
  sl_y : option (Z * Z);
  sl_z : option (Z * Z);
  sl_t : option (Z * Z);
  sl_c : option (Z * Z)
}.

(** [slc.defined_with(shape)]: an open axis ranges over the whole shape. *)
Definition defined_with (slc : Slice5D) (limits : Shape5D) : Interval5D :=
  let bound (o : option (Z * Z)) (extent : Z) :=
    match o with Some b => b | None => (0, extent) end in
  let bx := bound (sl_x slc) (x limits) in
  let by_ := bound (sl_y slc) (y limits) in
  let bz := bound (sl_z slc) (z limits) in
  let bt := bound (sl_t slc) (t limits) in
  let bc := bound (sl_c slc) (c limits) in
  mkInterval5D (mkPoint5D (fst bx) (fst by_) (fst bz) (fst bt) (fst bc))
               (mkPoint5D (snd bx) (snd by_) (snd bz) (snd bt) (snd bc)).

Inductive PoolError :=
| ValueError
| ZeroDivisionError
| IndexError.

Section Pool.

Variable V : Type.
Variable v0 : V.

(** The trained classifier is opaque: [classifier.predict(tile)] returns the
    block of predictions of a tile. *)
Variable PixelClassifier : Type.
Variable predict : PixelClassifier -> DataRoi -> Array5D V.

Definition Predictions := Array5D V.

(** [do_predict] of the benchmark and [do_worker_predict] of the server:
    the worker's function, on one [(classifier, batch)] pair. *)
Definition do_worker_predict (slice_batch : PixelClassifier * list DataRoi)
  : list Predictions :=
  let classifier := fst slice_batch in
  map (fun datasource_slc => predict classifier datasource_slc) (snd slice_batch).

(** [for result_batch in ...: for result in result_batch:
    predictions.set(result)] *)
Definition merge_batches (predictions : Predictions)
    (result_batches : list (list Predictions)) : Predictions :=
  fold_left (fun acc result_batch => fold_left set result_batch acc)
            result_batches predictions.

(** ** benchmarks/pixel_classification_webilastik.py, "process-pool" *)

(** [math.ceil(n / k)] for a positive [k]. *)
Definition ceil_div (n k : nat) : nat := ((n + k - 1) / k)%nat.

(** [[all_slices[start : start + batch_size]
      for start in range(0, len(all_slices), batch_size)]] *)
Definition batch_slices {A : Type} (all_slices : list A) (batch_size : nat)
  : list (list A) :=
  map (fun k => firstn batch_size (skipn (k * batch_size) all_slices))
      (seq 0 (ceil_div (List.length all_slices) batch_size)).

(** The batches of the process-pool branch.  [ProcessPoolExecutor] refuses a
    worker count that is not positive, and [range] a step of zero. *)
Definition make_batches (classifier : PixelClassifier) (num_workers : Z)
    (all_slices : list DataRoi)
  : PoolError + list (PixelClassifier * list DataRoi) :=
  if num_workers <=? 0 then inl ValueError
  else
    let batch_size := ceil_div (List.length all_slices) (Z.to_nat num_workers) in
    if (batch_size =? 0)%nat then inl ValueError
    else inr (map (pair classifier) (batch_slices all_slices batch_size)).

(** The process-pool branch: [executor.map] hands the batches to the
    workers and yields their results in the order of the batches. *)
Definition process_pool (classifier : PixelClassifier) (num_workers : Z)
    (all_slices : list DataRoi) (predictions : Predictions)
  : PoolError + Predictions :=
  match make_batches classifier num_workers all_slices with
  | inl e => inl e
  | inr batches => inr (merge_batches predictions (map do_worker_predict batches))
  end.

(** ** server/server.py, [do_predictions] *)

(** Python's [hash] of a tile is opaque. *)
Variable hash : DataRoi -> Z.

(** [slc_batches[batch_idx].append(slc)] on a [defaultdict(list)], kept as
    the list of its items in insertion order. *)
Fixpoint append_to (batch_idx : Z) (slc : DataRoi)
    (slc_batches : list (Z * list DataRoi)) : list (Z * list DataRoi) :=
  match slc_batches with
  | [] => [(batch_idx, [slc])]
  | (idx, batch) :: rest =>
      if idx =? batch_idx then (idx, batch ++ [slc]) :: rest
      else (idx, batch) :: append_to batch_idx slc rest
  end.

Definition group_slices (num_workers : Z) (tiles : list DataRoi)
  : list (Z * list DataRoi) :=
  fold_left (fun slc_batches slc => append_to (hash slc mod num_workers) slc slc_batches)
            tiles [].

(** [executors[idx]]: the list has [num_workers] executors, and a negative
    index counts from its end. *)
Definition executor_exists (num_workers idx : Z) : bool :=
  (- num_workers <=? idx) && (idx <? num_workers).

(** The tiles of the request, the allocation of the output and the loading
    of classifier and data source are not part of the sources. *)
Variable get_tiles : DataRoi -> list DataRoi.
Variable num_classes : PixelClassifier -> Z.

(** Modelled from the spec: [classifier.allocate_predictions(roi)]
    (classifiers/pixel_classifier.py is not among the sources); the block
    matches the region and its "channel count equals the number of trained
    label classes". *)
Definition allocate_predictions (classifier : PixelClassifier) (backed_roi : DataRoi)
  : Predictions :=
  allocate (mkInterval5D (updated (start (roi backed_roi)) AxC 0)
                         (updated (stop (roi backed_roi)) AxC (num_classes classifier)))
           v0.

(** [do_predictions], on the loaded classifier and data source. *)
Definition do_predictions (num_workers : Z) (request_roi : Slice5D)
    (classifier : PixelClassifier) (ds : DataSource) : PoolError + Predictions :=
  let backed_roi := mkDataRoi ds (defined_with request_roi (ds_shape ds)) in
  let predictions := allocate_predictions classifier backed_roi in
  match get_tiles backed_roi with
  | [] => inr predictions
  | tiles =>
      if num_workers =? 0 then inl ZeroDivisionError
      else
        let slc_batches := group_slices num_workers tiles in
        if forallb (fun item => executor_exists num_workers (fst item)) slc_batches
        then inr (merge_batches predictions
                    (map (fun item => do_worker_predict (classifier, snd item))
                         slc_batches))
        else inl IndexError
  end.

End Pool.

Arguments do_worker_predict {V PixelClassifier} _ _.
Arguments merge_batches {V} _ _.
Arguments make_batches {PixelClassifier} _ _ _.
Arguments process_pool {V PixelClassifier} _ _ _ _ _.
Arguments allocate_predictions {V} _ {PixelClassifier} _ _ _.
Arguments do_predictions {V} _ {PixelClassifier} _ _ _ _ _ _ _ _.

End Orchestration.

(* ===================================================================== *)
(** * server.py: the raw chunks of ng_predict                              *)
(* ===================================================================== *)

Module Wire.
Import Nd Blocks.

Section Chunks.

Variable V : Type.

(** [predictions.as_uint8()] turns every scalar into one unsigned byte. *)
Variable as_uint8 : V -> byte.

(** [a.raw("xyzc").tobytes("F")]: Fortran order over the axes x, y, z, c,
    so x varies fastest.  The axis that "xyzc" leaves out has to have
    extent 1. *)
Definition raw_xyzc_tobytes_F (blk : Array5D byte) : option (list byte) :=
  let box := interval blk in
  if t (shape box) =? 1 then
    Some (flat_map (fun vc =>
          flat_map (fun vz =>
          flat_map (fun vy =>
          map (fun vx => data blk (mkPoint5D vx vy vz (t (start box)) vc))
              (zrange (x (start box)) (x (stop box))))
              (zrange (y (start box)) (y (stop box))))
              (zrange (z (start box)) (z (stop box))))
              (zrange (c (start box)) (c (stop box))))
  else None.

(** The body of the response of [ng_predict] for the predictions that
    [do_predictions] returned: the bytes, and nothing else. *)
Definition ng_predict_body (predictions : Array5D V) : option (list byte) :=
  raw_xyzc_tobytes_F (mkArray5D (interval predictions)
                                (fun p => as_uint8 (data predictions p))).

(** [requested_roi] of [ng_predict]. *)
Definition requested_roi (xBegin xEnd yBegin yEnd zBegin zEnd : Z)
  : Orchestration.Slice5D :=
  Orchestration.mkSlice5D (Some (xBegin, xEnd)) (Some (yBegin, yEnd))
                          (Some (zBegin, zEnd)) None None.

(** What [do_predictions] needs. *)
Variable v0 : V.
Variable PixelClassifier : Type.
Variable predict : PixelClassifier -> DataRoi -> Array5D V.
Variable hash : DataRoi -> Z.
Variable get_tiles : DataRoi -> list DataRoi.
Variable num_classes : PixelClassifier -> Z.
Variable num_workers : Z.

(** [ng_predict], from the request to the body of the response, on the
    classifier and the data source that the two ids stand for; an exception
    of [do_predictions] leaves no body. *)
Definition ng_predict (classifier : PixelClassifier) (ds : DataSource)
    (xBegin xEnd yBegin yEnd zBegin zEnd : Z) : option (list byte) :=
  match Orchestration.do_predictions v0 predict hash get_tiles num_classes
          num_workers (requested_roi xBegin xEnd yBegin yEnd zBegin zEnd)
          classifier ds with
  | inr predictions => ng_predict_body predictions
  | inl _ => None
  end.

End Chunks.

Arguments ng_predict_body {V} _ _.
Arguments ng_predict {V} _ _ {PixelClassifier} _ _ _ _ _ _ _ _ _ _ _ _ _.

End Wire.

(* ===================================================================== *)
(** * utility/request.py                                                   *)
(* ===================================================================== *)

Module Request.

Local Open Scope string_scope.

Inductive Method := get | put | post | delete.

(** What [session.request] returns. *)
Record Response := mkResponse {
  ok : bool;
  status_code : Z;
  text : string;
  content : list byte;
  headers : list (string * string)
}.

Inductive Outcome :=
| Returned (body : list byte) (response_headers : list (string * string))
| ErrRequestCompletedAsFailure (status : Z) (response_text : string)
                               (url : string)
                               (response_headers : list (string * string))
| ErrRequestCrashed.

(** [str(n)] *)
Definition str (n : Z) : string := NilZero.string_of_int (Z.to_int n).

(** [l[:n]], Python's slice: a negative [n] counts from the end. *)
Definition slice_to {A : Type} (l : list A) (n : Z) : list A :=
  if (0 <=? n)%Z then firstn (Z.to_nat n) l
  else firstn (List.length l - Z.to_nat (- n)) l.

(** [s[:1000]] on a string. *)
Definition text_prefix (s : string) (n : nat) : string :=
  String.substring 0 n s.

(** [{**headers, "Range": value}] *)
Fixpoint with_header (hs : list (string * string)) (key value : string)
  : list (string * string) :=
  match hs with
  | [] => [(key, value)]
  | (k, v) :: rest =>
      if String.eqb k key then (k, value) :: rest
      else (k, v) :: with_header rest key value
  end.

(** The value of the Range header. *)
Definition range_header_value (offset : Z) (num_bytes : option Z) : string :=
  if (0 <=? offset)%Z then
    let value := "bytes=" ++ str offset ++ "-" in
    match num_bytes with
    | Some n => value ++ str (Z.max offset (offset + n - 1))
    | None => value
    end
  else "bytes=" ++ str offset.

Section WithSession.

(** [session.request]; [None] is a raised exception. *)
Variable session_request :
  Method -> string -> option (list byte) -> list (string * string) -> option Response.

(** [request] *)
Definition request (method : Method) (url : string) (data : option (list byte))
    (offset : Z) (num_bytes : option Z) (hdrs : option (list (string * string)))
  : Outcome :=
  let hdrs := with_header (match hdrs with Some h => h | None => [] end)
                          "Range" (range_header_value offset num_bytes) in
  match session_request method url data hdrs with
  | None => ErrRequestCrashed
  | Some response =>
      if negb (ok response) then
        ErrRequestCompletedAsFailure (status_code response)
          (text_prefix (text response) 1000) url (headers response)
      else
        let body := content response in
        let body := match num_bytes with
                    | Some n => slice_to body n
                    | None => body
                    end in
        Returned body (headers response)
  end.

End WithSession.

End Request.

(* ===================================================================== *)
(** * src/webilastik/annotations/annotation.py: building colors and scribblings *)

Module ColorInit.
Import Annotations.

Inductive ChannelsError :=
| ValueError
| IndexError.

Section Init.

(** The text of the f-string "Label (r, g, b, a)" for the channels. *)
Variable label_of : Z * Z * Z * Z -> string.

(** The one element of the array [(channels[0] * 3) + [255]]: a numpy
    scalar plus a list of one number. *)
Variable scaled_plus_255 : Z -> Z.

(** [Color.__init__]: [name or f"Label ..."], the empty name is replaced. *)
Definition Color_init (r g b a : Z) (name : string) : Color :=
  mkColor r g b a (if String.eqb name "" then label_of (r, g, b, a) else name).

(** [Color.from_channels] on numpy scalars, as its signature has them;
    [channels[i]] raises [IndexError] past the end. *)
Definition from_channels (channels : list Z) (name : string)
  : ChannelsError + Color :=
  if (List.length channels =? 0)%nat || (4 <? List.length channels)%nat
  then inl ValueError
  else
    let channels :=
      match channels with
      | [grey] => [scaled_plus_255 grey]
      | _ => channels
      end in
    match nth_error channels 0, nth_error channels 1,
          nth_error channels 2, nth_error channels 3 with
    | Some r, Some g, Some b, Some a => inr (Color_init r g b a name)
    | _, _, _, _ => inl IndexError
    end.

End Init.

End ColorInit.

Module Scribblings.
Import Nd Blocks Annotations.

Inductive PointsError :=
| EmptySequence
| SpansChannels
| OutOfBounds (e : AnnotationError).

(** [Point5D.min_coords] and [Point5D.max_coords] of a non-empty list of
    points: the smallest and the largest coordinate on every axis. *)
Definition min_coords (first : Point5D) (rest : list Point5D) : Point5D :=
  fold_left pmin rest first.
Definition max_coords (first : Point5D) (rest : list Point5D) : Point5D :=
  fold_left pmax rest first.

Section Points.

(** [anchor.interpolate_until(voxel)], of ndstructs: the voxels of a line
    from one point to the other, which lie between the two. *)
Variable interpolate_until : Point5D -> Point5D -> list Point5D.

(** The loop that paints: the points of the lines from each voxel to the
    next, the first line being from the first voxel to itself. *)
Fixpoint painted (anchor : Point5D) (voxels : list Point5D) : list Point5D :=
  match voxels with
  | [] => []
  | voxel :: rest => interpolate_until anchor voxel ++ painted voxel rest
  end.

(** [Annotation.interpolate_from_points] *)
Definition interpolate_from_points (col : Color) (voxels : list Point5D)
    (raw : DataSource) : PointsError + Annotation :=
  match voxels with
  | [] => inl EmptySequence
  | first :: rest =>
      let start := min_coords first rest in
      let stop := padd (max_coords first rest) shape_ones in
      let scribbling_roi := mkInterval5D start stop in
      if negb (c (shape scribbling_roi) =? 1) then inl SpansChannels
      else
        let marked := painted first voxels in
        let scribblings (p : Point5D) : bool := existsb (peqb p) marked in
        match Annotation_init (shape scribbling_roi)
                (fun q => if scribblings (padd q start) then 1 else 0)
                start col raw with
        | inl e => inl (OutOfBounds e)
        | inr an => inr an
        end
  end.

End Points.

End Scribblings.

(* ===================================================================== *)
(** * src/webilastik/utility/request.py: request_size *)

Module RequestSize.
Import Request.

Local Open Scope string_scope.

(** [s.lower()] on the ASCII letters. *)
Definition lower_ascii (ch : ascii) : ascii :=
  let n := nat_of_ascii ch in
  if ((65 <=? n) && (n <=? 90))%nat then ascii_of_nat (n + 32) else ch.

Fixpoint lower (s : string) : string :=
  match s with
  | EmptyString => EmptyString
  | String ch rest => String (lower_ascii ch) (lower rest)
  end.

(** [CaseInsensitiveDict.get(key)]: the keys are compared in lower case. *)
Fixpoint ci_get (hs : list (string * string)) (key : string) : option string :=
  match hs with
  | [] => None
  | (k, v) :: rest =>
      if String.eqb (lower k) (lower key) then Some v else ci_get rest key
  end.

(** ["/" in s] *)
Fixpoint has_slash (s : string) : bool :=
  match s with
  | EmptyString => false
  | String ch rest => Ascii.eqb ch "/" || has_slash rest
  end.

(** [s.split("/")[-1]]: what follows the last slash, the whole string when
    there is none. *)
Fixpoint last_field (s : string) : string :=
  match s with
  | EmptyString => EmptyString
  | String ch rest =>
      if has_slash rest then last_field rest
      else if Ascii.eqb ch "/" then rest
      else String ch rest
  end.

Inductive SizeOutcome :=
| Size (n : Z)
| Failed (e : Outcome)
| ErrBadContentLength.

Section WithSession.

Variable session_request :
  Method -> string -> option (list byte) -> list (string * string) -> option Response.

(** Python's [int(s)], [None] for the [ValueError], and [s.isdigit()]. *)
Variable int : string -> option Z.
Variable isdigit : string -> bool.

(** [request_size] *)
Definition request_size (url : string) (hdrs : option (list (string * string)))
  : SizeOutcome :=
  match request session_request get url None 0 (Some 1%Z) hdrs with
  | Returned _ response_headers =>
      match ci_get response_headers "content-length" with
      | Some content_length =>
          match int content_length with
          | Some n => Size n
          | None => ErrBadContentLength
          end
      | None =>
          match ci_get response_headers "content-range" with
          | Some content_range =>
              if has_slash content_range then
                let total_size := last_field content_range in
                if isdigit total_size then
                  match int total_size with
                  | Some n => Size n
                  | None => ErrBadContentLength
                  end
                else ErrBadContentLength
              else ErrBadContentLength
          | None => ErrBadContentLength
          end
      end
  | response => Failed response
  end.

End WithSession.

End RequestSize.

(* ===================================================================== *)
(** * src/webilastik/features/feature_extractor.py: the multiplier of a collection *)

Module CollectionMultiplier.

(** [FeatureExtractorCollection.channel_multiplier]:
    [sum(f.channel_multiplier for f in self.extractors)], on the
    multipliers of the extractors. *)
Definition Collection_channel_multiplier (multipliers : list Z) : Z :=
  fold_right Z.add 0 multipliers.

End CollectionMultiplier.

(** * src/webilastik/server/server.py: the scheme of a precomputed url *)

Module PrecomputedUrl.

Local Open Scope string_scope.

(** [ch in chars] *)
Fixpoint mem (ch : ascii) (chars : string) : bool :=
  match chars with
  | EmptyString => false
  | String ch' rest => Ascii.eqb ch ch' || mem ch rest
  end.

(** [s.lstrip(chars)]: the leading characters that occur in [chars] are
    dropped. *)
Fixpoint lstrip (chars s : string) : string :=
  match s with
  | EmptyString => EmptyString
  | String ch rest => if mem ch chars then lstrip chars rest else s
  end.

(** [url.lstrip("precomputed://")], as [do_predictions], [ng_raw] and
    [create_precomputed_chunks_datasource] write it. *)
Definition without_scheme (url : string) : string :=
  lstrip "precomputed://" url.

End PrecomputedUrl.

(* ===================================================================== *)
(** * src/webilastik/filesystem/bucket_fs.py *)

Module BucketFs.
Import Request RequestSize.

Inductive FsError (Cause : Type) :=
| FsFileNotFoundException (path : string)
| FsIoException (cause : Cause).
Arguments FsFileNotFoundException {Cause} _.
Arguments FsIoException {Cause} _.

Section DataProxy.

(** [GlobalLogin], of webilastik.libebrains: the tokens, the state of the
    login, and what [refresh_token] returns instead of a token. *)
Variable Token : Type.
Variable Login : Type.
Variable LoginError : Type.
Variable get_token : Login -> Token.
Variable refresh_token : Login -> Token -> (LoginError + Token) * Login.

(** [_data_proxy_session.request] with the authorization header of a
    token; the answer may depend on how many requests the session has
    served.  [None] is a raised exception. *)
Variable data_proxy_request :
  nat -> Method -> string -> option (list byte) -> Token -> option Response.

(** [url.path] *)
Variable url_path : string -> string.

(** The login, the number of requests sent to the data proxy and the number
    of calls to [refresh_token]. *)
Record World := mkWorld {
  login : Login;
  served : nat;
  refreshes : nat
}.

Inductive ProxyOutcome :=
| ProxyReturned (content : list byte) (response_headers : list (string * string))
| ProxyFileNotFound (path : string)
| ProxyLoginError (e : LoginError)
| ProxyFailure (status : Z)
| ProxyCrashed.

(** The body of [_requests_from_data_proxy]; [again] is the recursive call
    with [refresh_on_401=False], there when [refresh_on_401] is true. *)
Definition data_proxy_attempt (again : option (World -> ProxyOutcome * World))
    (method : Method) (url : string) (data : option (list byte)) (w : World)
  : ProxyOutcome * World :=
  let user_token := get_token (login w) in
  let w1 := mkWorld (login w) (S (served w)) (refreshes w) in
  match data_proxy_request (served w) method url data user_token with
  | None => (ProxyCrashed, w1)
  | Some response =>
      if (status_code response =? 404)%Z
      then (ProxyFileNotFound (url_path url), w1)
      else
        match (if (status_code response =? 401)%Z then again else None) with
        | Some again =>
            let '(refreshed_token_result, login') :=
              refresh_token (login w1) user_token in
            let w2 := mkWorld login' (served w1) (S (refreshes w1)) in
            match refreshed_token_result with
            | inl e => (ProxyLoginError e, w2)
            | inr _ => again w2
            end
        | None =>
            if negb (ok response)
            then (ProxyFailure (status_code response), w1)
            else (ProxyReturned (content response) (headers response), w1)
        end
  end.

(** [_requests_from_data_proxy] *)
Definition _requests_from_data_proxy (method : Method) (url : string)
    (data : option (list byte)) (refresh_on_401 : bool)
  : World -> ProxyOutcome * World :=
  data_proxy_attempt
    (if refresh_on_401 then Some (data_proxy_attempt None method url data)
     else None)
    method url data.

(** ** BucketFs *)

(** [self.url.concatpath(path)], [url.updated_with(extra_search=
    {"redirect": "false"})] and [_parse_url_from_data_proxy_response], whose
    parsers are not among the sources; a url is its [schemeless_raw]. *)
Variable concatpath : string -> string -> string.
Variable with_redirect_false : string -> string.
Variable parse_url_from_data_proxy_response : list byte -> option string.

(** [_cscs_session.request], and Python's [int] and [isdigit]. *)
Variable cscs_request :
  Method -> string -> option (list byte) -> list (string * string) -> option Response.
Variable int : string -> option Z.
Variable isdigit : string -> bool.

Inductive Cause :=
| CauseDataProxy (response : ProxyOutcome)
| CauseBadUrl
| CauseRequest (response : Outcome)
| CauseSize (size_result : SizeOutcome).

Definition FsResult (A : Type) : Type := (FsError Cause + A) * World.

(** [BucketFs.get_swift_object_url] *)
Definition get_swift_object_url (bucket_url path : string) (w : World)
  : FsResult string :=
  let file_url := with_redirect_false (concatpath bucket_url path) in
  match _requests_from_data_proxy get file_url None true w with
  | (ProxyFileNotFound _, w') => (inl (FsFileNotFoundException path), w')
  | (ProxyReturned payload _, w') =>
      match parse_url_from_data_proxy_response payload with
      | None => (inl (FsIoException CauseBadUrl), w')
      | Some cscs_url => (inr cscs_url, w')
      end
  | (data_proxy_response, w') =>
      (inl (FsIoException (CauseDataProxy data_proxy_response)), w')
  end.

(** [BucketFs.read_file] *)
Definition read_file (bucket_url path : string) (offset : Z)
    (num_bytes : option Z) (w : World) : FsResult (list byte) :=
  match get_swift_object_url bucket_url path w with
  | (inl e, w') => (inl e, w')
  | (inr cscs_url, w') =>
      match request cscs_request get cscs_url None offset num_bytes None with
      | Returned body _ => (inr body, w')
      | cscs_response => (inl (FsIoException (CauseRequest cscs_response)), w')
      end
  end.

(** [BucketFs.get_size] *)
Definition get_size (bucket_url path : string) (w : World) : FsResult Z :=
  match get_swift_object_url bucket_url path w with
  | (inl e, w') => (inl e, w')
  | (inr cscs_url, w') =>
      match request_size cscs_request int isdigit cscs_url None with
      | Size n => (inr n, w')
      | Failed (ErrRequestCompletedAsFailure status shown url hs) =>
          if (status =? 404)%Z then (inl (FsFileNotFoundException path), w')
          else (inl (FsIoException
                       (CauseSize (Failed (ErrRequestCompletedAsFailure
                                             status shown url hs)))), w')
      | size_result => (inl (FsIoException (CauseSize size_result)), w')
      end
  end.

End DataProxy.

Arguments mkWorld {Login} _ _ _.
Arguments login {Login} _.
Arguments served {Login} _.
Arguments refreshes {Login} _.
Arguments ProxyReturned {LoginError} _ _.
Arguments ProxyFileNotFound {LoginError} _.
Arguments ProxyLoginError {LoginError} _.
Arguments ProxyFailure {LoginError} _.
Arguments ProxyCrashed {LoginError}.
Arguments CauseDataProxy {LoginError} _.
Arguments CauseBadUrl {LoginError}.
Arguments CauseRequest {LoginError} _.
Arguments CauseSize {LoginError} _.

End BucketFs.

(* ===================================================================== *)
(** * src/webilastik/filesystem/bucket_fs.py: the urls of a bucket *)

Module BucketUrl.

Local Open Scope string_scope.

(** An absolute [PurePosixPath], by its components: [parts] is the root
    followed by the components, and [as_posix()] joins them with slashes
    after the root. *)
Definition PurePosixPath := list string.

Definition parts (path : PurePosixPath) : list string := "/" :: path.

Fixpoint join_slash (l : list string) : string :=
  match l with
  | [] => EmptyString
  | [s] => s
  | s :: rest => s ++ "/" ++ join_slash rest
  end.

Definition as_posix (path : PurePosixPath) : string :=
  "/" ++ join_slash path.

(** [Url], of webilastik.utility.url: the fields that [BucketFs] reads. *)
Record Url := mkUrl {
  protocol : string;
  hostname : string;
  port : option Z;
  path : PurePosixPath
}.

Section Api.

(** The port of a [Url] that is built without one. *)
Variable no_port : option Z.

(** [BucketFs.API_URL] *)
Definition API_URL : Url :=
  mkUrl "https" "data-proxy.ebrains.eu" no_port ["api"; "v1"; "buckets"].

Definition port_eqb (p q : option Z) : bool :=
  match p, q with
  | Some a, Some b => (a =? b)%Z
  | None, None => true
  | _, _ => false
  end.

(** [BucketFs.recognizes] *)
Definition recognizes (url : Url) : bool :=
  String.eqb (protocol url) "https"
  && String.eqb (hostname url) (hostname API_URL)
  && port_eqb (port url) (port API_URL)
  && String.prefix (as_posix (path API_URL)) (as_posix (path url)).

Inductive TryFrom :=
| NotABucketUrl
| BadBucketUrl
| Bucket (bucket_name : string) (path : string).

(** [BucketFs.try_from]: the name of the bucket and the text of the path
    inside the bucket. *)
Definition try_from (url : Url) : TryFrom :=
  if negb (recognizes url) then NotABucketUrl
  else
    let bucket_name_part_index := List.length (parts (path API_URL)) in
    if (List.length (parts (path url)) <=? bucket_name_part_index)%nat
    then BadBucketUrl
    else
      Bucket (nth bucket_name_part_index (parts (path url)) EmptyString)
             (match join_slash (skipn (bucket_name_part_index + 1)
                                      (parts (path url))) with
              | EmptyString => "/"
              | joined => joined
              end).

End Api.

End BucketUrl.

(* ===================================================================== *)
(** * src/webilastik/__init__.py: versions *)

Module Versions.

Local Open Scope string_scope.

(** An entry of a version tuple: an [int] or a [str]. *)
Inductive Component :=
| CInt (n : Z)
| CStr (s : string).

(** [str(i)] *)
Definition str_of (i : Component) : string :=
  match i with
  | CInt n => Request.str n
  | CStr s => s
  end.

(** [sep.join(l)] *)
Fixpoint join (sep : string) (l : list string) : string :=
  match l with
  | [] => EmptyString
  | [s] => s
  | s :: rest => s ++ sep ++ join sep rest
  end.

(** [_format_version] *)
Definition _format_version (t : list Component) : string :=
  join "." (map str_of t).



(** [vstring.split(".")]: there is always at least one part. *)
Fixpoint split_dot (s : string) : list string :=
  match s with
  | EmptyString => [EmptyString]
  | String ch rest =>
      if Ascii.eqb ch "."
      then EmptyString :: split_dot rest
      else match split_dot rest with
           | part :: parts => String ch part :: parts
           | [] => [String ch EmptyString]
           end
  end.

(** The digits: the strings are read as ASCII. *)
Definition is_digit (ch : ascii) : bool :=
  ((48 <=? nat_of_ascii ch) && (nat_of_ascii ch <=? 57))%nat.

Fixpoint take_digits (s : string) : string :=
  match s with
  | EmptyString => EmptyString
  | String ch rest =>
      if is_digit ch then String ch (take_digits rest) else EmptyString
  end.

(** [re.search("(\d+)", i)] and [m.groups()[0]]: the first run of digits,
    as long as it goes; [None] when there is no digit. *)
Fixpoint first_digits (s : string) : option string :=
  match s with
  | EmptyString => None
  | String ch rest =>
      if is_digit ch then Some (String ch (take_digits rest))
      else first_digits rest
  end.

(** [int(digits)] on a run of digits. *)
Definition int_of_digits (digits : string) : Z :=
  match NilZero.int_of_string digits with
  | Some d => Z.of_int d
  | None => 0
  end.

(** The loop of [convertVersion]; [None] is the [AssertionError] of a part
    without a digit. *)
Fixpoint convert_parts (parts : list string) : option (list Z) :=
  match parts with
  | [] => Some []
  | i :: rest =>
      match first_digits i with
      | None => None
      | Some digits =>
          match convert_parts rest with
          | None => None
          | Some int_tuple => Some (int_of_digits digits :: int_tuple)
          end
      end
  end.

(** [convertVersion] of a string. *)
Definition convertVersion (vstring : string) : option (list Z) :=
  convert_parts (split_dot vstring).





End Versions.

(* ===================================================================== *)
(** * src/webilastik/ui/applet/export_worker.py *)

Module ExportWorker.

Inductive Failure :=
| FailedDatasource
| FailedDatasink
| FailedClassifier
| FailedSinkWriter
| FailedStep
| UnknownExportType.

(** How [main] ends: [sys.exit(1)] after a message, or the end of the
    function. *)
Inductive Exit :=
| Exit1 (why : Failure)
| Completed.

Section Main.

(** The classes that [main] deserializes and runs are not among the
    sources: a deserializer returns an object or an exception ([None]). *)
Variable Dto : Type.
Variable DataSource : Type.
Variable DataSink : Type.
Variable Classifier : Type.
Variable SinkWriter : Type.
Variable ExportJob : Type.
Variable Step : Type.

Variable DataSource_from_dto : Dto -> option DataSource.
Variable DataSink_create_from_message : Dto -> option DataSink.
Variable VigraPixelClassifier_from_dto : Dto -> option Classifier.
Variable datasink_open : DataSink -> option SinkWriter.

(** [ExportJob(...)] for the two kinds of export, its [args] and its
    [target]; [target] returns an exception ([false]) or not. *)
Variable pixel_probabilities_job : Classifier -> SinkWriter -> DataSource -> ExportJob.
Variable simple_segmentation_job :
  Classifier -> Z -> SinkWriter -> DataSource -> ExportJob.
Variable job_args : ExportJob -> list Step.
Variable job_target : ExportJob -> Step -> bool.

(** The job specification: the values under the keys "datasource" and
    "datasink", and under "pixel_probabilities" and "simple_segmentation"
    when the keys are there. *)
Record JobSpec := mkJobSpec {
  datasource : Dto;
  datasink : Dto;
  pixel_probabilities : option Dto;
  simple_segmentation : option (Dto * Z)
}.

(** [for step_arg in export_job.args]: the steps that were run, in order,
    and whether the loop ran to its end. *)
Fixpoint run_steps (export_job : ExportJob) (steps : list Step)
  : list Step * bool :=
  match steps with
  | [] => ([], true)
  | step_arg :: rest =>
      if job_target export_job step_arg
      then let '(ran, finished) := run_steps export_job rest in
           (step_arg :: ran, finished)
      else ([step_arg], false)
  end.

Definition run_job (export_job : ExportJob) : list Step * Exit :=
  let '(ran, finished) := run_steps export_job (job_args export_job) in
  (ran, if finished then Completed else Exit1 FailedStep).

(** [main], after the job specification was loaded: the steps that were
    run, and how the process ends. *)
Definition main (job_spec : JobSpec) : list Step * Exit :=
  match DataSource_from_dto (datasource job_spec) with
  | None => ([], Exit1 FailedDatasource)
  | Some source =>
      match DataSink_create_from_message (datasink job_spec) with
      | None => ([], Exit1 FailedDatasink)
      | Some sink =>
          match pixel_probabilities job_spec, simple_segmentation job_spec with
          | Some classifier_dto, _ =>
              match VigraPixelClassifier_from_dto classifier_dto with
              | None => ([], Exit1 FailedClassifier)
              | Some classifier =>
                  match datasink_open sink with
                  | None => ([], Exit1 FailedSinkWriter)
                  | Some sink_writer =>
                      run_job (pixel_probabilities_job classifier sink_writer source)
                  end
              end
          | None, Some (classifier_dto, label_index) =>
              match VigraPixelClassifier_from_dto classifier_dto with
              | None => ([], Exit1 FailedClassifier)
              | Some classifier =>
                  match datasink_open sink with
                  | None => ([], Exit1 FailedSinkWriter)
                  | Some sink_writer =>
                      run_job (simple_segmentation_job classifier label_index
                                                       sink_writer source)
                  end
              end
          | None, None => ([], Exit1 UnknownExportType)
          end
      end
  end.

End Main.

End ExportWorker.

(* ===================================================================== *)
(** * Facts about points and intervals                                     *)
(* ===================================================================== *)

Module NdFacts.
Import Nd.

Lemma pge_true (p q : Point5D) :
  pge p q = true <-> forall k, get q k <= get p k.
Proof.
  unfold pge, forall_axes, LABELS. simpl.
  rewrite !andb_true_iff, !Z.leb_le. split.
  - intros (Ht & Hx & Hy & Hz & Hc & _) k. destruct k; assumption.
  - intros H. repeat split; [apply (H AxT)|apply (H AxX)|apply (H AxY)
                            |apply (H AxZ)|apply (H AxC)].
Qed.

Lemma pge_false (p q : Point5D) :
  pge p q = false <-> exists k, get p k < get q k.
Proof.
  split.
  - intros H. unfold pge, forall_axes, LABELS in H. simpl in H.
    destruct (Z.leb_spec (t q) (t p)); [|exists AxT; assumption].
    destruct (Z.leb_spec (x q) (x p)); [|exists AxX; assumption].
    destruct (Z.leb_spec (y q) (y p)); [|exists AxY; assumption].
    destruct (Z.leb_spec (z q) (z p)); [|exists AxZ; assumption].
    destruct (Z.leb_spec (c q) (c p)); [|exists AxC; assumption].
    discriminate H.
  - intros [k Hk]. destruct (pge p q) eqn:E; [|reflexivity].
    apply pge_true with (k := k) in E. lia.
Qed.

Lemma plt_true (p q : Point5D) :
  plt p q = true <-> forall k, get p k < get q k.
Proof.
  unfold plt, forall_axes, LABELS. simpl.
  rewrite !andb_true_iff, !Z.ltb_lt. split.
  - intros (Ht & Hx & Hy & Hz & Hc & _) k. destruct k; assumption.
  - intros H. repeat split; [apply (H AxT)|apply (H AxX)|apply (H AxY)
                            |apply (H AxZ)|apply (H AxC)].
Qed.

Lemma padd_zero_l (p : Point5D) : padd zero p = p.
Proof. destruct p; reflexivity. Qed.

Lemma inside_true (r : Interval5D) (p : Point5D) :
  inside r p = true <->
  forall k, get (start r) k <= get p k < get (stop r) k.
Proof.
  unfold inside, ple. rewrite andb_true_iff, pge_true, plt_true.
  split.
  - intros [H1 H2] k. split; [apply H1 | apply H2].
  - intros H. split; intros k; apply H.
Qed.

Lemma contains_true (r other : Interval5D) :
  contains r other = true <->
  forall k, get (start r) k <= get (start other) k /\
            get (stop other) k <= get (stop r) k.
Proof.
  unfold contains, ple. rewrite andb_true_iff, !pge_true.
  split.
  - intros [H1 H2] k. split; [apply H1 | apply H2].
  - intros H. split; intros k; apply H.
Qed.

End NdFacts.

(* ===================================================================== *)
(** * Applicability of an extractor to a data source                       *)
(* ===================================================================== *)

Module ApplicabilityFacts.
Import Nd Blocks NdFacts.

(** A data source whose shape is 5 by 5 (one slice, one channel, one time
    step) and a kernel requirement of 7 by 7. *)
Definition source_5x5 : DataSource :=
  mkDataSource (to_interval5d (mkPoint5D 5 5 1 1 1)) (mkPoint5D 5 5 1 1 1).
Definition kernel_7x7 : Shape5D := mkPoint5D 7 7 1 1 1.

(** A [ChannelwiseFilter] with that kernel shape, and a 2D smoothing filter
    of channelwise_fastfilters.py. *)
Definition extractor_7x7 : Features.FeatureExtractor Z :=
  Features.ChannelwiseFilter None 1 1 kernel_7x7
    (Features.kernel_slice (fun _ _ => 0)).
Definition smoothing_2d : FastFilters.ChannelwiseFastFilter :=
  FastFilters.SigmaWindowFilter FastFilters.GaussianSmoothing
    FastFilters.OpRetriever (3 # 10) 0 (Some AxZ) 0.

(** The source is smaller than the requirement on some axis. *)
Definition smaller_than (ds : DataSource) (requirement : Shape5D) : Prop :=
  exists k, get (ds_shape ds) k < get requirement k.

(** C4.  [is_applicable_to] is [False] exactly when the shape of the data
    source is smaller than the kernel requirement on some axis (for a
    [ChannelwiseFilter]: or when the channel count of the source is not
    [num_input_channels]; for a [ChannelwiseFastFilter] the requirement is
    twice its halo); [ensure_applicable] raises
    [FeatureDataMismatchException], and does nothing else, exactly when the
    extractor is not applicable; a 7 by 7 requirement is not applicable to a
    5 by 5 source. *)
Theorem is_applicable_to_exactly_when_large_enough :
  (forall (kernel : Shape5D) (ds : DataSource),
      Features.default_is_applicable_to kernel ds = false
      <-> smaller_than ds kernel)
  /\ (forall (kernel : Shape5D) (num_input_channels : Z) (ds : DataSource),
      Features.ChannelwiseFilter_is_applicable_to kernel num_input_channels ds = false
      <-> smaller_than ds kernel \/ c (ds_shape ds) <> num_input_channels)
  /\ (forall (f : FastFilters.ChannelwiseFastFilter) (ds : DataSource),
      FastFilters.is_applicable_to f ds = false
      <-> smaller_than ds (pscale (FastFilters.halo f) 2))
  /\ (forall (V : Type) (fx : Features.FeatureExtractor V) (ds : DataSource),
      (Features.is_applicable_to fx ds = false
       <-> Features.ensure_applicable fx ds = inl Features.FeatureDataMismatchException)
      /\ (Features.is_applicable_to fx ds = true
          <-> Features.ensure_applicable fx ds = inr tt))
  /\ Features.default_is_applicable_to kernel_7x7 source_5x5 = false
  /\ Features.ensure_applicable extractor_7x7 source_5x5
     = inl Features.FeatureDataMismatchException
  /\ FastFilters.is_applicable_to smoothing_2d source_5x5 = false.
Proof.
  split; [|split; [|split; [|split; [|split; [|split]]]]].
  - intros kernel ds. unfold Features.default_is_applicable_to.
    apply pge_false.
  - intros kernel n ds. unfold Features.ChannelwiseFilter_is_applicable_to.
    rewrite andb_false_iff, pge_false, Z.eqb_neq. reflexivity.
  - intros f ds. unfold FastFilters.is_applicable_to. apply pge_false.
  - intros V fx ds. unfold Features.ensure_applicable.
    destruct (Features.is_applicable_to fx ds); simpl; split; split;
      intros H; try reflexivity; discriminate H.
  - reflexivity.
  - reflexivity.
  - reflexivity.
Qed.

End ApplicabilityFacts.

(* ===================================================================== *)
(** * Annotations: construction and equality                               *)
(* ===================================================================== *)

Module AnnotationFacts.
Import Nd Blocks NdFacts Annotations.

(** The box of the array that [Annotation.__init__] builds. *)
Definition built_roi (arr_shape : Shape5D) (location : Point5D) : Interval5D :=
  translated (to_interval5d arr_shape) location.

(** C6.  [Annotation.__init__] returns an annotation only when the box of
    the annotation lies inside the box of the raw data, and then the
    annotation has that box and that data source; otherwise it raises
    [AnnotationOutOfBounds], with nothing computed besides the array itself.
    The same holds for [rebuild], which goes through [__init__]. *)
Theorem Annotation_init_checks_bounds :
  forall (arr_shape : Shape5D) (arr : Point5D -> Z) (location : Point5D)
         (col : Color) (raw : DataSource),
    match Annotation_init arr_shape arr location col raw with
    | inr an =>
        contains (ds_roi raw) (built_roi arr_shape location) = true
        /\ Annotation_roi an = built_roi arr_shape location
        /\ raw_data an = raw
        /\ contains (ds_roi (raw_data an)) (Annotation_roi an) = true
        /\ match rebuild an arr_shape arr None with
           | inr an' =>
               contains (ds_roi (raw_data an')) (Annotation_roi an') = true
           | inl _ => False
           end
    | inl e =>
        contains (ds_roi raw) (built_roi arr_shape location) = false
        /\ e = AnnotationOutOfBounds (built_roi arr_shape location) raw
    end.
Proof.
  intros arr_shape arr location col raw.
  unfold Annotation_init, built_roi. simpl.
  destruct (contains (ds_roi raw) (translated (to_interval5d arr_shape) location))
    eqn:E; simpl.
  - repeat split; try assumption.
    unfold rebuild, Annotation_init, Annotation_roi. cbn [interval _data color raw_data].
    cbn [start translated to_interval5d]. rewrite padd_zero_l.
    cbn [start translated to_interval5d] in E. rewrite E. simpl. exact E.
  - split; reflexivity.
Qed.

(** Equal masks and equal channels give equal hashes, whatever Python's
    [hash] is. *)
Lemma Annotation_hash_by_value :
  forall (hash_rgba : Z * Z * Z * Z -> Z) (hash_pair : list bool * Z -> Z)
         (a1 a2 : Annotation),
    tobytes (_data a1) = tobytes (_data a2) ->
    rgba (color a1) = rgba (color a2) ->
    Annotation_hash hash_rgba hash_pair a1 = Annotation_hash hash_rgba hash_pair a2.
Proof.
  intros hr hp a1 a2 Hb Hc. unfold Annotation_hash, Color_hash.
  rewrite Hb, Hc. reflexivity.
Qed.

(** C8.  [Annotation.__eq__] returns [False] whenever the other operand is
    an annotation, also when it is the annotation itself, while
    [Annotation.__hash__] is the hash of the mask bytes and of the hash of
    the color's channels. *)
Theorem Annotation_eq_is_never_true_between_annotations :
  forall (hash_rgba : Z * Z * Z * Z -> Z) (hash_pair : list bool * Z -> Z)
         (a1 a2 : Annotation),
    Annotation_eq a1 (PyAnnotation a2) = Some false
    /\ Annotation_eq a1 (PyAnnotation a1) = Some false
    /\ Annotation_hash hash_rgba hash_pair a1
       = hash_pair (tobytes (_data a1), hash_rgba (rgba (color a1))).
Proof.
  intros hr hp a1 a2. repeat split.
Qed.

End AnnotationFacts.

(* ===================================================================== *)
(** * request: the length of the returned content                          *)
(* ===================================================================== *)

Module RequestFacts.
Import Request.

Lemma slice_to_nonnegative {A : Type} (l : list A) (n : Z) :
  0 <= n -> slice_to l n = firstn (Z.to_nat n) l.
Proof.
  intros Hn. unfold slice_to.
  destruct (Z.leb_spec 0 n); [reflexivity | lia].
Qed.

Lemma slice_to_negative {A : Type} (l : list A) (n : Z) :
  n < 0 -> slice_to l n = firstn (List.length l - Z.to_nat (- n)) l.
Proof.
  intros Hn. unfold slice_to.
  destruct (Z.leb_spec 0 n); [lia | reflexivity].
Qed.

(** A server that ignores the Range header and answers with five bytes. *)
Definition five_bytes : list byte := [x01; x02; x03; x04; x05]%byte.
Definition ignoring_session (m : Method) (url : string)
    (data : option (list byte)) (hdrs : list (string * string))
  : option Response :=
  Some (mkResponse true 200 "" five_bytes []).

(** C10, as stated, fails for a negative [num_bytes]: with [num_bytes = -1]
    the call succeeds and returns four bytes, which is more than -1. *)
Lemma request_negative_num_bytes_is_longer :
  request ignoring_session get "http://host/file" None 0 (Some (-1)) None
  = Returned [x01; x02; x03; x04]%byte []
  /\ ~ (Z.of_nat (List.length [x01; x02; x03; x04]%byte) <= -1).
Proof.
  split; [reflexivity | simpl; lia].
Qed.

(** C10, amended.  When [request] succeeds with [num_bytes = n] and [n] is
    not negative, the content it returns is the first [n] bytes of the
    response (all of them when the response is shorter), so it is at most
    [n] bytes long, and the headers are those of the response. *)
Theorem request_truncates_to_num_bytes :
  forall (session_request : Method -> string -> option (list byte) ->
                            list (string * string) -> option Response)
         (method : Method) (url : string) (data : option (list byte))
         (offset n : Z) (hdrs : option (list (string * string)))
         (body : list byte) (response_headers : list (string * string)),
    0 <= n ->
    request session_request method url data offset (Some n) hdrs
      = Returned body response_headers ->
    Z.of_nat (List.length body) <= n
    /\ exists response,
        session_request method url data
          (with_header (match hdrs with Some h => h | None => [] end)
                       "Range" (range_header_value offset (Some n)))
          = Some response
        /\ ok response = true
        /\ body = firstn (Z.to_nat n) (content response)
        /\ response_headers = headers response.
Proof.
  intros session method url data offset n hdrs body rh Hn Hreq.
  unfold request in Hreq.
  destruct (session method url data _) as [response|] eqn:Hs; [|discriminate].
  destruct (ok response) eqn:Hok; simpl in Hreq; [|discriminate].
  inversion Hreq; subst. rewrite slice_to_nonnegative by assumption.
  split.
  - rewrite length_firstn. lia.
  - exists response. repeat split; assumption.
Qed.

(** The theorem at work: a request for two of the five bytes. *)
Lemma request_truncates_to_num_bytes_witness :
  Z.of_nat (List.length [x01; x02]%byte) <= 2
  /\ exists response,
      ignoring_session get "http://host/file" None
        (with_header [] "Range" (range_header_value 0 (Some 2)))
        = Some response
      /\ ok response = true
      /\ [x01; x02]%byte = firstn (Z.to_nat 2) (content response)
      /\ [] = headers response.
Proof.
  apply (request_truncates_to_num_bytes ignoring_session get "http://host/file"
           None 0 2 None [x01; x02]%byte []).
  - lia.
  - reflexivity.
Defined.

End RequestFacts.

(* ===================================================================== *)
(** * Color.create_color_map                                               *)
(* ===================================================================== *)

Module ColorFacts.
Import Annotations.

Lemma Color_eqb_true (c1 c2 : Color) :
  Color_eqb c1 c2 = true <-> rgba c1 = rgba c2.
Proof.
  unfold Color_eqb, rgba. rewrite !andb_true_iff, !Z.eqb_eq. split.
  - intros [[[-> ->] ->] ->]. reflexivity.
  - intros H. inversion H. auto.
Qed.

Lemma Color_eqb_false (c1 c2 : Color) :
  Color_eqb c1 c2 = false <-> rgba c1 <> rgba c2.
Proof.
  rewrite <- Color_eqb_true. destruct (Color_eqb c1 c2); split; intros H;
    try discriminate; try reflexivity; try (intros H'; discriminate).
  exfalso. apply H. reflexivity.
Qed.

Lemma q_rgba_of_rgba (c1 c2 : Color) : rgba c1 = rgba c2 -> q_rgba c1 = q_rgba c2.
Proof.
  unfold rgba, q_rgba. intros H. inversion H. reflexivity.
Qed.

(** ** set(colors) *)

Definition NoDupKeys (l : list Color) : Prop := NoDup (map rgba l).

Lemma in_keys_filter (f : Color -> bool) (l : list Color) (k : Z * Z * Z * Z) :
  In k (map rgba (filter f l)) -> In k (map rgba l).
Proof.
  rewrite !in_map_iff. intros (col & Hk & Hin).
  apply filter_In in Hin. exists col. tauto.
Qed.

Lemma NoDupKeys_filter (f : Color -> bool) (l : list Color) :
  NoDupKeys l -> NoDupKeys (filter f l).
Proof.
  unfold NoDupKeys. induction l as [|h rest IH]; simpl; intros H.
  - constructor.
  - inversion H as [|? ? Hnotin Hrest]; subst.
    destruct (f h); simpl.
    + constructor; [|apply IH; assumption].
      intros Hin. apply Hnotin. eapply in_keys_filter. exact Hin.
    + apply IH; assumption.
Qed.

Lemma py_set_NoDupKeys (l : list Color) : NoDupKeys (py_set l).
Proof.
  induction l as [|h rest IH]; simpl.
  - constructor.
  - constructor.
    + intros Hin. apply in_map_iff in Hin. destruct Hin as (col & Hk & Hin).
      apply filter_In in Hin. destruct Hin as [_ Hneq].
      apply negb_true_iff, Color_eqb_false in Hneq. congruence.
    + apply NoDupKeys_filter. exact IH.
Qed.

Lemma py_set_covers (l : list Color) (col : Color) :
  In col l -> In (rgba col) (map rgba (py_set l)).
Proof.
  induction l as [|h rest IH]; simpl; [tauto|].
  intros [-> | Hin]; [left; reflexivity|].
  destruct (Color_eqb h col) eqn:E.
  - left. apply Color_eqb_true. exact E.
  - right. specialize (IH Hin). rewrite in_map_iff in IH |- *.
    destruct IH as (col' & Hk & Hin').
    exists col'. split; [exact Hk|]. apply filter_In. split; [exact Hin'|].
    apply negb_true_iff, Color_eqb_false. apply Color_eqb_false in E. congruence.
Qed.

(** ** sorted(..., key=...) *)

Section Sorting.
Context {A : Type} (key : A -> Z).

Definition ascending : list A -> Prop :=
  StronglySorted (fun u v => key u <= key v).

Lemma insert_by_perm (v : A) (l : list A) : Permutation (insert_by key v l) (v :: l).
Proof.
  induction l as [|h rest IH]; simpl; [reflexivity|].
  destruct (key v <=? key h); [reflexivity|].
  rewrite IH. apply perm_swap.
Qed.

Lemma sorted_by_perm (l : list A) : Permutation (sorted_by key l) l.
Proof.
  induction l as [|h rest IH]; simpl; [reflexivity|].
  rewrite insert_by_perm. constructor. exact IH.
Qed.

Lemma insert_by_ascending (v : A) (l : list A) :
  ascending l -> ascending (insert_by key v l).
Proof.
  unfold ascending. induction l as [|h rest IH]; simpl; intros Hs.
  - constructor; constructor.
  - inversion Hs as [|? ? Hrest Hall]; subst.
    destruct (Z.leb_spec (key v) (key h)).
    + constructor; [exact Hs|]. constructor; [assumption|].
      eapply Forall_impl; [|exact Hall]. simpl. intros; lia.
    + constructor; [apply IH; assumption|].
      eapply Permutation_Forall; [symmetry; apply insert_by_perm|].
      constructor; [lia | assumption].
Qed.

Lemma sorted_by_ascending (l : list A) : ascending (sorted_by key l).
Proof.
  induction l as [|h rest IH]; simpl.
  - constructor.
  - apply insert_by_ascending. exact IH.
Qed.

Lemma ascending_nth (l : list A) (i j : nat) (u v : A) :
  ascending l -> (i <= j)%nat ->
  nth_error l i = Some u -> nth_error l j = Some v -> key u <= key v.
Proof.
  unfold ascending. intros Hs. revert i j.
  induction Hs as [|h rest Hrest IH Hall]; intros i j Hij Hi Hj.
  - destruct i; discriminate.
  - destruct i, j; simpl in *; try lia.
    + inversion Hi; inversion Hj; subst. lia.
    + inversion Hi; subst. rewrite Forall_forall in Hall.
      apply Hall. eapply nth_error_In. exact Hj.
    + eapply IH; [|exact Hi|exact Hj]. lia.
Qed.

End Sorting.

Lemma Color_sort_NoDupKeys (l : list Color) : NoDupKeys l -> NoDupKeys (Color_sort l).
Proof.
  unfold NoDupKeys, Color_sort. intros H.
  eapply Permutation_NoDup; [|exact H].
  apply Permutation_map. symmetry. apply sorted_by_perm.
Qed.

(** ** The labels *)

Definition labelled (n : Z) (l : list Color) : list (Color * Z) :=
  map (fun ic => (snd ic, uint8 (fst ic + 1))) (enumerate_from n l).

Lemma create_color_map_labelled (colors : list Color) :
  create_color_map colors = labelled 0 (Color_sort (py_set colors)).
Proof. reflexivity. Qed.

Lemma color_map_get_by_rgba (m : list (Color * Z)) (c1 c2 : Color) :
  rgba c1 = rgba c2 -> color_map_get m c1 = color_map_get m c2.
Proof.
  intros H. induction m as [|[k v] rest IH]; simpl; [reflexivity|].
  rewrite IH. destruct (Color_eqb k c1) eqn:E1, (Color_eqb k c2) eqn:E2;
    try reflexivity.
  - apply Color_eqb_true in E1. apply Color_eqb_false in E2. congruence.
  - apply Color_eqb_false in E1. apply Color_eqb_true in E2. congruence.
Qed.

Lemma labelled_get (l : list Color) :
  forall (n : Z) (i : nat) (ci col : Color),
    NoDupKeys l -> nth_error l i = Some ci -> rgba ci = rgba col ->
    color_map_get (labelled n l) col = Some (uint8 (n + Z.of_nat i + 1)).
Proof.
  unfold NoDupKeys.
  induction l as [|h rest IH]; intros n i ci col Hnd Hi Hk.
  - destruct i; discriminate.
  - inversion Hnd as [|? ? Hnotin Hrest]; subst.
    destruct i; simpl in Hi.
    + inversion Hi; subst. unfold labelled. simpl.
      apply Color_eqb_true in Hk. rewrite Hk. do 2 f_equal. lia.
    + unfold labelled. simpl.
      destruct (Color_eqb h col) eqn:E.
      * exfalso. apply Hnotin. apply Color_eqb_true in E. rewrite E, <- Hk.
        apply in_map. eapply nth_error_In. exact Hi.
      * fold (labelled (n + 1) rest).
        rewrite (IH (n + 1) i ci col Hrest Hi Hk). do 2 f_equal. lia.
Qed.

Lemma labelled_values (l : list Color) :
  forall n : Z,
    map snd (labelled n l)
    = map (fun k => uint8 (n + Z.of_nat k + 1)) (seq 0 (List.length l)).
Proof.
  induction l as [|h rest IH]; intros n; [reflexivity|].
  unfold labelled. simpl. f_equal; [do 2 f_equal; lia|].
  fold (labelled (n + 1) rest). rewrite IH.
  rewrite <- seq_shift, map_map. apply map_ext. intros k. f_equal. lia.
Qed.

Lemma labelled_keys (l : list Color) :
  forall n : Z, map fst (labelled n l) = l.
Proof.
  induction l as [|h rest IH]; intros n; [reflexivity|].
  unfold labelled. simpl. f_equal. apply IH.
Qed.

(** Every input color is found in the map, at the position of its [rgba]
    in the sorted list of distinct colors. *)
Lemma create_color_map_position (colors : list Color) (col : Color) :
  In col colors ->
  exists (i : nat) (ci : Color),
    (i < List.length (py_set colors))%nat
    /\ nth_error (Color_sort (py_set colors)) i = Some ci
    /\ rgba ci = rgba col
    /\ color_map_get (create_color_map colors) col
       = Some (uint8 (Z.of_nat i + 1)).
Proof.
  intros Hin. apply py_set_covers in Hin.
  assert (Hperm : Permutation (Color_sort (py_set colors)) (py_set colors))
    by apply sorted_by_perm.
  assert (Hin' : In (rgba col) (map rgba (Color_sort (py_set colors)))).
  { eapply Permutation_in; [|exact Hin]. apply Permutation_map.
    symmetry. exact Hperm. }
  apply in_map_iff in Hin'. destruct Hin' as (ci & Hk & Hci).
  apply In_nth_error in Hci. destruct Hci as [i Hi].
  exists i, ci. repeat split; try assumption.
  - rewrite <- (Permutation_length Hperm).
    apply nth_error_Some. rewrite Hi. discriminate.
  - rewrite create_color_map_labelled.
    rewrite (labelled_get _ 0 i ci col); [reflexivity| |exact Hi|exact Hk].
    apply Color_sort_NoDupKeys, py_set_NoDupKeys.
Qed.

Lemma uint8_small (n : Z) : 0 <= n < 256 -> uint8 n = n.
Proof. intros H. unfold uint8. apply Z.mod_small. exact H. Qed.

(** 257 colors of different [rgba]: red runs from 0 to 255 with green 0, and
    one more color has green 1. *)
Definition many_colors : list Color :=
  map (fun k => mkColor (k mod 256) (k / 256) 0 255 "") (Nd.zrange 0 257).

Definition red (k : Z) : Color := mkColor k 0 0 255 "".

(** An annotation of one voxel, all of it marked. *)
Definition one_voxel (col : Color) : Annotation :=
  mkAnnotation (Blocks.mkArray5D (Nd.to_interval5d Nd.shape_ones) (fun _ => true))
               col
               (Blocks.mkDataSource (Nd.to_interval5d Nd.shape_ones) Nd.shape_ones).

(** C9 at an input with more than 255 distinct colors: [np.uint8(idx + 1)]
    wraps around, so a color is given label 0, two different colors are
    given label 1, and [Annotation.merge] leaves the voxel of the color
    labelled 0 at the background value. *)
Lemma create_color_map_wraps_around :
  List.length many_colors = 257%nat
  /\ color_map_get (create_color_map many_colors) (red 254) = Some 0
  /\ color_map_get (create_color_map many_colors) (red 255) = Some 1
  /\ color_map_get (create_color_map many_colors) (red 0) = Some 1
  /\ rgba (red 255) <> rgba (red 0)
  /\ forall enclosing_nothing : option Nd.Interval5D,
       option_map (fun out => Blocks.data out Nd.zero)
         (merge enclosing_nothing [one_voxel (red 254)]
                (Some (create_color_map many_colors)))
       = Some 0.
Proof.
  split; [vm_compute; reflexivity|].
  split; [vm_compute; reflexivity|].
  split; [vm_compute; reflexivity|].
  split; [vm_compute; reflexivity|].
  split; [intros H; discriminate H|].
  intros enclosing_nothing. vm_compute. reflexivity.
Qed.

(** The claim of C9 read as a statement about every list of colors: every
    color of the list has a label that is not 0, and two colors with the
    same label have the same [rgba]. *)
Definition labels_distinct_and_nonzero (colors : list Color) : Prop :=
  forall c1 l1, In c1 colors ->
    color_map_get (create_color_map colors) c1 = Some l1 ->
    l1 <> 0
    /\ forall c2, In c2 colors ->
         color_map_get (create_color_map colors) c2 = Some l1 ->
         rgba c1 = rgba c2.

Lemma create_color_map_not_always_distinct_nonzero :
  ~ labels_distinct_and_nonzero many_colors.
Proof.
  intros H.
  assert (Hin : In (red 254) many_colors).
  { unfold many_colors. apply in_map_iff. exists 254. split; [reflexivity|].
    unfold Nd.zrange. apply in_map_iff. exists 254%nat. split; [reflexivity|].
    apply in_seq. simpl. lia. }
  destruct (H (red 254) 0 Hin) as [Hnz _].
  - vm_compute. reflexivity.
  - apply Hnz. reflexivity.
Qed.

(** C9 for at most 255 distinct colors.  The labels of the map are 1, 2,
    ..., n in the order of the map, which is ascending in [q_rgba]; every
    input color has a label between 1 and 255; two input colors have the
    same label exactly when they have the same [rgba]; and a color with a
    smaller [q_rgba] has a smaller label. *)
Theorem create_color_map_labels_from_one :
  forall colors : list Color,
    (List.length (py_set colors) <= 255)%nat ->
    map snd (create_color_map colors)
      = map Z.of_nat (seq 1 (List.length (py_set colors)))
    /\ ascending q_rgba (map fst (create_color_map colors))
    /\ forall c1, In c1 colors ->
         exists l1,
           color_map_get (create_color_map colors) c1 = Some l1
           /\ 1 <= l1 <= 255
           /\ forall c2 l2, In c2 colors ->
                color_map_get (create_color_map colors) c2 = Some l2 ->
                (l1 = l2 <-> rgba c1 = rgba c2)
                /\ (q_rgba c1 < q_rgba c2 -> l1 < l2).
Proof.
  intros colors Hn.
  assert (Hlen : List.length (Color_sort (py_set colors))
                 = List.length (py_set colors))
    by (apply Permutation_length, sorted_by_perm).
  split; [|split].
  - rewrite create_color_map_labelled, labelled_values, Hlen.
    rewrite <- seq_shift, map_map. apply map_ext_in. intros k Hk.
    apply in_seq in Hk. rewrite uint8_small by lia. lia.
  - rewrite create_color_map_labelled, labelled_keys.
    apply sorted_by_ascending.
  - intros c1 Hin1.
    destruct (create_color_map_position colors c1 Hin1)
      as (i & ci & Hi & Hnth1 & Hk1 & Hget1).
    exists (uint8 (Z.of_nat i + 1)). rewrite uint8_small by lia.
    rewrite uint8_small in Hget1 by lia.
    split; [exact Hget1|]. split; [lia|].
    intros c2 l2 Hin2 Hget2.
    destruct (create_color_map_position colors c2 Hin2)
      as (j & cj & Hj & Hnth2 & Hk2 & Hget2').
    rewrite uint8_small in Hget2' by lia.
    rewrite Hget2 in Hget2'. inversion Hget2'; subst l2. clear Hget2'.
    split; [split|].
    + intros Heq. assert (i = j) by lia. subst j.
      rewrite Hnth1 in Hnth2. inversion Hnth2; subst cj. congruence.
    + intros Hk. rewrite (color_map_get_by_rgba _ c1 c2 Hk) in Hget1.
      rewrite Hget1 in Hget2. inversion Hget2. reflexivity.
    + intros Hq.
      destruct (Nat.lt_ge_cases i j) as [Hlt|Hge]; [lia|].
      exfalso.
      assert (Hle : q_rgba cj <= q_rgba ci).
      { eapply ascending_nth; [apply sorted_by_ascending|exact Hge| |].
        - exact Hnth2.
        - exact Hnth1. }
      rewrite (q_rgba_of_rgba _ _ Hk1), (q_rgba_of_rgba _ _ Hk2) in Hle. lia.
Qed.

(** The theorem at work on three colors, one of them given twice. *)
Lemma create_color_map_labels_from_one_witness :
  let colors := [red 9; red 2; mkColor 9 0 0 255 "again"; red 5] in
  map snd (create_color_map colors) = map Z.of_nat (seq 1 3)
  /\ ascending q_rgba (map fst (create_color_map colors))
  /\ forall c1, In c1 colors ->
       exists l1,
         color_map_get (create_color_map colors) c1 = Some l1
         /\ 1 <= l1 <= 255
         /\ forall c2 l2, In c2 colors ->
              color_map_get (create_color_map colors) c2 = Some l2 ->
              (l1 = l2 <-> rgba c1 = rgba c2)
              /\ (q_rgba c1 < q_rgba c2 -> l1 < l2).
Proof.
  apply (create_color_map_labels_from_one
           [red 9; red 2; mkColor 9 0 0 255 "again"; red 5]).
  simpl. lia.
Defined.

End ColorFacts.

(* ===================================================================== *)
(** * The process-pool orchestration                                       *)
(* ===================================================================== *)

Module OrchestrationFacts.
Import Nd Blocks Orchestration.

Lemma firstn_plus {A : Type} (n m : nat) (l : list A) :
  firstn (n + m) l = firstn n l ++ firstn m (skipn n l).
Proof.
  revert l. induction n as [|n IH]; intros l; [reflexivity|].
  destruct l as [|h rest]; simpl.
  - rewrite firstn_nil. reflexivity.
  - f_equal. apply IH.
Qed.

Lemma batch_slices_prefix {A : Type} (l : list A) (batch_size m : nat) :
  List.concat (map (fun k => firstn batch_size (skipn (k * batch_size) l)) (seq 0 m))
  = firstn (m * batch_size) l.
Proof.
  induction m as [|m IH]; [reflexivity|].
  rewrite seq_S, map_app, concat_app, IH. simpl.
  rewrite app_nil_r, (Nat.add_comm batch_size), firstn_plus. reflexivity.
Qed.

Lemma ceil_div_covers (n k : nat) : (0 < k)%nat -> (n <= ceil_div n k * k)%nat.
Proof.
  intros Hk. unfold ceil_div.
  pose proof (Nat.div_mod_eq (n + k - 1) k) as Hdm.
  pose proof (Nat.mod_upper_bound (n + k - 1) k) as Hub.
  nia.
Qed.

Lemma ceil_div_positive (n k : nat) : (0 < k)%nat -> (0 < n)%nat -> (0 < ceil_div n k)%nat.
Proof.
  intros Hk Hn. pose proof (ceil_div_covers n k Hk). nia.
Qed.

(** There are never more batches than workers. *)
Lemma ceil_div_ceil_div (n w : nat) :
  (0 < w)%nat -> (0 < n)%nat -> (ceil_div n (ceil_div n w) <= w)%nat.
Proof.
  intros Hw Hn.
  pose proof (ceil_div_covers n w Hw) as Hc.
  pose proof (ceil_div_positive n w Hw Hn) as Hp.
  unfold ceil_div at 1.
  assert (H : ((n + ceil_div n w - 1) / ceil_div n w < S w)%nat).
  { apply Nat.Div0.div_lt_upper_bound. nia. }
  lia.
Qed.

Lemma batch_slices_concat {A : Type} (l : list A) (batch_size : nat) :
  (0 < batch_size)%nat -> List.concat (batch_slices l batch_size) = l.
Proof.
  intros Hb. unfold batch_slices. rewrite batch_slices_prefix.
  apply firstn_all2. apply ceil_div_covers. exact Hb.
Qed.

Lemma batch_slices_sizes {A : Type} (l : list A) (batch_size : nat) :
  (0 < batch_size)%nat ->
  Forall (fun batch => (0 < List.length batch <= batch_size)%nat)
         (batch_slices l batch_size).
Proof.
  intros Hb. unfold batch_slices. apply Forall_forall. intros batch Hin.
  apply in_map_iff in Hin. destruct Hin as (k & <- & Hk).
  apply in_seq in Hk. rewrite length_firstn, length_skipn.
  assert (k * batch_size < List.length l)%nat; [|lia].
  unfold ceil_div in Hk.
  destruct Hk as [_ Hk]. simpl in Hk.
  assert (Hlt : (k * batch_size < List.length l + batch_size - 1 + 1)%nat).
  { pose proof (Nat.div_mod_eq (List.length l + batch_size - 1) batch_size) as Hdm.
    pose proof (Nat.mod_upper_bound (List.length l + batch_size - 1) batch_size).
    nia. }
  destruct (Nat.lt_ge_cases (k * batch_size) (List.length l)) as [|Hge]; [assumption|].
  exfalso.
  pose proof (Nat.div_mod_eq (List.length l + batch_size - 1) batch_size) as Hdm.
  pose proof (Nat.mod_upper_bound (List.length l + batch_size - 1) batch_size).
  nia.
Qed.

Section Merging.
Context {V : Type}.

Lemma merge_batches_concat (predictions : Predictions V)
    (result_batches : list (list (Predictions V))) :
  merge_batches predictions result_batches
  = fold_left set (List.concat result_batches) predictions.
Proof.
  unfold merge_batches. revert predictions.
  induction result_batches as [|batch rest IH]; intros predictions; simpl.
  - reflexivity.
  - rewrite fold_left_app. apply IH.
Qed.

Lemma fold_set_interval (results : list (Array5D V)) (predictions : Array5D V) :
  interval (fold_left set results predictions) = interval predictions.
Proof.
  revert predictions. induction results as [|h rest IH]; intros p; simpl.
  - reflexivity.
  - rewrite IH. reflexivity.
Qed.

End Merging.


(** ** The benchmark: contiguous batches *)

Section Benchmark.
Context {V PixelClassifier : Type}.
Variable predict : PixelClassifier -> DataRoi -> Array5D V.

Lemma do_worker_predict_batches (classifier : PixelClassifier)
    (batches : list (list DataRoi)) :
  List.concat (map (do_worker_predict predict) (map (pair classifier) batches))
  = map (predict classifier) (List.concat batches).
Proof.
  rewrite map_map. unfold do_worker_predict. simpl.
  rewrite concat_map. reflexivity.
Qed.

Lemma benchmark_process_pool (classifier : PixelClassifier) (num_workers : Z)
    (all_slices : list DataRoi) (predictions : Predictions V) :
  0 < num_workers -> all_slices <> [] ->
  let batch_size := ceil_div (List.length all_slices) (Z.to_nat num_workers) in
  let batches := map (pair classifier) (batch_slices all_slices batch_size) in
  make_batches classifier num_workers all_slices = inr batches
  /\ List.concat (map snd batches) = all_slices
  /\ Forall (fun b => fst b = classifier
                      /\ (0 < List.length (snd b) <= batch_size)%nat) batches
  /\ (List.length batches <= Z.to_nat num_workers)%nat
  /\ List.length batches = ceil_div (List.length all_slices) batch_size
  /\ process_pool predict classifier num_workers all_slices predictions
     = inr (fold_left set (map (predict classifier) all_slices) predictions).
Proof.
  intros Hw Hne batch_size batches.
  assert (Hn : (0 < List.length all_slices)%nat).
  { destruct all_slices; [congruence | simpl; lia]. }
  assert (Hb : (0 < batch_size)%nat).
  { apply ceil_div_positive; [lia | exact Hn]. }
  assert (Hmk : make_batches classifier num_workers all_slices = inr batches).
  { unfold make_batches. destruct (Z.leb_spec num_workers 0); [lia|].
    fold batch_size. destruct (Nat.eqb_spec batch_size 0); [lia|]. reflexivity. }
  split; [exact Hmk|]. split; [|split; [|split; [|split]]].
  - unfold batches. rewrite map_map. simpl. rewrite map_id.
    apply batch_slices_concat. exact Hb.
  - unfold batches. apply Forall_map. simpl.
    eapply Forall_impl; [|apply batch_slices_sizes; exact Hb].
    simpl. intros batch H. split; [reflexivity | exact H].
  - unfold batches, batch_slices. rewrite !length_map, length_seq.
    apply ceil_div_ceil_div; [lia | exact Hn].
  - unfold batches, batch_slices. rewrite !length_map, length_seq. reflexivity.
  - unfold process_pool. rewrite Hmk. f_equal.
    rewrite merge_batches_concat. unfold batches.
    rewrite do_worker_predict_batches, batch_slices_concat by exact Hb.
    reflexivity.
Qed.

End Benchmark.

(** ** The server: batches by hash *)

Section Server.
Variable hash : DataRoi -> Z.
Variable num_workers : Z.

(** A batch holds tiles of one index, and the index is that of a worker. *)
Definition well_grouped (slc_batches : list (Z * list DataRoi)) : Prop :=
  Forall (fun item => 0 <= fst item < num_workers
                      /\ snd item <> []
                      /\ Forall (fun slc => hash slc mod num_workers = fst item)
                                (snd item))
         slc_batches.

Lemma append_to_keys (batch_idx : Z) (slc : DataRoi) (d : list (Z * list DataRoi)) (k : Z) :
  In k (map fst (append_to batch_idx slc d)) <-> k = batch_idx \/ In k (map fst d).
Proof.
  induction d as [|[idx batch] rest IH]; simpl.
  - intuition.
  - destruct (Z.eqb_spec idx batch_idx); simpl.
    + subst. intuition.
    + rewrite IH. intuition.
Qed.

Lemma append_to_NoDup (batch_idx : Z) (slc : DataRoi) (d : list (Z * list DataRoi)) :
  NoDup (map fst d) -> NoDup (map fst (append_to batch_idx slc d)).
Proof.
  induction d as [|[idx batch] rest IH]; simpl; intros H.
  - constructor; [intros [] | constructor].
  - inversion H as [|? ? Hnotin Hrest]; subst.
    destruct (Z.eqb_spec idx batch_idx); simpl.
    + constructor; assumption.
    + constructor; [|apply IH; assumption].
      rewrite append_to_keys. intros [Heq|Hin]; [congruence | contradiction].
Qed.

Lemma append_to_well_grouped (slc : DataRoi) (d : list (Z * list DataRoi)) :
  0 < num_workers -> well_grouped d ->
  well_grouped (append_to (hash slc mod num_workers) slc d).
Proof.
  intros Hw. unfold well_grouped.
  induction d as [|[idx batch] rest IH]; simpl; intros H.
  - constructor; [|constructor]. simpl. split; [|split].
    + apply Z.mod_pos_bound. exact Hw.
    + discriminate.
    + constructor; [reflexivity | constructor].
  - inversion H as [|? ? (Hidx & Hne & Hall) Hrest]; subst. simpl in *.
    destruct (Z.eqb_spec idx (hash slc mod num_workers)).
    + constructor; [|assumption]. simpl. split; [exact Hidx|]. split.
      * destruct batch; discriminate.
      * apply Forall_app. split; [exact Hall|].
        constructor; [congruence | constructor].
    + constructor; [|apply IH; assumption]. simpl. tauto.
Qed.

Lemma append_to_perm (batch_idx : Z) (slc : DataRoi) (d : list (Z * list DataRoi)) :
  Permutation (List.concat (map snd (append_to batch_idx slc d)))
              (List.concat (map snd d) ++ [slc]).
Proof.
  induction d as [|[idx batch] rest IH]; simpl.
  - reflexivity.
  - destruct (Z.eqb_spec idx batch_idx); simpl.
    + rewrite <- !app_assoc. apply Permutation_app_head.
      apply Permutation_app_comm.
    + rewrite IH, app_assoc. reflexivity.
Qed.

Lemma group_slices_from (tiles : list DataRoi) :
  0 < num_workers ->
  forall d : list (Z * list DataRoi),
    NoDup (map fst d) -> well_grouped d ->
    let grouped :=
      fold_left (fun slc_batches slc =>
                   append_to (hash slc mod num_workers) slc slc_batches) tiles d in
    NoDup (map fst grouped) /\ well_grouped grouped
    /\ Permutation (List.concat (map snd grouped)) (List.concat (map snd d) ++ tiles).
Proof.
  intros Hw. induction tiles as [|slc rest IH]; intros d Hnd Hwg; simpl.
  - rewrite app_nil_r. auto.
  - destruct (IH (append_to (hash slc mod num_workers) slc d)) as (H1 & H2 & H3).
    + apply append_to_NoDup. exact Hnd.
    + apply append_to_well_grouped; assumption.
    + split; [exact H1|]. split; [exact H2|].
      rewrite H3, append_to_perm, <- app_assoc. reflexivity.
Qed.

Lemma group_slices_spec (tiles : list DataRoi) :
  0 < num_workers ->
  NoDup (map fst (group_slices hash num_workers tiles))
  /\ well_grouped (group_slices hash num_workers tiles)
  /\ Permutation (List.concat (map snd (group_slices hash num_workers tiles))) tiles.
Proof.
  intros Hw. unfold group_slices.
  destruct (group_slices_from tiles Hw []) as (H1 & H2 & H3);
    [constructor | constructor |].
  auto.
Qed.

Lemma well_grouped_at_most_workers (d : list (Z * list DataRoi)) :
  NoDup (map fst d) -> well_grouped d ->
  (List.length d <= Z.to_nat num_workers)%nat.
Proof.
  intros Hnd Hwg.
  rewrite <- (length_map fst d), <- (length_seq (Z.to_nat num_workers) 0),
          <- (length_map Z.of_nat (seq 0 (Z.to_nat num_workers))).
  apply NoDup_incl_length; [exact Hnd|].
  intros k Hk. apply in_map_iff in Hk. destruct Hk as ([idx batch] & <- & Hin).
  unfold well_grouped in Hwg. rewrite Forall_forall in Hwg.
  destruct (Hwg _ Hin) as [Hidx _]. simpl in *.
  apply in_map_iff. exists (Z.to_nat idx). split; [lia|].
  apply in_seq. lia.
Qed.

End Server.


Section ServerRun.
Context {V PixelClassifier : Type}.
Variable v0 : V.
Variable predict : PixelClassifier -> DataRoi -> Array5D V.
Variable hash : DataRoi -> Z.
Variable get_tiles : DataRoi -> list DataRoi.
Variable num_classes : PixelClassifier -> Z.

Lemma server_do_predictions (num_workers : Z) (request_roi : Slice5D)
    (classifier : PixelClassifier) (ds : DataSource) :
  0 < num_workers ->
  let backed_roi := mkDataRoi ds (defined_with request_roi (ds_shape ds)) in
  let slc_batches := group_slices hash num_workers (get_tiles backed_roi) in
  do_predictions v0 predict hash get_tiles num_classes num_workers request_roi
                 classifier ds
  = inr (fold_left set
           (List.concat (map (fun item => map (predict classifier) (snd item))
                             slc_batches))
           (allocate_predictions v0 num_classes classifier backed_roi))
  /\ Permutation (List.concat (map snd slc_batches)) (get_tiles backed_roi)
  /\ NoDup (map fst slc_batches)
  /\ well_grouped hash num_workers slc_batches
  /\ (List.length slc_batches <= Z.to_nat num_workers)%nat.
Proof.
  intros Hw backed_roi slc_batches.
  destruct (group_slices_spec hash num_workers (get_tiles backed_roi) Hw)
    as (Hnd & Hwg & Hperm).
  fold slc_batches in Hnd, Hwg, Hperm.
  split; [|split; [exact Hperm|split; [exact Hnd|split; [exact Hwg|]]]].
  - unfold do_predictions. fold backed_roi.
    destruct (get_tiles backed_roi) as [|tile tiles] eqn:Htiles.
    + reflexivity.
    + destruct (Z.eqb_spec num_workers 0); [lia|].
      fold slc_batches.
      replace (forallb (fun item => executor_exists num_workers (fst item))
                       slc_batches) with true.
      * rewrite merge_batches_concat. reflexivity.
      * symmetry. apply forallb_forall. intros item Hin.
        unfold well_grouped in Hwg. rewrite Forall_forall in Hwg.
        destruct (Hwg item Hin) as [Hidx _].
        unfold executor_exists. apply andb_true_iff.
        rewrite Z.leb_le, Z.ltb_lt. lia.
  - apply well_grouped_at_most_workers with (hash := hash); assumption.
Qed.

End ServerRun.

(** ** Concrete runs *)

(** Tiles that are one voxel wide, side by side along x, of one data
    source; the classifier predicts a block of zeros on the tile. *)
Definition strip : DataSource :=
  mkDataSource (to_interval5d (mkPoint5D 8 1 1 1 1)) shape_ones.
Definition tile_at (k : Z) : DataRoi :=
  mkDataRoi strip (translated (to_interval5d shape_ones) (mkPoint5D k 0 0 0 0)).
Definition predict_zeros (classifier : unit) (tile : DataRoi) : Array5D Z :=
  allocate (roi tile) 0.
Definition hash_by_x (tile : DataRoi) : Z := x (start (roi tile)).

(** C5, as stated, fails.  In the benchmark, five tiles and four workers
    give three batches, not four.  In the server, the batches are the tiles
    of equal [hash(slc) % num_workers], which are not contiguous: four tiles
    in a row with two workers are batched as first-and-third and
    second-and-fourth. *)
Lemma process_pool_batches_are_not_worker_count_contiguous :
  (exists batches,
      make_batches tt 4 (map tile_at [0; 1; 2; 3; 4]) = inr batches
      /\ List.length batches = 3%nat
      /\ List.length batches <> 4%nat)
  /\ map snd (group_slices hash_by_x 2 (map tile_at [0; 1; 2; 3]))
     = [[tile_at 0; tile_at 2]; [tile_at 1; tile_at 3]]
  /\ List.concat (map snd (group_slices hash_by_x 2 (map tile_at [0; 1; 2; 3])))
     <> map tile_at [0; 1; 2; 3].
Proof.
  split; [|split].
  - eexists. split; [reflexivity|]. split; [reflexivity | discriminate].
  - reflexivity.
  - intros H. vm_compute in H. discriminate H.
Qed.

(** C5, amended.  With a positive worker count and a tile list that is not
    empty, the benchmark cuts the tile list into contiguous batches of
    [ceil(n / num_workers)] tiles: the batches put end to end are the tile
    list, none is empty, there are [ceil(n / batch_size)] of them, which is
    at most [num_workers], each is shipped with the classifier, and the
    predictions are merged in the order of the tile list.  The server
    batches the tiles by [hash(slc) % num_workers]: the batches hold every
    tile once, a batch holds the tiles of one worker index, there are at
    most [num_workers] batches, and the results are merged batch after
    batch, each batch in the order the worker computed it. *)
Theorem process_pool_batches_and_merge_order :
  forall (V PixelClassifier : Type) (v0 : V)
         (predict : PixelClassifier -> DataRoi -> Array5D V)
         (hash : DataRoi -> Z) (get_tiles : DataRoi -> list DataRoi)
         (num_classes : PixelClassifier -> Z)
         (classifier : PixelClassifier) (num_workers : Z)
         (all_slices : list DataRoi) (predictions : Predictions V)
         (request_roi : Slice5D) (ds : DataSource),
    0 < num_workers -> all_slices <> [] ->
    (let batch_size := ceil_div (List.length all_slices) (Z.to_nat num_workers) in
     let batches := map (pair classifier) (batch_slices all_slices batch_size) in
     make_batches classifier num_workers all_slices = inr batches
     /\ List.concat (map snd batches) = all_slices
     /\ Forall (fun b => fst b = classifier
                         /\ (0 < List.length (snd b) <= batch_size)%nat) batches
     /\ (List.length batches <= Z.to_nat num_workers)%nat
     /\ List.length batches = ceil_div (List.length all_slices) batch_size
     /\ process_pool predict classifier num_workers all_slices predictions
        = inr (fold_left set (map (predict classifier) all_slices) predictions))
    /\ (let backed_roi := mkDataRoi ds (defined_with request_roi (ds_shape ds)) in
        let slc_batches := group_slices hash num_workers (get_tiles backed_roi) in
        do_predictions v0 predict hash get_tiles num_classes num_workers
                       request_roi classifier ds
        = inr (fold_left set
                 (List.concat (map (fun item => map (predict classifier) (snd item))
                                   slc_batches))
                 (allocate_predictions v0 num_classes classifier backed_roi))
        /\ Permutation (List.concat (map snd slc_batches)) (get_tiles backed_roi)
        /\ NoDup (map fst slc_batches)
        /\ well_grouped hash num_workers slc_batches
        /\ (List.length slc_batches <= Z.to_nat num_workers)%nat).
Proof.
  intros V PixelClassifier v0 predict hash get_tiles num_classes classifier
         num_workers all_slices predictions request_roi ds Hw Hne.
  split.
  - apply benchmark_process_pool; assumption.
  - apply server_do_predictions. exact Hw.
Qed.

(** The theorem at work: five tiles and four workers in the benchmark, and
    the same five tiles in the server. *)
Lemma process_pool_batches_and_merge_order_witness :
  let all_slices := map tile_at [0; 1; 2; 3; 4] in
  (let batch_size := ceil_div (List.length all_slices) (Z.to_nat 4) in
   let batches := map (pair tt) (batch_slices all_slices batch_size) in
   make_batches tt 4 all_slices = inr batches
   /\ List.concat (map snd batches) = all_slices
   /\ Forall (fun b => fst b = tt
                       /\ (0 < List.length (snd b) <= batch_size)%nat) batches
   /\ (List.length batches <= Z.to_nat 4)%nat
   /\ List.length batches = ceil_div (List.length all_slices) batch_size
   /\ process_pool predict_zeros tt 4 all_slices (allocate (ds_roi strip) 0)
      = inr (fold_left set (map (predict_zeros tt) all_slices)
                       (allocate (ds_roi strip) 0)))
  /\ (let backed_roi :=
        mkDataRoi strip (defined_with (mkSlice5D None None None None None)
                                      (ds_shape strip)) in
      let slc_batches := group_slices hash_by_x 4 all_slices in
      do_predictions 0 predict_zeros hash_by_x (fun _ => all_slices) (fun _ => 2) 4
                     (mkSlice5D None None None None None) tt strip
      = inr (fold_left set
               (List.concat (map (fun item => map (predict_zeros tt) (snd item))
                                 slc_batches))
               (allocate_predictions 0 (fun _ => 2) tt backed_roi))
      /\ Permutation (List.concat (map snd slc_batches)) all_slices
      /\ NoDup (map fst slc_batches)
      /\ well_grouped hash_by_x 4 slc_batches
      /\ (List.length slc_batches <= Z.to_nat 4)%nat).
Proof.
  apply (process_pool_batches_and_merge_order Z unit 0 predict_zeros hash_by_x
           (fun _ => map tile_at [0; 1; 2; 3; 4]) (fun _ => 2) tt 4
           (map tile_at [0; 1; 2; 3; 4]) (allocate (ds_roi strip) 0)
           (mkSlice5D None None None None None) strip).
  - lia.
  - discriminate.
Defined.

End OrchestrationFacts.

(* ===================================================================== *)
(** * The raw chunks of ng_predict                                         *)
(* ===================================================================== *)

Module WireFacts.
Import Nd Blocks Wire.

Lemma zrange_length (lo hi : Z) : List.length (zrange lo hi) = Z.to_nat (hi - lo).
Proof. unfold zrange. rewrite length_map, length_seq. reflexivity. Qed.

Lemma zrange_nth (lo hi : Z) (k : nat) :
  (k < Z.to_nat (hi - lo))%nat ->
  nth_error (zrange lo hi) k = Some (lo + Z.of_nat k).
Proof.
  intros Hk. unfold zrange.
  rewrite nth_error_map, nth_error_seq.
  destruct (Nat.ltb_spec k (Z.to_nat (hi - lo))); [reflexivity | lia].
Qed.

(** A [flat_map] whose pieces all have [n] elements is indexed row by row. *)
Lemma flat_map_length_const {A B : Type} (f : A -> list B) (n : nat) (l : list A) :
  (forall u, In u l -> List.length (f u) = n) ->
  List.length (flat_map f l) = (List.length l * n)%nat.
Proof.
  induction l as [|h rest IH]; intros H; simpl; [reflexivity|].
  rewrite length_app, IH, (H h); [reflexivity | left; reflexivity |].
  intros u Hu. apply H. right. exact Hu.
Qed.

Lemma flat_map_nth_const {A B : Type} (f : A -> list B) (n : nat) (l : list A) :
  (forall u, In u l -> List.length (f u) = n) ->
  forall (i j : nat) (u : A),
    nth_error l i = Some u -> (j < n)%nat ->
    nth_error (flat_map f l) (j + n * i) = nth_error (f u) j.
Proof.
  induction l as [|h rest IH]; intros H i j u Hi Hj.
  - destruct i; discriminate.
  - simpl. destruct i; simpl in Hi.
    + inversion Hi; subst. rewrite Nat.mul_0_r, Nat.add_0_r.
      apply nth_error_app1. rewrite (H u); [exact Hj | left; reflexivity].
    + rewrite nth_error_app2; rewrite (H h) by (left; reflexivity); [|lia].
      replace (j + n * S i - n)%nat with (j + n * i)%nat by lia.
      apply IH; [|exact Hi|exact Hj].
      intros v Hv. apply H. right. exact Hv.
Qed.

Section Layout.
Variable blk : Array5D byte.

Let x0 := x (start (interval blk)).
Let y0 := y (start (interval blk)).
Let z0 := z (start (interval blk)).
Let c0 := c (start (interval blk)).
Let nx := Z.to_nat (x (shape (interval blk))).
Let ny := Z.to_nat (y (shape (interval blk))).
Let nz := Z.to_nat (z (shape (interval blk))).
Let nc := Z.to_nat (c (shape (interval blk))).

(** One byte per voxel and channel, x fastest, then y, z and the channel. *)
Lemma raw_xyzc_tobytes_F_layout :
  t (shape (interval blk)) = 1 ->
  exists bytes,
    raw_xyzc_tobytes_F blk = Some bytes
    /\ List.length bytes = (nx * ny * nz * nc)%nat
    /\ forall i j k l : nat,
        (i < nx)%nat -> (j < ny)%nat -> (k < nz)%nat -> (l < nc)%nat ->
        nth_error bytes (i + nx * (j + ny * (k + nz * l)))
        = Some (data blk (mkPoint5D (x0 + Z.of_nat i) (y0 + Z.of_nat j)
                                    (z0 + Z.of_nat k)
                                    (t (start (interval blk)))
                                    (c0 + Z.of_nat l))).
Proof.
  intros Ht. unfold raw_xyzc_tobytes_F. rewrite Ht. simpl.
  eexists. split; [reflexivity|].
  set (row := fun vc vz vy =>
         map (fun vx => data blk (mkPoint5D vx vy vz (t (start (interval blk))) vc))
             (zrange (x (start (interval blk))) (x (stop (interval blk))))).
  set (plane := fun vc vz =>
         flat_map (row vc vz)
                  (zrange (y (start (interval blk))) (y (stop (interval blk))))).
  set (volume := fun vc =>
         flat_map (plane vc)
                  (zrange (z (start (interval blk))) (z (stop (interval blk))))).
  assert (Hrow : forall vc vz vy, List.length (row vc vz vy) = nx).
  { intros. unfold row. rewrite length_map, zrange_length. reflexivity. }
  assert (Hplane : forall vc vz, List.length (plane vc vz) = (ny * nx)%nat).
  { intros. unfold plane. rewrite (flat_map_length_const _ nx) by (intros; apply Hrow).
    rewrite zrange_length. reflexivity. }
  assert (Hvolume : forall vc, List.length (volume vc) = (nz * (ny * nx))%nat).
  { intros. unfold volume.
    rewrite (flat_map_length_const _ (ny * nx)%nat) by (intros; apply Hplane).
    rewrite zrange_length. reflexivity. }
  split.
  - change (List.length (flat_map volume
              (zrange (c (start (interval blk))) (c (stop (interval blk)))))
            = (nx * ny * nz * nc)%nat).
    rewrite (flat_map_length_const _ (nz * (ny * nx))%nat) by (intros; apply Hvolume).
    rewrite zrange_length.
    change (Z.to_nat (c (stop (interval blk)) - c (start (interval blk)))) with nc.
    lia.
  - intros i j k l Hi Hj Hk Hl.
    assert (Hij : (i + nx * j < ny * nx)%nat) by nia.
    assert (Hjk : (j + ny * k < nz * ny)%nat) by nia.
    assert (Hijk : (i + nx * (j + ny * k) < nz * (ny * nx))%nat) by nia.
    change (nth_error (flat_map volume
              (zrange (c (start (interval blk))) (c (stop (interval blk)))))
              (i + nx * (j + ny * (k + nz * l))) = Some (data blk
                (mkPoint5D (x0 + Z.of_nat i) (y0 + Z.of_nat j) (z0 + Z.of_nat k)
                           (t (start (interval blk))) (c0 + Z.of_nat l)))).
    replace (i + nx * (j + ny * (k + nz * l)))%nat
      with ((i + nx * (j + ny * k)) + (nz * (ny * nx)) * l)%nat by lia.
    rewrite (flat_map_nth_const volume (nz * (ny * nx))%nat _
               (fun u _ => Hvolume u) l _ (c0 + Z.of_nat l));
      [|apply zrange_nth; exact Hl|exact Hijk].
    unfold volume.
    replace (i + nx * (j + ny * k))%nat with ((i + nx * j) + (ny * nx) * k)%nat by lia.
    rewrite (flat_map_nth_const (plane (c0 + Z.of_nat l)) (ny * nx)%nat _
               (fun u _ => Hplane _ u) k _ (z0 + Z.of_nat k));
      [|apply zrange_nth; exact Hk|exact Hij].
    unfold plane.
    rewrite (flat_map_nth_const (row (c0 + Z.of_nat l) (z0 + Z.of_nat k)) nx _
               (fun u _ => Hrow _ _ u) j _ (y0 + Z.of_nat j));
      [|apply zrange_nth; exact Hj|exact Hi].
    unfold row. rewrite nth_error_map, zrange_nth by exact Hi. reflexivity.
Qed.

End Layout.


(** A data source of 4 by 3 by 2 voxels with one channel and one time step,
    served as one tile; the prediction of a voxel is its x coordinate plus
    ten times its channel. *)
Definition volume_4x3x2 : DataSource :=
  mkDataSource (to_interval5d (mkPoint5D 4 3 2 1 1)) (mkPoint5D 4 3 2 1 1).
Definition predict_x_and_channel (classifier : unit) (tile : DataRoi) : Array5D Z :=
  mkArray5D (mkInterval5D (updated (start (roi tile)) AxC 0)
                          (updated (stop (roi tile)) AxC 2))
            (fun p => x p + 10 * c p).
Definition low_byte (v : Z) : byte :=
  match Byte.of_N (Z.to_N (v mod 256)) with
  | Some b => b
  | None => x00
  end.

(** C7.  For a data source with one time step, a request to [ng_predict]
    for the box from (xBegin, yBegin, zBegin) to (xEnd, yEnd, zEnd) is
    answered with a body of exactly X * Y * Z * C bytes, X, Y and Z being
    the extents of the box and C the number of classes of the classifier:
    the byte at position i + X * (j + Y * (k + Z * l)) is the 8-bit value of
    the prediction at voxel (xBegin + i, yBegin + j, zBegin + k) in channel
    l, so x varies fastest, then y, then z, then the channel, and nothing
    comes before or between the values. *)
Theorem ng_predict_body_is_xyzc_fortran_order :
  forall (V : Type) (as_uint8 : V -> byte) (v0 : V) (PixelClassifier : Type)
         (predict : PixelClassifier -> DataRoi -> Array5D V)
         (hash : DataRoi -> Z) (get_tiles : DataRoi -> list DataRoi)
         (num_classes : PixelClassifier -> Z) (num_workers : Z)
         (classifier : PixelClassifier) (ds : DataSource)
         (xBegin xEnd yBegin yEnd zBegin zEnd : Z),
    0 < num_workers ->
    t (ds_shape ds) = 1 ->
    xBegin <= xEnd -> yBegin <= yEnd -> zBegin <= zEnd ->
    0 <= num_classes classifier ->
    exists (predictions : Array5D V) (body : list byte),
      Orchestration.do_predictions v0 predict hash get_tiles num_classes
        num_workers (requested_roi xBegin xEnd yBegin yEnd zBegin zEnd)
        classifier ds = inr predictions
      /\ ng_predict as_uint8 v0 predict hash get_tiles num_classes num_workers
           classifier ds xBegin xEnd yBegin yEnd zBegin zEnd = Some body
      /\ Z.of_nat (List.length body)
         = (xEnd - xBegin) * (yEnd - yBegin) * (zEnd - zBegin)
           * num_classes classifier
      /\ forall i j k l : nat,
          Z.of_nat i < xEnd - xBegin -> Z.of_nat j < yEnd - yBegin ->
          Z.of_nat k < zEnd - zBegin -> Z.of_nat l < num_classes classifier ->
          nth_error body
            (i + Z.to_nat (xEnd - xBegin)
                 * (j + Z.to_nat (yEnd - yBegin)
                        * (k + Z.to_nat (zEnd - zBegin) * l)))
          = Some (as_uint8
                    (data predictions
                       (mkPoint5D (xBegin + Z.of_nat i) (yBegin + Z.of_nat j)
                                  (zBegin + Z.of_nat k) 0 (Z.of_nat l)))).
Proof.
  intros V as_uint8 v0 PixelClassifier predict hash get_tiles num_classes
         num_workers classifier ds xBegin xEnd yBegin yEnd zBegin zEnd
         Hw Ht Hx Hy Hz Hc.
  destruct (OrchestrationFacts.server_do_predictions v0 predict hash get_tiles
              num_classes num_workers
              (requested_roi xBegin xEnd yBegin yEnd zBegin zEnd)
              classifier ds Hw) as [Hrun _].
  cbv zeta in Hrun.
  match type of Hrun with _ = inr ?p => set (predictions := p) in * end.
  assert (Hint : interval predictions
                 = mkInterval5D (mkPoint5D xBegin yBegin zBegin 0 0)
                     (mkPoint5D xEnd yEnd zEnd 1 (num_classes classifier))).
  { unfold predictions. rewrite OrchestrationFacts.fold_set_interval.
    unfold Orchestration.allocate_predictions, allocate. simpl.
    unfold ds_shape, shape, psub, pointwise in Ht. simpl in Ht.
    rewrite Ht. reflexivity. }
  set (blk := mkArray5D (interval predictions)
                        (fun p => as_uint8 (data predictions p))).
  assert (Hblk_t : t (shape (interval blk)) = 1).
  { unfold blk. simpl. rewrite Hint. reflexivity. }
  destruct (raw_xyzc_tobytes_F_layout blk Hblk_t) as (body & Hbody & Hlen & Hnth).
  exists predictions, body.
  split; [exact Hrun|]. split; [|split].
  - unfold ng_predict. rewrite Hrun. exact Hbody.
  - rewrite Hlen. unfold blk. simpl. rewrite Hint. simpl.
    rewrite !Nat2Z.inj_mul, !Z2Nat.id by lia. ring.
  - intros i j k l Hi Hj Hk Hl.
    specialize (Hnth i j k l). unfold blk in Hnth. simpl in Hnth.
    rewrite Hint in Hnth. simpl in Hnth.
    rewrite Z.sub_0_r in Hnth.
    apply Hnth; lia.
Qed.

(** The theorem at work: the box from (1, 0, 0) to (3, 3, 2) of the small
    volume gives 2 * 3 * 2 * 2 = 24 bytes. *)
Lemma ng_predict_body_is_xyzc_fortran_order_witness :
  exists (predictions : Array5D Z) (body : list byte),
    Orchestration.do_predictions 0 predict_x_and_channel (fun _ => 0)
      (fun tile => [tile]) (fun _ => 2) 2 (requested_roi 1 3 0 3 0 2)
      tt volume_4x3x2 = inr predictions
    /\ ng_predict low_byte 0 predict_x_and_channel (fun _ => 0)
         (fun tile => [tile]) (fun _ => 2) 2 tt volume_4x3x2 1 3 0 3 0 2
       = Some body
    /\ Z.of_nat (List.length body) = (3 - 1) * (3 - 0) * (2 - 0) * 2
    /\ forall i j k l : nat,
        Z.of_nat i < 3 - 1 -> Z.of_nat j < 3 - 0 ->
        Z.of_nat k < 2 - 0 -> Z.of_nat l < 2 ->
        nth_error body
          (i + Z.to_nat (3 - 1)
               * (j + Z.to_nat (3 - 0) * (k + Z.to_nat (2 - 0) * l)))
        = Some (low_byte
                  (data predictions
                     (mkPoint5D (1 + Z.of_nat i) (0 + Z.of_nat j)
                                (0 + Z.of_nat k) 0 (Z.of_nat l)))).
Proof.
  apply (ng_predict_body_is_xyzc_fortran_order Z low_byte 0 unit
           predict_x_and_channel (fun _ => 0) (fun tile => [tile]) (fun _ => 2)
           2 tt volume_4x3x2 1 3 0 3 0 2);
    first [lia | reflexivity].
Defined.

(** The same request, evaluated: the 24 bytes. *)
Example ng_predict_small_volume :
  ng_predict low_byte 0 predict_x_and_channel (fun _ => 0)
    (fun tile => [tile]) (fun _ => 2) 2 tt volume_4x3x2 1 3 0 3 0 2
  = Some [x01; x02; x01; x02; x01; x02; x01; x02; x01; x02; x01; x02;
          x0b; x0c; x0b; x0c; x0b; x0c; x0b; x0c; x0b; x0c; x0b; x0c]%byte.
Proof. vm_compute. reflexivity. Qed.

End WireFacts.

(* ===================================================================== *)
(** * The cache in front of compute                                        *)
(* ===================================================================== *)

Module LruCacheFacts.
Import LruCache.

Section Facts.

Variable K : Type.
Variable R : Type.
Variable key_eqb : K -> K -> bool.
Hypothesis key_eqb_eq : forall k1 k2 : K, key_eqb k1 k2 = true <-> k1 = k2.
Variable user_function : K -> option R.
Variable maxsize : nat.
Hypothesis maxsize_positive : (0 < maxsize)%nat.

Local Abbreviation call := (call key_eqb user_function maxsize).
Local Abbreviation run := (run key_eqb user_function maxsize).
Local Abbreviation lookup := (lookup key_eqb).
Local Abbreviation remove := (remove key_eqb).

Definition keys (l : list (K * R)) : list K := map fst l.

Lemma key_eqb_refl (k : K) : key_eqb k k = true.
Proof. apply key_eqb_eq. reflexivity. Qed.

Lemma key_eqb_neq (k1 k2 : K) : key_eqb k1 k2 = false <-> k1 <> k2.
Proof.
  rewrite <- key_eqb_eq. destruct (key_eqb k1 k2); split; intros H;
    try discriminate; try reflexivity; try (intros H'; discriminate).
  exfalso. apply H. reflexivity.
Qed.

Lemma key_dec (k1 k2 : K) : {k1 = k2} + {k1 <> k2}.
Proof.
  destruct (key_eqb k1 k2) eqn:E.
  - left. apply key_eqb_eq. exact E.
  - right. apply key_eqb_neq. exact E.
Qed.

(** The other keys of a sequence of calls, each once. *)
Fixpoint distinct_others (k : K) (ks : list K) : list K :=
  match ks with
  | [] => []
  | k' :: rest =>
      let others := distinct_others k rest in
      if key_eqb k' k || existsb (key_eqb k') others then others
      else k' :: others
  end.

Lemma existsb_key (k : K) (l : list K) : existsb (key_eqb k) l = true <-> In k l.
Proof.
  rewrite existsb_exists. split.
  - intros (k' & Hin & Heq). apply key_eqb_eq in Heq. subst. exact Hin.
  - intros Hin. exists k. split; [exact Hin | apply key_eqb_refl].
Qed.

Lemma distinct_others_in (k : K) (ks : list K) :
  forall k' : K, In k' (distinct_others k ks) <-> In k' ks /\ k' <> k.
Proof.
  induction ks as [|h rest IH]; intros k'; simpl; [tauto|].
  destruct (key_eqb h k) eqn:Ehk; simpl.
  - apply key_eqb_eq in Ehk. subst h. rewrite IH.
    split; [tauto | intros [[<- | Hin] Hne]; [contradiction | tauto]].
  - apply key_eqb_neq in Ehk.
    destruct (existsb (key_eqb h) (distinct_others k rest)) eqn:Eex.
    + apply existsb_key in Eex. apply IH in Eex. rewrite IH.
      split; [tauto | intros [[<- | Hin] Hne]; tauto].
    + simpl. rewrite IH.
      split; [intros [<- | H]; tauto | tauto].
Qed.

Lemma distinct_others_NoDup (k : K) (ks : list K) : NoDup (distinct_others k ks).
Proof.
  induction ks as [|h rest IH]; simpl; [constructor|].
  destruct (key_eqb h k); simpl; [exact IH|].
  destruct (existsb (key_eqb h) (distinct_others k rest)) eqn:Eex; [exact IH|].
  constructor; [|exact IH].
  intros Hin. apply existsb_key in Hin. congruence.
Qed.

(** ** Lookup and removal *)

Lemma lookup_none (k : K) (l : list (K * R)) :
  lookup k l = None <-> ~ In k (keys l).
Proof.
  induction l as [|[k' v] rest IH]; simpl; [tauto|].
  destruct (key_eqb k k') eqn:E.
  - apply key_eqb_eq in E. subst. split; [discriminate | intros H; exfalso; auto].
  - apply key_eqb_neq in E. rewrite IH. split; [intros H [Heq | Hin]; auto | tauto].
Qed.

Lemma lookup_some (k : K) (v : R) (l : list (K * R)) :
  lookup k l = Some v ->
  exists pre post, l = pre ++ (k, v) :: post /\ ~ In k (keys pre)
                   /\ remove k l = pre ++ post.
Proof.
  induction l as [|[k' v'] rest IH]; simpl; [discriminate|].
  destruct (key_eqb k k') eqn:E.
  - apply key_eqb_eq in E. subst. intros H. inversion H; subst.
    exists [], rest. simpl. auto.
  - apply key_eqb_neq in E. intros H.
    destruct (IH H) as (pre & post & -> & Hpre & Hrem).
    exists ((k', v') :: pre), post. simpl. rewrite Hrem.
    split; [reflexivity|]. split; [|reflexivity].
    intros [Heq | Hin]; [congruence | contradiction].
Qed.

Lemma keys_app (l1 l2 : list (K * R)) : keys (l1 ++ l2) = keys l1 ++ keys l2.
Proof. apply map_app. Qed.

(** ** Well-formed caches *)

(** No key twice, at most [maxsize] entries, and every entry holds what
    the wrapped function returns for its key. *)
Definition well_formed (st : State K R) : Prop :=
  NoDup (keys (entries st))
  /\ (List.length (entries st) <= maxsize)%nat
  /\ forall k v, In (k, v) (entries st) -> user_function k = Some v.

Lemma removelast_incl {A : Type} (l : list A) : incl (removelast l) l.
Proof.
  rewrite removelast_firstn_len. intros u Hu.
  rewrite <- (firstn_skipn (pred (List.length l)) l).
  apply in_or_app. left. exact Hu.
Qed.

Lemma removelast_length {A : Type} (l : list A) :
  List.length (removelast l) = (List.length l - 1)%nat.
Proof. rewrite removelast_firstn_len, length_firstn. lia. Qed.

Lemma removelast_keys (l : list (K * R)) : keys (removelast l) = removelast (keys l).
Proof.
  unfold keys. rewrite !removelast_firstn_len, length_map.
  symmetry. apply firstn_map.
Qed.

Lemma removelast_NoDup {A : Type} (l : list A) : NoDup l -> NoDup (removelast l).
Proof.
  rewrite removelast_firstn_len. intros H.
  rewrite <- (firstn_skipn (pred (List.length l)) l) in H.
  eapply NoDup_app_remove_r. exact H.
Qed.

Lemma call_well_formed (st : State K R) (k : K) :
  well_formed st -> well_formed (snd (call st k)).
Proof.
  intros (Hnd & Hlen & Hval). unfold LruCache.call.
  destruct (lookup k (entries st)) as [v|] eqn:Hl.
  - destruct (lookup_some _ _ _ Hl) as (pre & post & He & Hpre & Hrem).
    simpl. rewrite Hrem. rewrite He in Hnd, Hlen, Hval.
    rewrite keys_app in Hnd. simpl in Hnd.
    split; [|split].
    + simpl. rewrite keys_app.
      apply NoDup_remove in Hnd. destruct Hnd as [Hnd Hnotin].
      constructor; assumption.
    + simpl. rewrite length_app in *. simpl in Hlen. lia.
    + intros k' v' [Heq | Hin].
      * inversion Heq; subst. apply Hval. apply in_or_app. right. left. reflexivity.
      * apply Hval. apply in_app_or in Hin. apply in_or_app.
        destruct Hin; [left | right; right]; assumption.
  - destruct (user_function k) as [v|] eqn:Hf; simpl.
    + apply lookup_none in Hl.
      split; [|split].
      * simpl. constructor.
        -- destruct (List.length (entries st) <? maxsize)%nat; [exact Hl|].
           rewrite removelast_keys. intros Hin. apply removelast_incl in Hin.
           contradiction.
        -- destruct (List.length (entries st) <? maxsize)%nat; [exact Hnd|].
           rewrite removelast_keys. apply removelast_NoDup. exact Hnd.
      * simpl. destruct (Nat.ltb_spec (List.length (entries st)) maxsize); [lia|].
        rewrite removelast_length. lia.
      * intros k' v' [Heq | Hin].
        -- inversion Heq; subst. exact Hf.
        -- apply Hval.
           destruct (List.length (entries st) <? maxsize)%nat; [exact Hin|].
           apply removelast_incl. exact Hin.
    + split; [|split]; assumption.
Qed.

Lemma empty_well_formed : well_formed empty.
Proof.
  split; [constructor | split; [simpl; lia | intros k v []]].
Qed.

Lemma run_well_formed (ks : list K) (st : State K R) :
  well_formed st -> well_formed (run st ks).
Proof.
  revert st. induction ks as [|k rest IH]; intros st H; [exact H|].
  simpl. apply IH. apply call_well_formed. exact H.
Qed.

(** ** A key stays cached while few other keys are asked for *)

(** [k] is cached, and every more recently used entry has its key in
    [seen]. *)
Definition recent (st : State K R) (k : K) (seen : list K) : Prop :=
  exists pre post v,
    entries st = pre ++ (k, v) :: post /\ incl (keys pre) seen.

(** Every duplicate-free list drawn from [pool] is shorter than the cache. *)
Definition fits (pool : list K) : Prop :=
  forall chosen, NoDup chosen -> incl chosen pool ->
                 (List.length chosen < maxsize)%nat.

Lemma fits_incl (pool pool' : list K) : incl pool' pool -> fits pool -> fits pool'.
Proof.
  intros Hincl Hfits chosen Hnd Hch. apply Hfits; [exact Hnd|].
  intros u Hu. apply Hincl, Hch, Hu.
Qed.

Lemma split_two (pre post pre' post' : list (K * R)) (k k' : K) (v v' : R) :
  k' <> k ->
  pre ++ (k, v) :: post = pre' ++ (k', v') :: post' ->
  (exists m, pre = pre' ++ (k', v') :: m /\ post' = m ++ (k, v) :: post)
  \/ (exists m, pre' = pre ++ (k, v) :: m /\ post = m ++ (k', v') :: post').
Proof.
  intros Hne. revert pre'. induction pre as [|p pre IH]; intros pre' He.
  - destruct pre' as [|q pre']; simpl in He.
    + inversion He. congruence.
    + inversion He; subst. right. exists pre'. split; reflexivity.
  - destruct pre' as [|q pre']; simpl in He.
    + inversion He; subst. left. exists pre. split; reflexivity.
    + inversion He; subst.
      destruct (IH pre' H1) as [(m & -> & ->) | (m & -> & ->)].
      * left. exists m. split; reflexivity.
      * right. exists m. split; reflexivity.
Qed.

Lemma call_same_recent (st : State K R) (k : K) (v : R) :
  well_formed st -> user_function k = Some v ->
  fst (call st k) = Some v
  /\ exists post, entries (snd (call st k)) = (k, v) :: post.
Proof.
  intros (Hnd & Hlen & Hval) Hf. unfold LruCache.call.
  destruct (lookup k (entries st)) as [v'|] eqn:Hl.
  - destruct (lookup_some _ _ _ Hl) as (pre & post & He & _ & _).
    assert (Hv : user_function k = Some v').
    { apply Hval. rewrite He. apply in_or_app. right. left. reflexivity. }
    rewrite Hf in Hv. inversion Hv; subst v'. simpl. eauto.
  - rewrite Hf. simpl. eauto.
Qed.

Lemma call_other_recent (st : State K R) (k k' : K) (seen : list K) :
  well_formed st -> recent st k seen -> k' <> k -> fits (k' :: seen) ->
  recent (snd (call st k')) k (k' :: seen).
Proof.
  intros (Hnd & Hlen & Hval) (pre & post & v & He & Hseen) Hne Hfits.
  unfold LruCache.call.
  destruct (lookup k' (entries st)) as [v'|] eqn:Hl.
  - (* a hit on another key *)
    destruct (lookup_some _ _ _ Hl) as (pre' & post' & He' & Hpre' & Hrem).
    simpl. rewrite Hrem. rewrite He in He'.
    destruct (split_two _ _ _ _ _ _ _ _ Hne He')
      as [(m & Hp & Hq) | (m & Hp & Hq)].
    + (* [k'] was in front of [k] *)
      exists ((k', v') :: pre' ++ m), post, v. split.
      * rewrite Hq. simpl. rewrite <- app_assoc. reflexivity.
      * intros u [<- | Hu]; [left; reflexivity|]. right. apply Hseen.
        rewrite Hp, keys_app. rewrite keys_app in Hu. simpl.
        apply in_app_or in Hu. apply in_or_app.
        destruct Hu; [left | right; right]; assumption.
    + (* [k'] was behind [k] *)
      exists ((k', v') :: pre), (m ++ post'), v. split.
      * rewrite Hp. simpl. rewrite <- app_assoc. reflexivity.
      * intros u [<- | Hu]; [left; reflexivity | right; apply Hseen; exact Hu].
  - (* a miss on another key *)
    destruct (user_function k') as [v'|] eqn:Hf; simpl.
    + destruct (Nat.ltb_spec (List.length (entries st)) maxsize) as [Hlt|Hge].
      * exists ((k', v') :: pre), post, v. rewrite He. split; [reflexivity|].
        intros u [<- | Hu]; [left; reflexivity | right; apply Hseen; exact Hu].
      * destruct post as [|e post'] eqn:Hpost.
        -- exfalso. apply lookup_none in Hl.
           assert (Hch : (List.length (k' :: keys pre) < maxsize)%nat).
           { apply Hfits.
             - constructor.
               + intros Hin. apply Hl. rewrite He, keys_app.
                 apply in_or_app. left. exact Hin.
               + rewrite He, keys_app in Hnd. eapply NoDup_app_remove_r. exact Hnd.
             - intros u [<- | Hu]; [left; reflexivity | right; apply Hseen; exact Hu]. }
           simpl in Hch. rewrite He, length_app in Hge, Hlen. simpl in Hge, Hlen.
           unfold keys in Hch. rewrite length_map in Hch. lia.
        -- exists ((k', v') :: pre), (removelast (e :: post')), v.
           rewrite He. split.
           ++ simpl. f_equal.
              rewrite removelast_app by discriminate.
              change (removelast ((k, v) :: e :: post'))
                with ((k, v) :: removelast (e :: post')). reflexivity.
           ++ intros u [<- | Hu]; [left; reflexivity | right; apply Hseen; exact Hu].
    + exists pre, post, v. split; [exact He|].
      intros u Hu. right. apply Hseen. exact Hu.
Qed.

Lemma recent_hit (st : State K R) (k : K) (seen : list K) :
  well_formed st -> recent st k seen ->
  exists v, user_function k = Some v
            /\ call st k = (Some v, mkState ((k, v) :: remove k (entries st))
                                            (calls st)).
Proof.
  intros (Hnd & Hlen & Hval) (pre & post & v & He & _).
  unfold LruCache.call.
  destruct (lookup k (entries st)) as [v'|] eqn:Hl.
  - destruct (lookup_some _ _ _ Hl) as (pre' & post' & He' & _ & _).
    exists v'. split; [|reflexivity].
    apply Hval. rewrite He'. apply in_or_app. right. left. reflexivity.
  - exfalso. apply lookup_none in Hl. apply Hl.
    rewrite He, keys_app. apply in_or_app. right. left. reflexivity.
Qed.

Definition others (k : K) (ks : list K) : list K :=
  filter (fun k' => negb (key_eqb k' k)) ks.

Lemma run_recent (k : K) (ks : list K) :
  forall (st : State K R) (seen : list K),
    well_formed st -> recent st k seen -> fits (seen ++ others k ks) ->
    exists seen', recent (run st ks) k seen'.
Proof.
  induction ks as [|k' rest IH]; intros st seen Hwf Hrec Hfits.
  - exists seen. exact Hrec.
  - simpl. destruct (key_eqb k' k) eqn:E.
    + apply key_eqb_eq in E. subst k'.
      destruct (recent_hit st k seen Hwf Hrec) as (v & _ & Hcall).
      apply (IH _ seen).
      * apply call_well_formed. exact Hwf.
      * rewrite Hcall. simpl. exists [], (remove k (entries st)), v.
        split; [reflexivity | intros u []].
      * unfold others in *. simpl in Hfits.
        rewrite key_eqb_refl in Hfits. exact Hfits.
    + apply key_eqb_neq in E.
      assert (Hothers : others k (k' :: rest) = k' :: others k rest).
      { unfold others. simpl. apply key_eqb_neq in E. rewrite E. reflexivity. }
      rewrite Hothers in Hfits.
      apply (IH _ (k' :: seen)).
      * apply call_well_formed. exact Hwf.
      * apply call_other_recent; try assumption.
        eapply fits_incl; [|exact Hfits].
        intros u [<- | Hu]; apply in_or_app; [right; left; reflexivity | left; exact Hu].
      * eapply fits_incl; [|exact Hfits].
        intros u Hu. apply in_or_app. simpl in Hu.
        destruct Hu as [<- | Hu]; [right; left; reflexivity|].
        apply in_app_or in Hu. destruct Hu; [left | right; right]; assumption.
Qed.

Lemma distinct_others_fits (k : K) (ks : list K) :
  (List.length (distinct_others k ks) < maxsize)%nat -> fits ([] ++ others k ks).
Proof.
  intros Hlen chosen Hnd Hincl. simpl in Hincl.
  eapply Nat.le_lt_trans; [|exact Hlen].
  apply NoDup_incl_length; [exact Hnd|].
  intros u Hu. apply Hincl in Hu. unfold others in Hu.
  apply filter_In in Hu. destruct Hu as [Hin Hne].
  apply distinct_others_in. split; [exact Hin|].
  apply negb_true_iff, key_eqb_neq in Hne. exact Hne.
Qed.

(** C2, amended.  After any history of calls, let [compute] be called on a
    key (an operator instance and a region) on which the wrapped function
    returns a block.  The call returns that block; and when it is followed
    by calls in which fewer than [maxsize] distinct other keys occur (128
    for [lru_cache()]), the next call with an equal key is answered from the
    cache: it returns the same block, and the wrapped function is not
    called. *)
Theorem lru_cache_returns_cached_block :
  forall (history : list K) (k : K) (ks : list K) (v : R),
    user_function k = Some v ->
    (List.length (distinct_others k ks) < maxsize)%nat ->
    let st0 := run empty history in
    let st1 := snd (call st0 k) in
    let st2 := run st1 ks in
    fst (call st0 k) = Some v
    /\ fst (call st2 k) = Some v
    /\ calls (snd (call st2 k)) = calls st2
    /\ times_computed key_eqb (snd (call st2 k)) k = times_computed key_eqb st2 k.
Proof.
  intros history k ks v Hf Hlen st0 st1 st2.
  assert (Hwf0 : well_formed st0).
  { apply run_well_formed. apply empty_well_formed. }
  destruct (call_same_recent st0 k v Hwf0 Hf) as (Hfirst & post & Hpost).
  assert (Hwf1 : well_formed st1).
  { apply call_well_formed. exact Hwf0. }
  assert (Hrec1 : recent st1 k []).
  { exists [], post, v. split; [exact Hpost | intros u []]. }
  destruct (run_recent k ks st1 [] Hwf1 Hrec1) as (seen' & Hrec2).
  { apply distinct_others_fits. exact Hlen. }
  fold st2 in Hrec2.
  assert (Hwf2 : well_formed st2).
  { apply run_well_formed. exact Hwf1. }
  destruct (recent_hit st2 k seen' Hwf2 Hrec2) as (v' & Hv' & Hcall).
  rewrite Hf in Hv'. inversion Hv'; subst v'.
  split; [exact Hfirst|]. rewrite Hcall. simpl. repeat split.
Qed.

End Facts.

(** ** The keys of compute: (operator instance, region) *)

Definition ComputeKey : Type := nat * Nd.Interval5D.

Definition ComputeKey_eqb (k1 k2 : ComputeKey) : bool :=
  Nat.eqb (fst k1) (fst k2) && Nd.ieqb (snd k1) (snd k2).

Lemma peqb_eq (p q : Nd.Point5D) : Nd.peqb p q = true <-> p = q.
Proof.
  unfold Nd.peqb, Nd.forall_axes, Nd.LABELS. simpl.
  rewrite !andb_true_iff, !Z.eqb_eq. destruct p, q; simpl. split.
  - intros (-> & -> & -> & -> & -> & _). reflexivity.
  - intros H. inversion H. auto 10.
Qed.

Lemma ComputeKey_eqb_eq (k1 k2 : ComputeKey) :
  ComputeKey_eqb k1 k2 = true <-> k1 = k2.
Proof.
  unfold ComputeKey_eqb, Nd.ieqb.
  rewrite !andb_true_iff, Nat.eqb_eq, !peqb_eq.
  destruct k1 as [n1 [s1 e1]], k2 as [n2 [s2 e2]]. simpl. split.
  - intros (-> & -> & ->). reflexivity.
  - intros H. inversion H. auto.
Qed.

(** The region of one voxel at [x = i], asked of operator 0, and a wrapped
    function that returns the [x] of the region. *)
Definition voxel_key (i : Z) : ComputeKey :=
  (0%nat, Nd.translated (Nd.to_interval5d Nd.shape_ones) (Nd.mkPoint5D i 0 0 0 0)).
Definition compute_x (k : ComputeKey) : option Z := Some (Nd.x (Nd.start (snd k))).

(** C2, as stated, fails: the cache of [lru_cache()] holds 128 entries.
    After [compute] on one region and then on 128 other regions, the first
    region has been dropped, and the next call with it runs the wrapped
    function a second time. *)
Lemma lru_cache_computes_again_after_128_other_regions :
  let other_regions := map voxel_key (Nd.zrange 1 129) in
  let st := run ComputeKey_eqb compute_x default_maxsize empty
                (voxel_key 0 :: other_regions) in
  List.length (distinct_others _ ComputeKey_eqb (voxel_key 0) other_regions) = 128%nat
  /\ times_computed ComputeKey_eqb st (voxel_key 0) = 1%nat
  /\ lookup ComputeKey_eqb (voxel_key 0) (entries st) = None
  /\ times_computed ComputeKey_eqb
       (snd (call ComputeKey_eqb compute_x default_maxsize st (voxel_key 0)))
       (voxel_key 0) = 2%nat.
Proof.
  vm_compute. repeat split.
Qed.

(** The theorem at work: 127 other regions between two calls on a region. *)
Lemma lru_cache_returns_cached_block_witness :
  let ks := map voxel_key (Nd.zrange 1 128) in
  let st0 := run ComputeKey_eqb compute_x default_maxsize empty [voxel_key 7] in
  let st1 := snd (call ComputeKey_eqb compute_x default_maxsize st0 (voxel_key 0)) in
  let st2 := run ComputeKey_eqb compute_x default_maxsize st1 ks in
  fst (call ComputeKey_eqb compute_x default_maxsize st0 (voxel_key 0)) = Some 0
  /\ fst (call ComputeKey_eqb compute_x default_maxsize st2 (voxel_key 0)) = Some 0
  /\ calls (snd (call ComputeKey_eqb compute_x default_maxsize st2 (voxel_key 0)))
     = calls st2
  /\ times_computed ComputeKey_eqb
       (snd (call ComputeKey_eqb compute_x default_maxsize st2 (voxel_key 0)))
       (voxel_key 0)
     = times_computed ComputeKey_eqb st2 (voxel_key 0).
Proof.
  apply (lru_cache_returns_cached_block ComputeKey Z ComputeKey_eqb
           ComputeKey_eqb_eq compute_x default_maxsize
           (Nat.lt_0_succ 127) [voxel_key 7] (voxel_key 0)
           (map voxel_key (Nd.zrange 1 128)) 0).
  - reflexivity.
  - vm_compute. lia.
Defined.

End LruCacheFacts.

(* ===================================================================== *)
(** * ChannelwiseFastFilter.compute: the regions that are asked for         *)
(* ===================================================================== *)

Module FastFilterFacts.
Import Nd Blocks FastFilters.

(** The kernels that a log shows at its top level, in call order, each
    with the box of the block it was given. *)
Fixpoint kernel_runs (log : list Invocation) : list (Kernel * Interval5D) :=
  match log with
  | [] => []
  | InvFilterFn k input :: rest => (k, input) :: kernel_runs rest
  | _ :: rest => kernel_runs rest
  end.

Lemma kernel_runs_app (l1 l2 : list Invocation) :
  kernel_runs (l1 ++ l2) = kernel_runs l1 ++ kernel_runs l2.
Proof.
  induction l1 as [|i rest IH]; simpl; [reflexivity|].
  destruct i; simpl; rewrite IH; reflexivity.
Qed.

Lemma requested_regions_app (l1 l2 : list Invocation) :
  requested_regions (l1 ++ l2) = requested_regions l1 ++ requested_regions l2.
Proof.
  induction l1 as [|i rest IH]; simpl; [reflexivity|].
  destruct (requested_region i); simpl; rewrite IH; reflexivity.
Qed.

Section Facts.

Variable V : Type.
Variable v0 : V.
Variable run_operator : Operator -> DataRoi -> Array5D V.
Variable filter_fn : Kernel -> option Axis -> NdArray V -> NdArray V.

Local Abbreviation compute := (compute v0 run_operator filter_fn).
Local Abbreviation compute_from := (compute_from v0 filter_fn).
Local Abbreviation compute_all := (compute_all filter_fn).
Local Abbreviation compute_one := (compute_one filter_fn).
Local Abbreviation from_preprocessor := (from_preprocessor run_operator).
Local Abbreviation from_gaussian := (from_gaussian v0 run_operator filter_fn).

(** The slices of [compute], enlarged by the halo of the filter. *)
Definition haloed_slices (f : ChannelwiseFastFilter) (whole : DataRoi) : list DataRoi :=
  map (fun roi_slice => roi_enlarged roi_slice (halo f))
      (roi_split whole (roi_step f whole)).

(** A source of data logs one request, for the region it is given. *)
Definition asks_once (source : DataRoi -> Logged (Array5D V)) : Prop :=
  forall region, requested_regions (fst (source region)) = [region].

Lemma from_preprocessor_asks_once (op : Operator) : asks_once (from_preprocessor op).
Proof. intros region. reflexivity. Qed.

Lemma from_gaussian_asks_once (g : ChannelwiseFastFilter) : asks_once (from_gaussian g).
Proof.
  intros region. unfold FastFilters.from_gaussian.
  destruct (compute_from g _ region) as [inner result]. reflexivity.
Qed.

Lemma compute_one_requests (f : ChannelwiseFastFilter)
    (source : DataRoi -> Logged (Array5D V)) (whole roi_slice : DataRoi) :
  asks_once source ->
  requested_regions (fst (compute_one f source whole roi_slice))
  = [roi_enlarged roi_slice (halo f)].
Proof.
  intros Hs. unfold FastFilters.compute_one.
  specialize (Hs (roi_enlarged roi_slice (halo f))).
  destruct (source (roi_enlarged roi_slice (halo f))) as [log [source_data|]];
    simpl in *.
  - rewrite requested_regions_app, Hs. reflexivity.
  - exact Hs.
Qed.

(** The loop asks for the enlarged slices one after the other, and stops
    at the first slice whose data cannot be had. *)
Lemma compute_all_requests (f : ChannelwiseFastFilter)
    (source : DataRoi -> Logged (Array5D V)) (whole : DataRoi)
    (slices : list DataRoi) :
  asks_once source ->
  let enlarge := fun roi_slice => roi_enlarged roi_slice (halo f) in
  (exists n, requested_regions (fst (compute_all f source whole slices))
             = firstn n (map enlarge slices))
  /\ (snd (compute_all f source whole slices) <> None ->
      requested_regions (fst (compute_all f source whole slices))
      = map enlarge slices)
  /\ ((forall region, snd (source region) <> None) ->
      requested_regions (fst (compute_all f source whole slices))
      = map enlarge slices).
Proof.
  intros Hs enlarge.
  induction slices as [|roi_slice rest IH].
  - simpl. split; [exists 0%nat; reflexivity | split; reflexivity].
  - simpl.
    pose proof (compute_one_requests f source whole roi_slice Hs) as Hone.
    assert (Htotal : (forall region, snd (source region) <> None) ->
                     snd (compute_one f source whole roi_slice) <> None).
    { intros Hall. unfold FastFilters.compute_one.
      specialize (Hall (roi_enlarged roi_slice (halo f))).
      destruct (source (roi_enlarged roi_slice (halo f))) as [log [d|]];
        simpl in *; [discriminate | exact Hall]. }
    destruct (compute_one f source whole roi_slice) as [log [result|]];
      simpl in Hone, Htotal.
    + destruct IH as ((n & Hn) & Hsome & Hall).
      destruct (compute_all f source whole rest) as [log' [results|]];
        simpl in *.
      * rewrite requested_regions_app, Hone.
        split; [exists (S n); simpl; rewrite Hn; reflexivity|].
        split; intros H; simpl; f_equal;
          [apply Hsome; discriminate | apply Hall; exact H].
      * rewrite requested_regions_app, Hone.
        split; [exists (S n); simpl; rewrite Hn; reflexivity|].
        split; intros H; [exfalso; apply H; reflexivity|].
        simpl. f_equal. apply Hall. exact H.
    + split; [exists 1%nat; simpl; rewrite Hone; destruct rest; reflexivity|].
      split; intros H; [exfalso; apply H; reflexivity|].
      exfalso. apply (Htotal H). reflexivity.
Qed.

Lemma compute_from_requests (f : ChannelwiseFastFilter)
    (source : DataRoi -> Logged (Array5D V)) (whole : DataRoi) :
  asks_once source ->
  (exists n, requested_regions (fst (compute_from f source whole))
             = firstn n (haloed_slices f whole))
  /\ (snd (compute_from f source whole) <> None ->
      requested_regions (fst (compute_from f source whole)) = haloed_slices f whole)
  /\ ((forall region, snd (source region) <> None) ->
      requested_regions (fst (compute_from f source whole)) = haloed_slices f whole).
Proof.
  intros Hs. unfold FastFilters.compute_from, haloed_slices.
  destruct (compute_all_requests f source whole
              (roi_split whole (roi_step f whole)) Hs) as (Hn & Hsome & Hall).
  destruct (compute_all f source whole (roi_split whole (roi_step f whole)))
    as [log [results|]]; simpl in *.
  - split; [exact Hn|]. split; intros H; [apply Hsome; discriminate | apply Hall; exact H].
  - split; [exact Hn|].
    split; intros H; [exfalso; apply H; reflexivity | apply Hall; exact H].
Qed.

(** Which source a top-level entry of the log of [compute f] names. *)
Definition entry_of (f : ChannelwiseFastFilter) (i : Invocation) : Prop :=
  match i with
  | InvPreprocessor op _ =>
      (presmooth_sigma f <= 0)%Q /\ op = preprocessor f
  | InvGaussian g region inner =>
      (0 < presmooth_sigma f)%Q /\ g = gaussian_filter f
      /\ exists n, requested_regions inner = firstn n (haloed_slices g region)
  | InvFilterFn k _ => k = kernel f
  end.

Lemma compute_all_entries (f : ChannelwiseFastFilter)
    (source : DataRoi -> Logged (Array5D V)) (whole : DataRoi)
    (slices : list DataRoi) :
  (forall region, Forall (entry_of f) (fst (source region))) ->
  Forall (entry_of f) (fst (compute_all f source whole slices)).
Proof.
  intros Hs. induction slices as [|roi_slice rest IH]; simpl; [constructor|].
  assert (Hone : Forall (entry_of f) (fst (compute_one f source whole roi_slice))).
  { unfold FastFilters.compute_one.
    specialize (Hs (roi_enlarged roi_slice (halo f))).
    destruct (source (roi_enlarged roi_slice (halo f))) as [log [d|]]; simpl in *.
    - apply Forall_app. split; [exact Hs|]. constructor; [reflexivity | constructor].
    - exact Hs. }
  destruct (compute_one f source whole roi_slice) as [log [result|]]; simpl in *.
  - destruct (compute_all f source whole rest) as [log' [results|]]; simpl in *;
      apply Forall_app; split; assumption.
  - exact Hone.
Qed.

(** The block that comes back for a region: from the preprocessor, or,
    with presmoothing, from [compute] of the [GaussianSmoothing]
    sub-operator; [None] when that raises. *)
Definition block_for (f : ChannelwiseFastFilter) (region : DataRoi)
  : option (Array5D V) :=
  if Qlt_le_dec 0 (presmooth_sigma f)
  then snd (compute (gaussian_filter f) region)
  else Some (run_operator (preprocessor f) region).

(** What [compute] keeps for a slice, given the block that came back for
    the enlarged slice: the output of the filter's kernel on that block,
    placed where the enlarged slice starts, at the channel [k * m] for the
    [k]-th channel of the region and [m] numbers per voxel, and cut to the
    slice. *)
Definition keeps (f : ChannelwiseFastFilter) (whole roi_slice : DataRoi)
    (block result : Array5D V) : Prop :=
  let out := filter_fn (kernel f) (axis_2d f) (raw V block) in
  let m := if nd_has_c V out then c (nd_shape out) else 1 in
  let k := c (start (roi roi_slice)) - c (start (roi whole)) in
  let location := updated (psub (start (roi roi_slice)) (halo f)) AxC (k * m) in
  interval result
  = mkInterval5D (updated (start (roi roi_slice)) AxC (k * m))
                 (updated (stop (roi roi_slice)) AxC (k * m + c (nd_shape out)))
  /\ forall p : Point5D, data result p = nd_at V out (psub p location).

Lemma compute_one_keeps (f : ChannelwiseFastFilter)
    (source : DataRoi -> Logged (Array5D V)) (whole roi_slice : DataRoi)
    (log : list Invocation) (block : Array5D V) :
  source (roi_enlarged roi_slice (halo f)) = (log, Some block) ->
  exists result,
    compute_one f source whole roi_slice
    = (log ++ [InvFilterFn (kernel f) (interval block)], Some result)
    /\ keeps f whole roi_slice block result.
Proof.
  intros Hsource. unfold FastFilters.compute_one. rewrite Hsource.
  eexists. split; [reflexivity|]. unfold keeps. split.
  - set (out := filter_fn (kernel f) (axis_2d f) (raw V block)).
    set (m := if nd_has_c V out then c (nd_shape out) else 1).
    unfold cut, with_c_of, FeatureData_at. cbn [interval start stop].
    unfold translated, to_interval5d. cbn [start stop].
    assert (Hstart : forall q v, c (padd zero (updated q AxC v)) = v).
    { intros q v. destruct q. reflexivity. }
    assert (Hstop : forall q v,
               c (padd (nd_shape out) (updated q AxC v))
               = v + c (nd_shape out)).
    { intros q v. destruct (nd_shape out), q.
      unfold updated, padd, pointwise. cbn. lia. }
    rewrite Hstart, Hstop. reflexivity.
  - intros p. reflexivity.
Qed.

(** The loop runs the kernel once for every block that came back, on that
    block, and keeps its output. *)
Lemma compute_all_kernel (f : ChannelwiseFastFilter)
    (source : DataRoi -> Logged (Array5D V)) (whole : DataRoi)
    (slices : list DataRoi) :
  (forall region, kernel_runs (fst (source region)) = []) ->
  exists blocks : list (Array5D V),
    map Some blocks
    = firstn (List.length blocks)
             (map (fun roi_slice => snd (source (roi_enlarged roi_slice (halo f))))
                  slices)
    /\ kernel_runs (fst (compute_all f source whole slices))
       = map (fun block => (kernel f, interval block)) blocks
    /\ forall results,
         snd (compute_all f source whole slices) = Some results ->
         List.length blocks = List.length slices
         /\ Forall2 (fun sb result => keeps f whole (fst sb) (snd sb) result)
                    (combine slices blocks) results.
Proof.
  intros Hs. induction slices as [|roi_slice rest IH].
  - exists []. simpl. split; [reflexivity|]. split; [reflexivity|].
    intros results H. inversion H; subst. split; [reflexivity | constructor].
  - destruct IH as (blocks & Hblocks & Hruns & Hres).
    pose proof (Hs (roi_enlarged roi_slice (halo f))) as Hquiet.
    destruct (source (roi_enlarged roi_slice (halo f))) as [log [block|]]
      eqn:Hsource; simpl in Hquiet.
    + destruct (compute_one_keeps f source whole roi_slice log block Hsource)
        as (result & Hone & Hkeeps).
      exists (block :: blocks). simpl. rewrite Hone, Hsource. simpl.
      split; [rewrite Hblocks; reflexivity|].
      destruct (compute_all f source whole rest) as [log' [results'|]];
        simpl in *.
      * split.
        -- rewrite !kernel_runs_app, Hquiet, Hruns. reflexivity.
        -- intros results H. inversion H; subst results.
           destruct (Hres results' eq_refl) as [Hlen Hall].
           split; [rewrite Hlen; reflexivity|].
           constructor; [exact Hkeeps | exact Hall].
      * split.
        -- rewrite !kernel_runs_app, Hquiet, Hruns. reflexivity.
        -- intros results H. discriminate H.
    + exists []. simpl.
      unfold FastFilters.compute_one. rewrite Hsource. simpl.
      split; [reflexivity|]. split; [exact Hquiet|].
      intros results H. discriminate H.
Qed.

Lemma compute_without_presmoothing (g : ChannelwiseFastFilter) (region : DataRoi) :
  (presmooth_sigma g <= 0)%Q ->
  compute g region = compute_from g (from_preprocessor (preprocessor g)) region.
Proof.
  intros Hle. unfold FastFilters.compute.
  destruct (Qlt_le_dec 0 (presmooth_sigma g)) as [Hpos|_]; [|reflexivity].
  exfalso. apply (Qlt_irrefl 0). eapply Qlt_le_trans; eassumption.
Qed.

(** The branch that [compute] takes on [presmooth_sigma] hands back
    [block_for] and runs no kernel at the top level of the log. *)
Lemma compute_source (f : ChannelwiseFastFilter) :
  exists source : DataRoi -> Logged (Array5D V),
    (forall whole, compute f whole = compute_from f source whole)
    /\ (forall region, kernel_runs (fst (source region)) = [])
    /\ forall region, snd (source region) = block_for f region.
Proof.
  unfold block_for, FastFilters.compute.
  destruct (Qlt_le_dec 0 (presmooth_sigma f)) as [Hpos | Hnonpos].
  - exists (from_gaussian (gaussian_filter f)).
    split; [reflexivity|]. split; intros region.
    + unfold FastFilters.from_gaussian.
      destruct (compute_from (gaussian_filter f) _ region) as [inner result].
      reflexivity.
    + change (snd (from_gaussian (gaussian_filter f) region)
              = snd (compute (gaussian_filter f) region)).
      rewrite compute_without_presmoothing by (simpl; apply Qle_refl).
      unfold FastFilters.from_gaussian.
      destruct (compute_from (gaussian_filter f) _ region) as [inner result].
      reflexivity.
  - exists (from_preprocessor (preprocessor f)).
    split; [reflexivity|]. split; intros region; reflexivity.
Qed.

Lemma compute_runs_the_kernel (f : ChannelwiseFastFilter) (whole : DataRoi) :
  exists blocks : list (Array5D V),
    map Some blocks
    = firstn (List.length blocks) (map (block_for f) (haloed_slices f whole))
    /\ kernel_runs (fst (compute f whole))
       = map (fun block => (kernel f, interval block)) blocks
    /\ (snd (compute f whole) <> None ->
        exists results : list (Array5D V),
          snd (compute f whole) = combine_results V v0 results
          /\ List.length blocks
             = List.length (roi_split whole (roi_step f whole))
          /\ Forall2 (fun sb result => keeps f whole (fst sb) (snd sb) result)
                     (combine (roi_split whole (roi_step f whole)) blocks)
                     results).
Proof.
  destruct (compute_source f) as (source & Hcompute & Hquiet & Hblock).
  rewrite Hcompute. unfold FastFilters.compute_from, haloed_slices.
  destruct (compute_all_kernel f source whole
              (roi_split whole (roi_step f whole)) Hquiet)
    as (blocks & Hblocks & Hruns & Hres).
  exists blocks. split; [|split].
  - rewrite Hblocks, map_map. f_equal. apply map_ext. intros roi_slice.
    apply Hblock.
  - destruct (compute_all f source whole (roi_split whole (roi_step f whole)))
      as [log [results|]]; exact Hruns.
  - destruct (compute_all f source whole (roi_split whole (roi_step f whole)))
      as [log [results|]]; simpl in *.
    + intros _. exists results. destruct (Hres results eq_refl) as [Hlen Hall].
      split; [reflexivity|]. split; [exact Hlen | exact Hall].
    + intros H. exfalso. apply H. reflexivity.
Qed.

Lemma compute_requests_and_entries (f : ChannelwiseFastFilter) (whole : DataRoi) :
  (exists n, requested_regions (fst (compute f whole))
             = firstn n (haloed_slices f whole))
  /\ (snd (compute f whole) <> None \/ (presmooth_sigma f <= 0)%Q ->
      requested_regions (fst (compute f whole)) = haloed_slices f whole)
  /\ Forall (entry_of f) (fst (compute f whole)).
Proof.
  unfold FastFilters.compute.
  destruct (Qlt_le_dec 0 (presmooth_sigma f)) as [Hpos | Hnonpos].
  - (* presmoothing *)
    set (g := gaussian_filter f).
    destruct (compute_from_requests f (from_gaussian g) whole
                (from_gaussian_asks_once g)) as (Hn & Hsome & _).
    split; [exact Hn|]. split.
    + intros [H | H]; [apply Hsome; exact H|].
      exfalso. apply (Qlt_irrefl 0). eapply Qlt_le_trans; eassumption.
    + unfold FastFilters.compute_from.
      pose proof (compute_all_entries f (from_gaussian g) whole
                    (roi_split whole (roi_step f whole))) as He.
      destruct (compute_all f (from_gaussian g) whole
                  (roi_split whole (roi_step f whole))) as [log [results|]];
        simpl in *; apply He; intros region;
        unfold FastFilters.from_gaussian;
        destruct (compute_from_requests g (from_preprocessor (preprocessor g))
                    region (from_preprocessor_asks_once _)) as (Hin & _ & _);
        destruct (compute_from g (from_preprocessor (preprocessor g)) region)
          as [inner result]; simpl in *;
        (constructor; [|constructor]); simpl; auto.
  - (* no presmoothing *)
    destruct (compute_from_requests f (from_preprocessor (preprocessor f)) whole
                (from_preprocessor_asks_once _)) as (Hn & _ & Hall).
    split; [exact Hn|]. split.
    + intros _. apply Hall. intros region. discriminate.
    + unfold FastFilters.compute_from.
      pose proof (compute_all_entries f (from_preprocessor (preprocessor f)) whole
                    (roi_split whole (roi_step f whole))) as He.
      destruct (compute_all f (from_preprocessor (preprocessor f)) whole
                  (roi_split whole (roi_step f whole))) as [log [results|]];
        simpl in *; apply He; intros region;
        (constructor; [|constructor]); simpl; auto.
Qed.

(** The halo of a [ChannelwiseFastFilter] without its 2D axis. *)
Definition fixed_halo : Point5D := mkPoint5D 30 30 30 0 0.

(** C1, amended.  The halo of a [ChannelwiseFastFilter] is the fixed point
    x = y = z = 30, t = c = 0, with the entry of [axis_2d] set to 0; it does
    not depend on the kernel or on its parameters.  [compute] asks for the
    data of every slice of the region on the slice enlarged by that halo on
    both sides, slice after slice, and there is no clamping to the data
    source: when [presmooth_sigma] is not positive the request goes to the
    preprocessor, and when it is positive to the [GaussianSmoothing]
    sub-operator (which asks its own preprocessor in the same way); the
    kernel is the filter's own.  All enlarged slices are asked for when
    [compute] returns a block, and always when there is no presmoothing;
    otherwise the requests are the first of them.  The kernel runs once for
    every block that comes back, in the order of the slices, on that very
    block: the kernel runs of the log are the filter's own kernel on the
    boxes of these blocks, and when [compute] returns, a block came back
    for every enlarged slice and the result combines, slice by slice, the
    output of the filter's kernel on the whole block that came back for the
    enlarged slice, cut to the slice. *)
Theorem compute_asks_for_the_enlarged_slices :
  forall (f : ChannelwiseFastFilter) (whole : DataRoi),
    halo f = match axis_2d f with
             | Some a => updated fixed_halo a 0
             | None => fixed_halo
             end
    /\ haloed_slices f whole
       = map (fun roi_slice =>
                mkDataRoi (datasource roi_slice)
                          (mkInterval5D (psub (start (roi roi_slice)) (halo f))
                                        (padd (stop (roi roi_slice)) (halo f))))
             (roi_split whole (roi_step f whole))
    /\ (exists n, requested_regions (fst (compute f whole))
                  = firstn n (haloed_slices f whole))
    /\ (snd (compute f whole) <> None \/ (presmooth_sigma f <= 0)%Q ->
        requested_regions (fst (compute f whole)) = haloed_slices f whole)
    /\ Forall (entry_of f) (fst (compute f whole))
    /\ exists blocks : list (Array5D V),
         map Some blocks
         = firstn (List.length blocks)
                  (map (block_for f) (haloed_slices f whole))
         /\ kernel_runs (fst (compute f whole))
            = map (fun block => (kernel f, interval block)) blocks
         /\ (snd (compute f whole) <> None ->
             exists results : list (Array5D V),
               snd (compute f whole) = combine_results V v0 results
               /\ List.length blocks
                  = List.length (roi_split whole (roi_step f whole))
               /\ Forall2 (fun sb result =>
                             keeps f whole (fst sb) (snd sb) result)
                          (combine (roi_split whole (roi_step f whole)) blocks)
                          results).
Proof.
  intros f whole.
  split; [reflexivity|]. split; [reflexivity|].
  destruct (compute_requests_and_entries f whole) as (Hn & Hall & Hentries).
  split; [exact Hn|]. split; [exact Hall|]. split; [exact Hentries|].
  apply compute_runs_the_kernel.
Qed.

End Facts.

(** An image of 64 by 64 pixels, asked for as a whole, a preprocessor that
    returns a block of zeros on the region it is given and a kernel that
    returns its input. *)
Definition image_64 : DataSource :=
  mkDataSource (to_interval5d (mkPoint5D 64 64 1 1 1)) (mkPoint5D 64 64 1 1 1).
Definition whole_image : DataRoi := mkDataRoi image_64 (ds_roi image_64).
Definition zeros (op : Operator) (region : DataRoi) : Array5D Z :=
  allocate (roi region) 0.
Definition identity_kernel (k : Kernel) (axis : option Axis) (a : NdArray Z)
  : NdArray Z := a.
Definition smoothing (sigma : Q) : ChannelwiseFastFilter :=
  SigmaWindowFilter GaussianSmoothing OpRetriever sigma 0 (Some AxZ) 0.

(** C1, as stated, fails.  On the whole image the one slice is asked for
    from -30 to 94 on x and y, which is not what clamping to the data
    source, from 0 to 64, would give; and a wider kernel has the same halo. *)
Lemma compute_does_not_clamp_to_the_data_source :
  let f := smoothing (3 # 10) in
  let asked := requested_regions (fst (compute 0 zeros identity_kernel f whole_image)) in
  asked = [mkDataRoi image_64
             (mkInterval5D (mkPoint5D (-30) (-30) 0 0 0) (mkPoint5D 94 94 1 1 1))]
  /\ map (fun roi_slice =>
            mkDataRoi image_64
              (clamped (enlarged (roi roi_slice) (halo f)) (ds_roi image_64)))
         (roi_split whole_image (roi_step f whole_image))
     = [whole_image]
  /\ asked <> [whole_image]
  /\ halo (smoothing (3 # 10)) = halo (smoothing 10).
Proof.
  split; [vm_compute; reflexivity|].
  split; [vm_compute; reflexivity|].
  split; [|reflexivity].
  vm_compute. intros H. discriminate H.
Qed.

End FastFilterFacts.

(* ===================================================================== *)
(** * Translating and splitting intervals                                  *)
(* ===================================================================== *)

Module SplitFacts.
Import Nd NdFacts.

Lemma flat_map_map {A B C : Type} (g : A -> B) (f : B -> list C) (l : list A) :
  flat_map f (map g l) = flat_map (fun u => f (g u)) l.
Proof.
  induction l as [|h rest IH]; simpl; [reflexivity|]. rewrite IH. reflexivity.
Qed.

Lemma map_flat_map {A B C : Type} (f : A -> list B) (h : B -> C) (l : list A) :
  map h (flat_map f l) = flat_map (fun u => map h (f u)) l.
Proof.
  induction l as [|e rest IH]; simpl; [reflexivity|].
  rewrite map_app, IH. reflexivity.
Qed.

Definition shift (d : Z) (piece : Z * Z) : Z * Z := (fst piece + d, snd piece + d).

Lemma axis_pieces_shift (a b step d : Z) :
  axis_pieces (a + d) (b + d) step = map (shift d) (axis_pieces a b step).
Proof.
  unfold axis_pieces. destruct (0 <? step); [|reflexivity].
  replace (b + d - (a + d) + step - 1) with (b - a + step - 1) by lia.
  rewrite map_map. apply map_ext. intros k. unfold shift. simpl.
  f_equal; lia.
Qed.

Lemma axis_pieces_bounds (a b step lo hi : Z) :
  In (lo, hi) (axis_pieces a b step) -> a <= lo /\ hi <= b.
Proof.
  unfold axis_pieces. destruct (Z.ltb_spec 0 step); [|intros []].
  intros Hin. apply in_map_iff in Hin. destruct Hin as (k & Hk & _).
  inversion Hk; subst. split; [nia | lia].
Qed.

Lemma split_translated (r : Interval5D) (d : Point5D) (block_shape : Shape5D) :
  split (translated r d) block_shape
  = map (fun tile => translated tile d) (split r block_shape).
Proof.
  unfold split, translated, padd, pointwise. simpl.
  rewrite !axis_pieces_shift.
  rewrite flat_map_map, map_flat_map. apply flat_map_ext. intros it.
  rewrite flat_map_map, map_flat_map. apply flat_map_ext. intros ix.
  rewrite flat_map_map, map_flat_map. apply flat_map_ext. intros iy.
  rewrite flat_map_map, map_flat_map. apply flat_map_ext. intros iz.
  rewrite !map_map. apply map_ext. intros ic.
  reflexivity.
Qed.

Lemma split_inside (r tile : Interval5D) (block_shape : Shape5D) (p : Point5D) :
  In tile (split r block_shape) -> inside tile p = true -> inside r p = true.
Proof.
  unfold split. intros Hin.
  apply in_flat_map in Hin. destruct Hin as ([tlo thi] & Ht & Hin).
  apply in_flat_map in Hin. destruct Hin as ([xlo xhi] & Hx & Hin).
  apply in_flat_map in Hin. destruct Hin as ([ylo yhi] & Hy & Hin).
  apply in_flat_map in Hin. destruct Hin as ([zlo zhi] & Hz & Hin).
  apply in_map_iff in Hin. destruct Hin as ([clo chi] & <- & Hc).
  apply axis_pieces_bounds in Ht, Hx, Hy, Hz, Hc.
  rewrite !inside_true. intros H k. specialize (H k).
  destruct k; simpl in *; lia.
Qed.

Lemma inside_translated (r : Interval5D) (d p : Point5D) :
  inside (translated r d) (padd p d) = inside r p.
Proof.
  apply eq_true_iff_eq. rewrite !inside_true.
  split; intros H k; specialize (H k);
    destruct r as [[? ? ? ? ?] [? ? ? ? ?]], d, p, k; simpl in *; lia.
Qed.

Lemma translated_translated (r : Interval5D) (d1 d2 : Point5D) :
  translated (translated r d1) d2 = translated r (padd d1 d2).
Proof.
  destruct r as [[? ? ? ? ?] [? ? ? ? ?]], d1, d2.
  unfold translated, padd, pointwise. simpl. f_equal; f_equal; lia.
Qed.

Lemma shape_translated (r : Interval5D) (d : Point5D) :
  shape (translated r d) = shape r.
Proof.
  destruct r as [[? ? ? ? ?] [? ? ? ? ?]], d.
  unfold shape, translated, padd, psub, pointwise. simpl. f_equal; lia.
Qed.

Lemma shape_to_interval5d (s : Shape5D) : shape (to_interval5d s) = s.
Proof.
  destruct s. unfold shape, to_interval5d, psub, pointwise, zero. simpl.
  f_equal; lia.
Qed.

Lemma peqb_refl (p : Point5D) : peqb p p = true.
Proof.
  unfold peqb, forall_axes, LABELS. simpl. rewrite !Z.eqb_refl. reflexivity.
Qed.

End SplitFacts.

(* ===================================================================== *)
(** * FeatureExtractorCollection: channel bookkeeping                      *)
(* ===================================================================== *)

Module CollectionFacts.
Import Nd Blocks NdFacts SplitFacts Features.

Section Facts.

Variable V : Type.
Variable v0 : V.

(** Two buffers hold the same scalars on a box, the second moved by [d]. *)
Definition agree_on (box : Interval5D) (d : Point5D) (b1 b2 : Point5D -> V) : Prop :=
  forall p, inside box p = true -> b2 (padd p d) = b1 p.

(** A writer fills [out] relative to where [out] lies: handed the same
    block at another place, it leaves the same scalars there, and it raises
    at one place when it raises at the other. *)
Definition Covariant (w : Writer V) : Prop :=
  forall (input_roi : DataRoi) (out1 out2 : FeatureData V) (d : Point5D),
    interval out2 = translated (interval out1) d ->
    agree_on (interval out1) d (data out1) (data out2) ->
    match w input_roi out1, w input_roi out2 with
    | Some b1, Some b2 => agree_on (interval out1) d b1 b2
    | None, None => True
    | _, _ => False
    end.

Lemma psub_padd_start (p d s : Point5D) : psub (padd p d) (padd s d) = psub p s.
Proof.
  destruct p, d, s. unfold psub, padd, pointwise. simpl. f_equal; lia.
Qed.

Lemma kernel_slice_Covariant (kernel : DataRoi -> Point5D -> V) :
  Covariant (kernel_slice kernel).
Proof.
  intros input_roi out1 out2 d Hint Hagree. unfold kernel_slice.
  intros p Hp. rewrite Hint, inside_translated, Hp.
  unfold translated. simpl. rewrite psub_padd_start. reflexivity.
Qed.

Lemma combine_map_r {A B C : Type} (f : B -> C) (l1 : list A) (l2 : list B) :
  combine l1 (map f l2) = map (fun ab => (fst ab, f (snd ab))) (combine l1 l2).
Proof.
  revert l2. induction l1 as [|a rest IH]; intros [|b l2]; simpl;
    try reflexivity.
  rewrite IH. reflexivity.
Qed.

Lemma compute_slices_Covariant (compute_slice : Writer V)
    (pairs : list (DataRoi * Interval5D)) (d : Point5D) :
  Covariant compute_slice ->
  forall out1 out2 : FeatureData V,
    (forall slc_in tile, In (slc_in, tile) pairs ->
                         forall p, inside tile p = true ->
                                   inside (interval out1) p = true) ->
    interval out2 = translated (interval out1) d ->
    agree_on (interval out1) d (data out1) (data out2) ->
    match compute_slices V compute_slice pairs out1,
          compute_slices V compute_slice
            (map (fun ab => (fst ab, translated (snd ab) d)) pairs) out2 with
    | Some b1, Some b2 => agree_on (interval out1) d b1 b2
    | None, None => True
    | _, _ => False
    end.
Proof.
  intros Hcs. induction pairs as [|[slc_in tile] rest IH];
    intros out1 out2 Htiles Hint Hagree; simpl.
  - exact Hagree.
  - assert (Hview : agree_on tile d (data out1) (data out2)).
    { intros p Hp. apply Hagree. eapply Htiles; [left; reflexivity | exact Hp]. }
    pose proof (Hcs slc_in (cut out1 tile) (cut out2 (translated tile d)) d
                    eq_refl Hview) as Hstep.
    destruct (compute_slice slc_in (cut out1 tile)) as [w1|],
             (compute_slice slc_in (cut out2 (translated tile d))) as [w2|];
      try contradiction; [|exact I].
    apply (IH (write_through out1 tile w1)
              (write_through out2 (translated tile d) w2)).
    + intros slc_in' tile' Hin p Hp. simpl.
      eapply Htiles; [right; exact Hin | exact Hp].
    + simpl. exact Hint.
    + intros p Hp. simpl. rewrite inside_translated.
      destruct (inside tile p) eqn:Htile.
      * apply Hstep. exact Htile.
      * apply Hagree. exact Hp.
Qed.

Lemma ChannelwiseFilter_Covariant (axis_2d : option Axis)
    (num_input_channels channel_multiplier : Z) (kernel : Shape5D)
    (compute_slice : Writer V) :
  Covariant compute_slice ->
  Covariant (compute_into (ChannelwiseFilter axis_2d num_input_channels
                             channel_multiplier kernel compute_slice)).
Proof.
  intros Hcs input_roi out1 out2 d Hint Hagree. simpl.
  unfold ChannelwiseFilter_compute_into.
  rewrite Hint, split_translated, combine_map_r.
  apply compute_slices_Covariant; try assumption.
  intros slc_in tile Hin p Hp.
  apply in_combine_r in Hin. eapply split_inside; eassumption.
Qed.

(** ** The loop of the collection *)

Variable input_roi : DataRoi.

Definition expected_c (fx : FeatureExtractor V) : Z :=
  c (get_expected_shape fx (shape (roi input_roi))).

(** The channel at which the output of the [i]-th extractor starts: the
    sum of the channel counts of the extractors before it. *)
Definition channel_offset_of (extractors : list (FeatureExtractor V)) (i : nat) : Z :=
  fold_right Z.add 0 (map expected_c (firstn i extractors)).

(** The block that [compute] allocates for an extractor on its own. *)
Definition solo_out (fx : FeatureExtractor V) : FeatureData V :=
  atranslated (allocate (to_interval5d (get_expected_shape fx (shape (roi input_roi)))) v0)
              (start (roi input_roi)).

Lemma compute_solo (fx : FeatureExtractor V) :
  compute v0 fx input_roi
  = match compute_into fx input_roi (solo_out fx) with
    | Some written => Some (mkArray5D (interval (solo_out fx)) written)
    | None => None
    end.
Proof. reflexivity. Qed.

Lemma c_padd_zero_c (p : Point5D) (k : Z) : c (padd p (zero_c k)) = c p + k.
Proof. destruct p; reflexivity. Qed.

Lemma padd_zero_c_twice (p : Point5D) (k1 k2 : Z) :
  padd (padd p (zero_c k1)) (zero_c k2) = padd p (zero_c (k1 + k2)).
Proof.
  destruct p. unfold padd, pointwise, zero_c, zero, updated. simpl.
  f_equal; lia.
Qed.

Lemma inside_c (box : Interval5D) (p : Point5D) :
  inside box p = true -> c (start box) <= c p < c (stop box).
Proof. intros H. rewrite inside_true in H. apply (H AxC). Qed.

Lemma inside_c_false (box : Interval5D) (p : Point5D) :
  c p < c (start box) \/ c (stop box) <= c p -> inside box p = false.
Proof.
  intros H. destruct (inside box p) eqn:E; [|reflexivity].
  apply inside_c in E. lia.
Qed.

Lemma solo_out_c (fx : FeatureExtractor V) (p : Point5D) :
  inside (interval (solo_out fx)) p = true ->
  c (start (roi input_roi)) <= c p < c (start (roi input_roi)) + expected_c fx.
Proof.
  intros Hp. apply inside_c in Hp. unfold solo_out, expected_c in *.
  simpl in Hp. lia.
Qed.

Lemma collection_loop_spec (extractors : list (FeatureExtractor V)) :
  forall (k : Z) (out : FeatureData V),
    Forall (fun fx => Covariant (compute_into fx)) extractors ->
    Forall (fun fx => 0 <= expected_c fx) extractors ->
    Forall (fun fx => compute v0 fx input_roi <> None) extractors ->
    (forall p, c (start (roi input_roi)) + k <= c p -> data out p = v0) ->
    exists res,
      collection_loop extractors input_roi
                      (padd (start (roi input_roi)) (zero_c k)) out = Some res
      /\ (forall p, c p < c (start (roi input_roi)) + k -> res p = data out p)
      /\ forall (i : nat) (fx : FeatureExtractor V) (solo : FeatureData V),
          nth_error extractors i = Some fx ->
          compute v0 fx input_roi = Some solo ->
          forall p, inside (interval solo) p = true ->
                    res (padd p (zero_c (k + channel_offset_of extractors i)))
                    = data solo p.
Proof.
  induction extractors as [|fx rest IH]; intros k out Hcov Hnonneg Hsolo Hfresh.
  - exists (data out). split; [reflexivity|]. split; [reflexivity|].
    intros i fx solo Hi. destruct i; discriminate.
  - inversion Hcov as [|? ? Hcov1 Hcov']; subst.
    inversion Hnonneg as [|? ? Hnn1 Hnn']; subst.
    inversion Hsolo as [|? ? Hsolo1 Hsolo']; subst.
    rewrite compute_solo in Hsolo1.
    destruct (compute_into fx input_roi (solo_out fx)) as [w1|] eqn:Hw1;
      [clear Hsolo1 | exfalso; apply Hsolo1; reflexivity].
    set (R0 := start (roi input_roi)) in *.
    set (e := get_expected_shape fx (shape (roi input_roi))) in *.
    set (out_roi := translated (to_interval5d e) (padd R0 (zero_c k))).
    assert (Hroi : out_roi = translated (interval (solo_out fx)) (zero_c k)).
    { unfold out_roi, solo_out. simpl. fold e R0.
      rewrite translated_translated. reflexivity. }
    assert (Hce : c (stop out_roi) = c R0 + k + expected_c fx
                  /\ c (start out_roi) = c R0 + k).
    { unfold out_roi, expected_c. fold e. destruct e, R0. simpl. lia. }
    destruct Hce as [Hstop Hstart].
    (* the extractor on its own, and behind the view *)
    pose proof (Hcov1 input_roi (solo_out fx) (cut out out_roi) (zero_c k)) as Hstep.
    rewrite Hw1 in Hstep.
    assert (Hagree : agree_on (interval (solo_out fx)) (zero_c k)
                              (data (solo_out fx)) (data (cut out out_roi))).
    { intros p Hp. simpl. apply Hfresh. rewrite c_padd_zero_c.
      apply solo_out_c in Hp. fold R0 in Hp. lia. }
    specialize (Hstep Hroi Hagree).
    change (collection_loop (fx :: rest) input_roi (padd R0 (zero_c k)) out)
      with (match compute_into fx input_roi (cut out out_roi) with
            | Some written =>
                collection_loop rest input_roi
                  (padd (padd R0 (zero_c k)) (zero_c (c (shape out_roi))))
                  (write_through out out_roi written)
            | None => None
            end).
    destruct (compute_into fx input_roi (cut out out_roi)) as [w2|] eqn:Hw2;
      [|contradiction].
    assert (Hshape : c (shape out_roi) = expected_c fx).
    { unfold out_roi. rewrite shape_translated, shape_to_interval5d. reflexivity. }
    rewrite Hshape, padd_zero_c_twice.
    destruct (IH (k + expected_c fx) (write_through out out_roi w2) Hcov' Hnn' Hsolo')
      as (res & Hres & Hlow & Hkids).
    { intros p Hp. simpl. rewrite inside_c_false by lia. apply Hfresh. lia. }
    exists res. split; [exact Hres|]. split.
    + intros p Hp. rewrite Hlow by lia. simpl.
      rewrite inside_c_false by lia. reflexivity.
    + intros i fx' solo Hi Hcomp p Hp. destruct i; simpl in Hi.
      * inversion Hi; subst fx'. rewrite compute_solo, Hw1 in Hcomp.
        inversion Hcomp; subst solo.
        change (inside (interval (solo_out fx)) p = true) in Hp.
        change (res (padd p (zero_c (k + 0))) = w1 p).
        rewrite Z.add_0_r, Hlow.
        -- simpl. rewrite Hroi, inside_translated, Hp. apply Hstep. exact Hp.
        -- rewrite c_padd_zero_c. apply solo_out_c in Hp. fold R0 in Hp. lia.
      * unfold channel_offset_of. simpl.
        fold (channel_offset_of rest i). rewrite Z.add_assoc.
        apply (Hkids i fx' solo Hi Hcomp p Hp).
Qed.

Lemma channel_offset_of_nonneg (extractors : list (FeatureExtractor V)) (i : nat) :
  Forall (fun fx => 0 <= expected_c fx) extractors ->
  0 <= channel_offset_of extractors i.
Proof.
  intros Hnonneg. revert i.
  induction Hnonneg as [|fx rest Hfx Hrest IH]; intros [|i];
    unfold channel_offset_of; simpl; try lia.
  fold (channel_offset_of rest i). specialize (IH i). lia.
Qed.

(** The part of the output that the [i]-th extractor is handed by the loop
    that starts at channel [k] of the input's start. *)
Definition view_of (extractors : list (FeatureExtractor V)) (k : Z) (i : nat)
    (fx : FeatureExtractor V) : Interval5D :=
  translated (to_interval5d (get_expected_shape fx (shape (roi input_roi))))
             (padd (start (roi input_roi))
                   (zero_c (k + channel_offset_of extractors i))).

Lemma view_of_start_c (extractors : list (FeatureExtractor V)) (k : Z)
    (i : nat) (fx : FeatureExtractor V) :
  c (start (view_of extractors k i fx))
  = c (start (roi input_roi)) + (k + channel_offset_of extractors i).
Proof.
  unfold view_of.
  destruct (get_expected_shape fx (shape (roi input_roi))),
           (start (roi input_roi)).
  simpl. lia.
Qed.

(** The calls of a loop that returns: the [i]-th extractor's [compute_into]
    is called on a view of the block as the extractors before it left it,
    and what it leaves behind its view is what the loop returns there. *)
Lemma collection_loop_calls (extractors : list (FeatureExtractor V)) :
  forall (k : Z) (out : FeatureData V) (res : Point5D -> V),
    Forall (fun fx => 0 <= expected_c fx) extractors ->
    collection_loop extractors input_roi
                    (padd (start (roi input_roi)) (zero_c k)) out = Some res ->
    (forall p, c p < c (start (roi input_roi)) + k -> res p = data out p)
    /\ forall (i : nat) (fx : FeatureExtractor V),
        nth_error extractors i = Some fx ->
        exists (before : FeatureData V) (written : Point5D -> V),
          interval before = interval out
          /\ (forall p, c p < c (start (view_of extractors k i fx)) ->
                        data before p = res p)
          /\ (forall p, c (start (view_of extractors k i fx)) <= c p ->
                        data before p = data out p)
          /\ compute_into fx input_roi
                          (cut before (view_of extractors k i fx))
             = Some written
          /\ forall p, inside (view_of extractors k i fx) p = true ->
                       res p = written p.
Proof.
  induction extractors as [|fx rest IH]; intros k out res Hnonneg Hres.
  - simpl in Hres. inversion Hres; subst res. split; [reflexivity|].
    intros i fx Hi. destruct i; discriminate.
  - inversion Hnonneg as [|? ? Hnn1 Hnn']; subst.
    set (R0 := start (roi input_roi)) in *.
    set (e := get_expected_shape fx (shape (roi input_roi))) in *.
    set (out_roi := translated (to_interval5d e) (padd R0 (zero_c k))).
    assert (Hce : c (stop out_roi) = c R0 + k + expected_c fx
                  /\ c (start out_roi) = c R0 + k).
    { unfold out_roi, expected_c. fold e. destruct e, R0. simpl. lia. }
    destruct Hce as [Hstop Hstart].
    change (collection_loop (fx :: rest) input_roi (padd R0 (zero_c k)) out)
      with (match compute_into fx input_roi (cut out out_roi) with
            | Some written =>
                collection_loop rest input_roi
                  (padd (padd R0 (zero_c k)) (zero_c (c (shape out_roi))))
                  (write_through out out_roi written)
            | None => None
            end) in Hres.
    destruct (compute_into fx input_roi (cut out out_roi)) as [w|] eqn:Hw;
      [|discriminate].
    assert (Hshape : c (shape out_roi) = expected_c fx).
    { unfold out_roi. rewrite shape_translated, shape_to_interval5d. reflexivity. }
    rewrite Hshape, padd_zero_c_twice in Hres.
    destruct (IH (k + expected_c fx) (write_through out out_roi w) res Hnn' Hres)
      as (Hlow & Hkids).
    assert (Hbelow : forall p, c p < c R0 + k -> res p = data out p).
    { intros p Hp. rewrite Hlow by lia. simpl.
      rewrite inside_c_false by lia. reflexivity. }
    split; [exact Hbelow|].
    intros i fx' Hi. destruct i; simpl in Hi.
    + inversion Hi; subst fx'.
      assert (Hview : view_of (fx :: rest) k 0 fx = out_roi).
      { unfold view_of, channel_offset_of. simpl. rewrite Z.add_0_r.
        reflexivity. }
      rewrite Hview. exists out, w.
      split; [reflexivity|]. split; [|split; [|split]].
      * intros p Hp. symmetry. apply Hbelow. lia.
      * reflexivity.
      * exact Hw.
      * intros p Hp. rewrite Hlow.
        -- simpl. rewrite Hp. reflexivity.
        -- apply inside_c in Hp. lia.
    + assert (Hview : view_of (fx :: rest) k (S i) fx'
                      = view_of rest (k + expected_c fx) i fx').
      { unfold view_of, channel_offset_of. simpl.
        rewrite Z.add_assoc. reflexivity. }
      rewrite Hview.
      destruct (Hkids i fx' Hi)
        as (before & written & Hint & Hdone & Hfresh & Hcall & Hkept).
      exists before, written.
      split; [exact Hint|]. split; [exact Hdone|]. split; [|split].
      * intros p Hp. rewrite (Hfresh p Hp). simpl.
        rewrite inside_c_false; [reflexivity|].
        right. rewrite Hstop.
        pose proof (channel_offset_of_nonneg rest i Hnn') as Hoff.
        rewrite view_of_start_c in Hp. fold R0 in Hp. lia.
      * exact Hcall.
      * exact Hkept.
Qed.

Lemma padd_zero_c_0 (p : Point5D) : padd p (zero_c 0) = p.
Proof.
  destruct p. unfold padd, pointwise, zero_c, zero, updated. simpl.
  f_equal; lia.
Qed.

(** C3.  The expected shape of a collection has as many channels as its
    extractors expect together.  When every extractor expects a channel
    count that is not negative, fills its output relative to where the
    output lies, and computes a block on its own, [compute] on the
    collection returns a block of the expected shape in which the output of
    the [i]-th extractor lies in the channels that start at the sum of the
    channel counts of the extractors before it, one extractor after the
    other: there the block holds what the extractor computes on its own.
    The block is what the calls of the extractors' [compute_into] leave
    behind: the [i]-th extractor's [compute_into] is invoked on the view
    of the block at its channels, as wide as its own expected shape, at a
    moment when the channels below the view hold what the block holds in
    the end and those from the view on are still as allocated; and what
    that call leaves behind its view is what the block holds there. *)
Theorem collection_channels_are_the_extractors_in_order :
  forall (extractors : list (FeatureExtractor V))
         (collection : FeatureExtractor V),
    FeatureExtractorCollection extractors = Some collection ->
    Forall (fun fx => Covariant (compute_into fx)) extractors ->
    Forall (fun fx => 0 <= expected_c fx) extractors ->
    Forall (fun fx => compute v0 fx input_roi <> None) extractors ->
    c (get_expected_shape collection (shape (roi input_roi)))
      = fold_right Z.add 0 (map expected_c extractors)
    /\ exists out : FeatureData V,
        compute v0 collection input_roi = Some out
        /\ shape (interval out)
           = get_expected_shape collection (shape (roi input_roi))
        /\ start (interval out) = start (roi input_roi)
        /\ (forall (i : nat) (fx : FeatureExtractor V) (solo : FeatureData V),
            nth_error extractors i = Some fx ->
            compute v0 fx input_roi = Some solo ->
            c (shape (interval solo)) = expected_c fx
            /\ forall p, inside (interval solo) p = true ->
                         data out (padd p (zero_c (channel_offset_of extractors i)))
                         = data solo p)
        /\ forall (i : nat) (fx : FeatureExtractor V),
            nth_error extractors i = Some fx ->
            let view :=
              translated
                (to_interval5d (get_expected_shape fx (shape (roi input_roi))))
                (padd (start (roi input_roi))
                      (zero_c (channel_offset_of extractors i))) in
            exists (before : FeatureData V) (written : Point5D -> V),
              interval before = interval out
              /\ (forall p, c p < c (start view) -> data before p = data out p)
              /\ (forall p, c (start view) <= c p -> data before p = v0)
              /\ compute_into fx input_roi (cut before view) = Some written
              /\ forall p, inside view p = true -> data out p = written p.
Proof.
  intros extractors collection Hmk Hcov Hnonneg Hsolo.
  destruct extractors as [|first others]; [discriminate|].
  simpl in Hmk. inversion Hmk; subst collection. clear Hmk.
  split.
  - reflexivity.
  - set (extractors := first :: others) in *.
    set (expected := Collection_get_expected_shape extractors (shape (roi input_roi))).
    destruct (collection_loop_spec extractors 0
                (atranslated (allocate (to_interval5d expected) v0)
                             (start (roi input_roi)))
                Hcov Hnonneg Hsolo) as (res & Hres & _ & Hkids).
    { intros p _. reflexivity. }
    destruct (collection_loop_calls extractors 0
                (atranslated (allocate (to_interval5d expected) v0)
                             (start (roi input_roi)))
                res Hnonneg Hres) as (_ & Hcalls).
    rewrite padd_zero_c_0 in Hres.
    exists (mkArray5D (translated (to_interval5d expected) (start (roi input_roi))) res).
    split; [|split; [|split; [|split]]].
    + unfold compute. simpl.
      unfold Collection_compute_into, allocate_for. simpl.
      fold extractors. fold expected.
      change (psub (padd expected (start (roi input_roi)))
                   (padd zero (start (roi input_roi))))
        with (shape (translated (to_interval5d expected) (start (roi input_roi)))).
      rewrite shape_translated, shape_to_interval5d, peqb_refl.
      rewrite padd_zero_l.
      change (collection_loop extractors input_roi (start (roi input_roi))
                (atranslated (allocate (to_interval5d expected) v0)
                             (start (roi input_roi)))
              = Some res) in Hres.
      unfold atranslated, allocate in Hres |- *. simpl in Hres |- *.
      rewrite Hres. reflexivity.
    + cbn [interval]. rewrite shape_translated, shape_to_interval5d. reflexivity.
    + cbn [interval translated to_interval5d start]. apply padd_zero_l.
    + intros i fx solo Hi Hcomp. split.
      * rewrite compute_solo in Hcomp.
        destruct (compute_into fx input_roi (solo_out fx)); [|discriminate].
        inversion Hcomp; subst solo. unfold solo_out.
        cbn [interval atranslated allocate].
        rewrite shape_translated, shape_to_interval5d. reflexivity.
      * intros p Hp. simpl.
        specialize (Hkids i fx solo Hi Hcomp p Hp).
        rewrite Z.add_0_l in Hkids. exact Hkids.
    + intros i fx Hi view.
      destruct (Hcalls i fx Hi)
        as (before & written & Hint & Hdone & Hfresh & Hcall & Hkept).
      unfold view_of in Hdone, Hfresh, Hcall, Hkept.
      rewrite Z.add_0_l in Hdone, Hfresh, Hcall, Hkept.
      fold view in Hdone, Hfresh, Hcall, Hkept.
      exists before, written.
      split; [exact Hint|]. split; [exact Hdone|]. split; [|split].
      * intros p Hp. rewrite (Hfresh p Hp). reflexivity.
      * exact Hcall.
      * exact Hkept.
Qed.

End Facts.

(** ** Two extractors with channel multipliers 1 and 3 *)

(** An image of 2 by 2 pixels with one channel, asked for as a whole. *)
Definition image_2x2 : DataRoi :=
  let box := to_interval5d (mkPoint5D 2 2 1 1 1) in
  mkDataRoi (mkDataSource box (mkPoint5D 2 2 1 1 1)) box.

Definition extractor_1 : FeatureExtractor Z :=
  ChannelwiseFilter None 1 1 shape_ones
    (kernel_slice (fun raw_data p => 100 + x p + 10 * y p)).
Definition extractor_3 : FeatureExtractor Z :=
  ChannelwiseFilter None 1 3 shape_ones
    (kernel_slice (fun raw_data p => 200 + x p + 10 * y p + 1000 * c p)).
Definition collection_1_3 : FeatureExtractor Z :=
  match FeatureExtractorCollection [extractor_1; extractor_3] with
  | Some collection => collection
  | None => extractor_1
  end.

(** The channels 1 to 3 of the block of the collection. *)
Definition channels_1_to_3 : Interval5D :=
  translated (to_interval5d (mkPoint5D 2 2 1 1 3)) (mkPoint5D 0 0 0 0 1).

(** The theorem at work, which is the example of C3: on the 1-channel
    image the collection of the two extractors gives 4 channels; channel 0
    is what the first extractor computes on its own, and channels 1 to 3
    are what the second one computes on its own, left there by its
    [compute_into] on the view of these channels. *)
Lemma collection_channels_are_the_extractors_in_order_witness :
  exists out solo_1 solo_3 : FeatureData Z,
    compute 0 collection_1_3 image_2x2 = Some out
    /\ compute 0 extractor_1 image_2x2 = Some solo_1
    /\ compute 0 extractor_3 image_2x2 = Some solo_3
    /\ shape (interval out) = mkPoint5D 2 2 1 1 4
    /\ c (shape (interval solo_1)) = 1
    /\ c (shape (interval solo_3)) = 3
    /\ (forall p, inside (interval solo_1) p = true ->
                  data out (padd p (zero_c 0)) = data solo_1 p)
    /\ (forall p, inside (interval solo_3) p = true ->
                  data out (padd p (zero_c 1)) = data solo_3 p)
    /\ exists (before : FeatureData Z) (written : Point5D -> Z),
         (forall p, c p < 1 -> data before p = data out p)
         /\ (forall p, 1 <= c p -> data before p = 0)
         /\ compute_into extractor_3 image_2x2 (cut before channels_1_to_3)
            = Some written
         /\ forall p, inside channels_1_to_3 p = true ->
                      data out p = written p.
Proof.
  destruct (collection_channels_are_the_extractors_in_order Z 0 image_2x2
              [extractor_1; extractor_3] collection_1_3 eq_refl)
    as (_ & out & Hout & Hshape & _ & Hkids & Hcalls).
  - repeat constructor; apply ChannelwiseFilter_Covariant, kernel_slice_Covariant.
  - repeat constructor; vm_compute; discriminate.
  - repeat constructor; vm_compute; discriminate.
  - exists out. eexists. eexists.
    split; [exact Hout|].
    split; [reflexivity|]. split; [reflexivity|].
    split; [exact Hshape|].
    destruct (Hkids 0%nat extractor_1 _ eq_refl eq_refl) as [Hc1 Hd1].
    destruct (Hkids 1%nat extractor_3 _ eq_refl eq_refl) as [Hc3 Hd3].
    split; [exact Hc1|]. split; [exact Hc3|].
    split; [exact Hd1|]. split; [exact Hd3|].
    pose proof (Hcalls 1%nat extractor_3 eq_refl) as Hcall.
    cbv zeta in Hcall.
    destruct Hcall as (before & written & _ & Hdone & Hfresh & Hcall & Hkept).
    exists before, written.
    split; [exact Hdone|]. split; [exact Hfresh|].
    split; [exact Hcall | exact Hkept].
Defined.

(** The collection on the image, read at pixel (1, 0) in its four channels,
    next to the two extractors on their own at the same pixel. *)
Example collection_1_3_at_one_pixel :
  let at_pixel := fun (blk : FeatureData Z) (channel : Z) =>
                    data blk (mkPoint5D 1 0 0 0 channel) in
  option_map (fun out => map (at_pixel out) [0; 1; 2; 3])
             (compute 0 collection_1_3 image_2x2)
  = Some [101; 201; 1201; 2201]
  /\ option_map (fun solo => map (at_pixel solo) [0])
                (compute 0 extractor_1 image_2x2)
     = Some [101]
  /\ option_map (fun solo => map (at_pixel solo) [0; 1; 2])
                (compute 0 extractor_3 image_2x2)
     = Some [201; 1201; 2201].
Proof. vm_compute. repeat split. Qed.

End CollectionFacts.

(* ===================================================================== *)
(** * More on the cache around [FeatureExtractor.compute] *)

Module LruCacheUse.
Import LruCache LruCacheFacts.

Section Facts.

Variable K : Type.
Variable R : Type.
Variable key_eqb : K -> K -> bool.
Hypothesis key_eqb_eq : forall k1 k2 : K, key_eqb k1 k2 = true <-> k1 = k2.
Variable user_function : K -> option R.
Variable maxsize : nat.
Hypothesis maxsize_positive : (0 < maxsize)%nat.

Local Abbreviation call := (call key_eqb user_function maxsize).
Local Abbreviation run := (run key_eqb user_function maxsize).
Local Abbreviation times_computed := (times_computed key_eqb).
Local Abbreviation well_formed := (well_formed K R user_function maxsize).

(** How often [k] is asked for in a sequence of calls. *)
Definition times_asked (k : K) (ks : list K) : nat :=
  List.length (filter (key_eqb k) ks).

Lemma call_calls (st : State K R) (k : K) :
  calls (snd (call st k)) = calls st
  \/ calls (snd (call st k)) = calls st ++ [k].
Proof.
  unfold LruCache.call. destruct (LruCache.lookup key_eqb k (entries st)).
  - left. reflexivity.
  - destruct (user_function k); right; reflexivity.
Qed.

Lemma times_computed_snoc (cs : list K) (k k' : K) :
  List.length (filter (key_eqb k) (cs ++ [k']))
  = (List.length (filter (key_eqb k) cs) + (if key_eqb k k' then 1 else 0))%nat.
Proof.
  rewrite filter_app, length_app. simpl. destruct (key_eqb k k'); reflexivity.
Qed.

Lemma call_other_times (st : State K R) (k k' : K) :
  k' <> k -> times_computed (snd (call st k')) k = times_computed st k.
Proof.
  intros Hne. unfold LruCache.times_computed.
  destruct (call_calls st k') as [-> | ->]; [reflexivity|].
  rewrite times_computed_snoc.
  assert (E : key_eqb k k' = false).
  { apply (key_eqb_neq K key_eqb key_eqb_eq). congruence. }
  rewrite E. lia.
Qed.

Lemma call_entries_keys (st : State K R) (k u : K) :
  In u (keys K R (entries (snd (call st k)))) ->
  u = k \/ In u (keys K R (entries st)).
Proof.
  unfold LruCache.call.
  destruct (LruCache.lookup key_eqb k (entries st)) as [v|] eqn:Hl.
  - destruct (lookup_some K R key_eqb key_eqb_eq _ _ _ Hl)
      as (pre & post & He & _ & Hrem).
    simpl. rewrite Hrem, He, !keys_app. simpl.
    intros [<- | Hin]; [left; reflexivity | right].
    apply in_app_or in Hin. apply in_or_app. simpl. tauto.
  - destruct (user_function k) as [v|]; simpl; [|tauto].
    intros [<- | Hin]; [left; reflexivity | right].
    destruct (List.length (entries st) <? maxsize)%nat; [exact Hin|].
    unfold keys in *. apply in_map_iff in Hin.
    destruct Hin as (e & <- & He). apply in_map.
    apply (removelast_incl _ _ He).
Qed.

(** Every cached key was asked for in the history that built the cache. *)
Lemma run_entries_asked (ks : list K) :
  forall (st : State K R) (u : K),
    In u (keys K R (entries (run st ks))) ->
    In u ks \/ In u (keys K R (entries st)).
Proof.
  induction ks as [|k rest IH]; intros st u Hin; [right; exact Hin|].
  simpl in Hin. apply IH in Hin. destruct Hin as [Hin | Hin].
  - left. right. exact Hin.
  - apply call_entries_keys in Hin. destruct Hin as [-> | Hin].
    + left. left. reflexivity.
    + right. exact Hin.
Qed.

(** While a key stays cached, the wrapped function does not run on it. *)
Lemma run_recent_times (k : K) (ks : list K) :
  forall (st : State K R) (seen : list K),
    well_formed st -> recent K R st k seen ->
    fits K maxsize (seen ++ others K key_eqb k ks) ->
    times_computed (run st ks) k = times_computed st k.
Proof.
  induction ks as [|k' rest IH]; intros st seen Hwf Hrec Hfits; [reflexivity|].
  simpl. destruct (key_eqb k' k) eqn:E.
  - apply key_eqb_eq in E. subst k'.
    destruct (recent_hit K R key_eqb key_eqb_eq user_function maxsize
                st k seen Hwf Hrec) as (v & _ & Hcall).
    rewrite (IH _ seen).
    + rewrite Hcall. reflexivity.
    + apply call_well_formed; assumption.
    + rewrite Hcall. simpl.
      exists [], (LruCache.remove key_eqb k (entries st)), v.
      split; [reflexivity | intros u []].
    + unfold others in *. simpl in Hfits.
      rewrite (key_eqb_refl K key_eqb key_eqb_eq) in Hfits. exact Hfits.
  - apply (key_eqb_neq K key_eqb key_eqb_eq) in E.
    assert (Hothers : others K key_eqb k (k' :: rest)
                      = k' :: others K key_eqb k rest).
    { unfold others. simpl.
      apply (key_eqb_neq K key_eqb key_eqb_eq) in E. rewrite E. reflexivity. }
    rewrite Hothers in Hfits.
    rewrite (IH _ (k' :: seen)).
    + apply call_other_times. exact E.
    + apply call_well_formed; assumption.
    + apply call_other_recent; try assumption.
      eapply fits_incl; [|exact Hfits].
      intros u [<- | Hu]; apply in_or_app;
        [right; left; reflexivity | left; exact Hu].
    + eapply fits_incl; [|exact Hfits].
      intros u Hu. apply in_or_app. simpl in Hu.
      destruct Hu as [<- | Hu]; [right; left; reflexivity|].
      apply in_app_or in Hu. destruct Hu; [left | right; right]; assumption.
Qed.

Lemma others_fits (k : K) (ks : list K) :
  (List.length (distinct_others K key_eqb k ks) < maxsize)%nat ->
  fits K maxsize ([] ++ others K key_eqb k ks).
Proof.
  apply (distinct_others_fits K R key_eqb key_eqb_eq user_function maxsize).
Qed.

(** A key that is not cached and was never computed stays so until it is
    asked for; from then on it is computed once. *)
Lemma run_computes_once (k : K) (v : R) (ks : list K) :
  user_function k = Some v ->
  forall st : State K R,
    well_formed st ->
    ~ In k (keys K R (entries st)) ->
    fits K maxsize ([] ++ others K key_eqb k ks) ->
    times_computed (run st ks) k
    = (times_computed st k + (if existsb (key_eqb k) ks then 1 else 0))%nat.
Proof.
  intros Hf. induction ks as [|k' rest IH]; intros st Hwf Hout Hfits.
  - simpl. lia.
  - simpl. destruct (key_eqb k k') eqn:E.
    + apply key_eqb_eq in E. subst k'. simpl.
      assert (Hfits' : fits K maxsize ([] ++ others K key_eqb k rest)).
      { unfold others in *. simpl in Hfits.
        rewrite (key_eqb_refl K key_eqb key_eqb_eq) in Hfits. exact Hfits. }
      destruct (call_same_recent K R key_eqb key_eqb_eq user_function maxsize
                  st k v Hwf Hf) as (_ & post & Hpost).
      rewrite (run_recent_times k rest _ []).
      * unfold LruCache.times_computed, LruCache.call.
        apply (lookup_none K R key_eqb key_eqb_eq user_function) in Hout.
        rewrite Hout, Hf. simpl. rewrite times_computed_snoc.
        rewrite (key_eqb_refl K key_eqb key_eqb_eq). reflexivity.
      * apply call_well_formed; assumption.
      * exists [], post, v. split; [exact Hpost | intros u []].
      * exact Hfits'.
    + simpl. apply (key_eqb_neq K key_eqb key_eqb_eq) in E.
      assert (Hne : k' <> k) by congruence.
      rewrite IH.
      * rewrite (call_other_times st k k' Hne). reflexivity.
      * apply call_well_formed; assumption.
      * intros Hin. apply call_entries_keys in Hin.
        destruct Hin as [-> | Hin]; [apply E; reflexivity | apply Hout, Hin].
      * eapply fits_incl; [|exact Hfits].
        unfold others. simpl.
        assert (E' : key_eqb k' k = false).
        { apply (key_eqb_neq K key_eqb key_eqb_eq). exact Hne. }
        rewrite E'. simpl. intros u Hu. right. exact Hu.
Qed.

(** X1.  The cache of [compute] never holds more than [maxsize] blocks
    (128 for [lru_cache()]), never two blocks for one key, and every block
    it holds is the one the wrapped function returns for its key, a key
    that was asked for. *)
Theorem lru_cache_is_bounded_and_consistent :
  forall history : list K,
    let st := run empty history in
    (List.length (entries st) <= maxsize)%nat
    /\ NoDup (map fst (entries st))
    /\ forall k v, In (k, v) (entries st) ->
                   user_function k = Some v /\ In k history.
Proof.
  intros history st.
  assert (Hwf : well_formed st).
  { apply run_well_formed; [exact key_eqb_eq | exact maxsize_positive|].
    apply empty_well_formed. exact maxsize_positive. }
  destruct Hwf as (Hnd & Hlen & Hval).
  split; [exact Hlen|]. split; [exact Hnd|].
  intros k v Hin. split; [apply Hval, Hin|].
  assert (Hk : In k (keys K R (entries st))).
  { unfold keys. apply in_map_iff. exists (k, v). split; [reflexivity | exact Hin]. }
  apply run_entries_asked in Hk. destruct Hk as [Hk | []]. exact Hk.
Qed.

(** X2.  While a history of calls names fewer than [maxsize] distinct keys
    other than [k], the wrapped function runs on [k] exactly once if [k] is
    asked for at all (and [compute] returns on it), however often it is
    asked for; and not at all otherwise. *)
Theorem lru_cache_computes_once_within_capacity :
  forall (history : list K) (k : K) (v : R),
    user_function k = Some v ->
    (List.length (distinct_others K key_eqb k history) < maxsize)%nat ->
    times_computed (run empty history) k
    = if existsb (key_eqb k) history then 1%nat else 0%nat.
Proof.
  intros history k v Hf Hlen.
  rewrite (run_computes_once k v history Hf).
  - reflexivity.
  - apply empty_well_formed. exact maxsize_positive.
  - intros [].
  - apply others_fits. exact Hlen.
Qed.

(** X3.  A call that raises is not cached: on a key for which the wrapped
    function raises, every call raises again and runs the wrapped function
    again, so that it has run as often as the key was asked for. *)
Theorem lru_cache_does_not_cache_exceptions :
  forall (history : list K) (k : K),
    user_function k = None ->
    let st := run empty history in
    fst (call st k) = None
    /\ times_computed st k = times_asked k history
    /\ times_computed (snd (call st k)) k = S (times_asked k history).
Proof.
  intros history k Hf.
  assert (Hgen : forall ks (st : State K R),
             well_formed st ->
             times_computed (run st ks) k
             = (times_computed st k + times_asked k ks)%nat).
  { induction ks as [|k' rest IH]; intros st Hwf.
    - unfold times_asked. simpl. lia.
    - simpl. rewrite IH by (apply call_well_formed; assumption).
      unfold times_asked. simpl. destruct (key_eqb k k') eqn:E.
      + apply key_eqb_eq in E. subst k'.
        assert (Hl : LruCache.lookup key_eqb k (entries st) = None).
        { apply (lookup_none K R key_eqb key_eqb_eq user_function).
          intros Hin. unfold keys in Hin. apply in_map_iff in Hin.
          destruct Hin as ([k0 v0] & Hk & Hin). simpl in Hk. subst k0.
          destruct Hwf as (_ & _ & Hval). apply Hval in Hin. congruence. }
        unfold LruCache.times_computed, LruCache.call. rewrite Hl, Hf. simpl.
        rewrite times_computed_snoc, (key_eqb_refl K key_eqb key_eqb_eq).
        simpl. lia.
      + apply (key_eqb_neq K key_eqb key_eqb_eq) in E.
        rewrite call_other_times by congruence. lia. }
  intros st.
  assert (Hwf : well_formed st).
  { apply run_well_formed; [exact key_eqb_eq | exact maxsize_positive|].
    apply empty_well_formed. exact maxsize_positive. }
  assert (Hl : LruCache.lookup key_eqb k (entries st) = None).
  { apply (lookup_none K R key_eqb key_eqb_eq user_function).
    intros Hin. unfold keys in Hin. apply in_map_iff in Hin.
    destruct Hin as ([k0 v0] & Hk & Hin). simpl in Hk. subst k0.
    destruct Hwf as (_ & _ & Hval). apply Hval in Hin. congruence. }
  assert (Htimes : times_computed st k = times_asked k history).
  { unfold st. rewrite Hgen by (apply empty_well_formed; exact maxsize_positive).
    reflexivity. }
  split; [|split; [exact Htimes|]].
  - unfold LruCache.call. rewrite Hl, Hf. reflexivity.
  - unfold LruCache.times_computed, LruCache.call. rewrite Hl, Hf. simpl.
    rewrite times_computed_snoc, (key_eqb_refl K key_eqb key_eqb_eq).
    unfold LruCache.times_computed in Htimes. rewrite Htimes. lia.
Qed.

End Facts.

(** A wrapped function that raises on regions that start left of the
    origin. *)
Definition compute_right_of_origin (k : ComputeKey) : option Z :=
  if Nd.x (Nd.start (snd k)) <? 0 then None else Some (Nd.x (Nd.start (snd k))).

Lemma lru_cache_is_bounded_and_consistent_witness :
  let st := LruCache.run ComputeKey_eqb compute_x default_maxsize empty
              (map voxel_key (Nd.zrange 0 200)) in
  (List.length (entries st) <= default_maxsize)%nat
  /\ NoDup (map fst (entries st))
  /\ forall k v, In (k, v) (entries st) ->
                 compute_x k = Some v /\ In k (map voxel_key (Nd.zrange 0 200)).
Proof.
  exact (lru_cache_is_bounded_and_consistent ComputeKey Z ComputeKey_eqb
           ComputeKey_eqb_eq compute_x default_maxsize (Nat.lt_0_succ 127)
           (map voxel_key (Nd.zrange 0 200))).
Defined.

Lemma lru_cache_computes_once_within_capacity_witness :
  let history := map voxel_key (Nd.zrange 0 128 ++ Nd.zrange 0 128) in
  LruCache.times_computed ComputeKey_eqb
    (LruCache.run ComputeKey_eqb compute_x default_maxsize empty history)
    (voxel_key 5) = 1%nat.
Proof.
  exact (lru_cache_computes_once_within_capacity ComputeKey Z ComputeKey_eqb
           ComputeKey_eqb_eq compute_x default_maxsize (Nat.lt_0_succ 127)
           (map voxel_key (Nd.zrange 0 128 ++ Nd.zrange 0 128)) (voxel_key 5) 5
           eq_refl ltac:(vm_compute; lia)).
Defined.

Lemma lru_cache_does_not_cache_exceptions_witness :
  let history := [voxel_key (-1); voxel_key 3; voxel_key (-1)] in
  let st := LruCache.run ComputeKey_eqb compute_right_of_origin
              default_maxsize empty history in
  fst (LruCache.call ComputeKey_eqb compute_right_of_origin default_maxsize
         st (voxel_key (-1))) = None
  /\ LruCache.times_computed ComputeKey_eqb st (voxel_key (-1)) = 2%nat
  /\ LruCache.times_computed ComputeKey_eqb
       (snd (LruCache.call ComputeKey_eqb compute_right_of_origin
               default_maxsize st (voxel_key (-1))))
       (voxel_key (-1)) = 3%nat.
Proof.
  exact (lru_cache_does_not_cache_exceptions ComputeKey Z ComputeKey_eqb
           ComputeKey_eqb_eq compute_right_of_origin default_maxsize
           (Nat.lt_0_succ 127)
           [voxel_key (-1); voxel_key 3; voxel_key (-1)] (voxel_key (-1))
           eq_refl).
Defined.

End LruCacheUse.

(* ===================================================================== *)
(** * Annotation.merge *)

Module MergeFacts.
Import Nd Blocks Annotations ColorFacts.

(** The voxel [p] lies in the box of the annotation and is set in its
    mask. *)
Definition marks (an : Annotation) (p : Point5D) : bool :=
  inside (Annotation_roi an) p && data (_data an) p.

Lemma merge_loop_interval (annotations : list Annotation)
    (color_map : list (Color * Z)) :
  forall out res : Array5D Z,
    merge_loop annotations color_map out = Some res ->
    interval res = interval out.
Proof.
  induction annotations as [|an rest IH]; intros out res H; simpl in H.
  - inversion H. reflexivity.
  - destruct (color_map_get color_map (color an)) as [label|]; [|discriminate].
    apply IH in H. exact H.
Qed.

Lemma merge_loop_total (annotations : list Annotation)
    (color_map : list (Color * Z)) :
  forall out : Array5D Z,
    merge_loop annotations color_map out = None
    <-> exists an, In an annotations /\ color_map_get color_map (color an) = None.
Proof.
  induction annotations as [|an rest IH]; intros out; simpl.
  - split; [discriminate | intros (an & [] & _)].
  - destruct (color_map_get color_map (color an)) as [label|] eqn:E.
    + rewrite IH. split.
      * intros (an' & Hin & Hnone). exists an'. auto.
      * intros (an' & [<- | Hin] & Hnone); [congruence|]. exists an'. auto.
    + split; [|reflexivity]. intros _. exists an. auto.
Qed.

Lemma set_masked_colored (out : Array5D Z) (an : Annotation) (label : Z)
    (p : Point5D) :
  data (set_masked out (colored an label) 0) p
  = if marks an p && negb (label =? 0) then label else data out p.
Proof.
  unfold set_masked, colored, marks, Annotation_roi. simpl.
  destruct (inside (interval (_data an)) p); simpl; [|reflexivity].
  destruct (data (_data an) p); simpl; [|reflexivity].
  reflexivity.
Qed.

(** The annotation does not paint [p]: it does not mark it, or its label
    is the mask value 0. *)
Definition leaves (color_map : list (Color * Z)) (p : Point5D)
    (an : Annotation) : Prop :=
  marks an p = false \/ color_map_get color_map (color an) = Some 0.

Lemma merge_loop_unpainted (annotations : list Annotation)
    (color_map : list (Color * Z)) (p : Point5D) :
  forall out res : Array5D Z,
    merge_loop annotations color_map out = Some res ->
    (forall an, In an annotations -> leaves color_map p an) ->
    data res p = data out p.
Proof.
  induction annotations as [|an rest IH]; intros out res H Hleaves; simpl in H.
  - inversion H. reflexivity.
  - destruct (color_map_get color_map (color an)) as [label|] eqn:E;
      [|discriminate].
    rewrite (IH _ _ H) by (intros an' Hin; apply Hleaves; right; exact Hin).
    rewrite set_masked_colored.
    destruct (Hleaves an (or_introl eq_refl)) as [Hm | Hz].
    + rewrite Hm. reflexivity.
    + rewrite E in Hz. inversion Hz; subst label.
      rewrite andb_false_r. reflexivity.
Qed.

Lemma merge_loop_last (before after : list Annotation) (an : Annotation)
    (color_map : list (Color * Z)) (p : Point5D) (label : Z) :
  forall out res : Array5D Z,
    merge_loop (before ++ an :: after) color_map out = Some res ->
    marks an p = true ->
    color_map_get color_map (color an) = Some label -> label <> 0 ->
    (forall an', In an' after -> leaves color_map p an') ->
    data res p = label.
Proof.
  induction before as [|b rest IH]; intros out res H Hm Hl Hnz Hafter;
    simpl in H.
  - rewrite Hl in H.
    rewrite (merge_loop_unpainted _ _ p _ _ H Hafter).
    rewrite set_masked_colored, Hm.
    apply Z.eqb_neq in Hnz. rewrite Hnz. reflexivity.
  - destruct (color_map_get color_map (color b)) as [lb|]; [|discriminate].
    apply (IH _ _ H Hm Hl Hnz Hafter).
Qed.

(** Among the annotations that mark a voxel there is a last one. *)
Lemma last_marker (annotations : list Annotation) (p : Point5D) :
  (exists an, In an annotations /\ marks an p = true) ->
  exists before an after,
    annotations = before ++ an :: after
    /\ marks an p = true
    /\ forall an', In an' after -> marks an' p = false.
Proof.
  induction annotations as [|h rest IH]; intros (an & Hin & Hm);
    [destruct Hin|].
  destruct (existsb (fun an' => marks an' p) rest) eqn:E.
  - apply existsb_exists in E. destruct (IH E) as (before & an' & after & -> & Hm' & Hafter).
    exists (h :: before), an', after. auto.
  - assert (Hrest : forall an', In an' rest -> marks an' p = false).
    { intros an' Hin'. destruct (marks an' p) eqn:E'; [|reflexivity].
      assert (existsb (fun an' => marks an' p) rest = true)
        by (apply existsb_exists; eauto).
      congruence. }
    destruct Hin as [<- | Hin].
    + exists [], h, rest. auto.
    + rewrite (Hrest an Hin) in Hm. discriminate.
Qed.

(** X4.  [Annotation.merge] with a given, non-empty color map.  What
    [Slice5D.enclosing] does for no box at all is left open
    ([enclosing_nothing]); for every such behaviour, [merge] raises exactly
    when [Slice5D.enclosing] does or the color of some annotation is not a
    key of the map.  Otherwise the result has the box that
    [Slice5D.enclosing] gives for the annotations, for a non-empty list
    their enclosing box; a voxel that no annotation paints holds 0; and a
    voxel marked by an annotation whose label is not 0 holds that label
    unless an annotation later in the list paints it: later annotations
    win. *)
Theorem merge_paints_the_last_annotation :
  forall (enclosing_nothing : option Interval5D)
         (annotations : list Annotation) (item : Color * Z)
         (items : list (Color * Z)),
    let color_map := item :: items in
    (merge enclosing_nothing annotations (Some color_map) = None
     <-> enclosing_all enclosing_nothing (map Annotation_roi annotations)
         = None
         \/ exists an, In an annotations
                       /\ color_map_get color_map (color an) = None)
    /\ (forall first others,
          annotations = first :: others ->
          enclosing_all enclosing_nothing (map Annotation_roi annotations)
          = Some (enclosing (Annotation_roi first)
                            (map Annotation_roi others)))
    /\ forall res : Array5D Z,
         merge enclosing_nothing annotations (Some color_map) = Some res ->
         enclosing_all enclosing_nothing (map Annotation_roi annotations)
         = Some (interval res)
         /\ forall p : Point5D,
              ((forall an, In an annotations -> leaves color_map p an) ->
               data res p = 0)
              /\ forall before an after label,
                   annotations = before ++ an :: after ->
                   marks an p = true ->
                   color_map_get color_map (color an) = Some label ->
                   label <> 0 ->
                   (forall an', In an' after -> leaves color_map p an') ->
                   data res p = label.
Proof.
  intros enclosing_nothing annotations item items color_map.
  unfold merge. fold color_map.
  destruct (enclosing_all enclosing_nothing (map Annotation_roi annotations))
    as [out_roi|] eqn:Hroi.
  - split; [|split].
    + rewrite merge_loop_total. split.
      * intros H. right. exact H.
      * intros [H | H]; [discriminate H | exact H].
    + intros first others Heq. rewrite Heq in Hroi. simpl in Hroi.
      symmetry. exact Hroi.
    + intros res H. split.
      * apply merge_loop_interval in H. simpl in H. rewrite H. reflexivity.
      * intros p. split.
        -- intros Hleaves.
           rewrite (merge_loop_unpainted _ _ p _ _ H Hleaves). reflexivity.
        -- intros before an after label Heq Hm Hl Hnz Hafter.
           rewrite Heq in H.
           apply (merge_loop_last before after an color_map p label _ _ H
                    Hm Hl Hnz Hafter).
  - split; [|split].
    + split; [intros _; left; reflexivity | reflexivity].
    + intros first others Heq. rewrite Heq in Hroi. simpl in Hroi.
      discriminate Hroi.
    + intros res H. discriminate H.
Qed.

(** X5.  [Annotation.merge] without a color map, on a non-empty list of
    annotations with at most 255 distinct colors, always returns.  A voxel
    of the result is 0 exactly when no annotation marks it; a marked voxel
    holds the label that [create_color_map] gives to the color of the last
    annotation of the list that marks it, a number between 1 and 255. *)
Theorem merge_labels_every_marked_voxel :
  forall (enclosing_nothing : option Interval5D)
         (annotations : list Annotation),
    annotations <> [] ->
    (List.length (py_set (map color annotations)) <= 255)%nat ->
    exists res : Array5D Z,
      merge enclosing_nothing annotations None = Some res
      /\ forall p : Point5D,
           (data res p = 0
            <-> forall an, In an annotations -> marks an p = false)
           /\ forall before an after,
                annotations = before ++ an :: after ->
                marks an p = true ->
                (forall an', In an' after -> marks an' p = false) ->
                color_map_get (create_color_map (map color annotations))
                              (color an) = Some (data res p)
                /\ 1 <= data res p <= 255.
Proof.
  intros enclosing_nothing annotations Hne Hn.
  destruct annotations as [|first others]; [congruence|].
  set (all := first :: others) in *.
  set (color_map := create_color_map (map color all)).
  assert (Hlabel : forall an, In an all ->
            exists label, color_map_get color_map (color an) = Some label
                          /\ 1 <= label <= 255).
  { intros an Hin.
    destruct (create_color_map_position (map color all) (color an))
      as (i & ci & Hi & _ & _ & Hget); [apply in_map; exact Hin|].
    exists (uint8 (Z.of_nat i + 1)). split; [exact Hget|].
    rewrite uint8_small by lia. lia. }
  set (out := allocate (enclosing (Annotation_roi first)
                                  (map Annotation_roi others)) 0).
  assert (Hrun : merge enclosing_nothing all None
                 = merge_loop all color_map out) by reflexivity.
  destruct (merge_loop all color_map out) as [res|] eqn:Hres.
  2:{ exfalso. apply merge_loop_total in Hres.
      destruct Hres as (an & Hin & Hnone).
      destruct (Hlabel an Hin) as (label & Hl & _). congruence. }
  exists res. split; [exact Hrun|].
  assert (Hlast : forall p before an after,
            all = before ++ an :: after ->
            marks an p = true ->
            (forall an', In an' after -> marks an' p = false) ->
            color_map_get color_map (color an) = Some (data res p)
            /\ 1 <= data res p <= 255).
  { intros p before an after Heq Hm Hafter.
    assert (Hin : In an all).
    { rewrite Heq. apply in_or_app. right. left. reflexivity. }
    destruct (Hlabel an Hin) as (label & Hl & Hrange).
    assert (Hp : data res p = label).
    { rewrite Heq in Hres.
      apply (merge_loop_last before after an color_map p label _ _ Hres Hm Hl).
      - lia.
      - intros an' Hin'. left. apply Hafter, Hin'. }
    rewrite Hp. split; [exact Hl | exact Hrange]. }
  intros p. split; [split|].
  - intros Hzero an Hin. destruct (marks an p) eqn:Hm; [|reflexivity].
    exfalso.
    destruct (last_marker all p) as (before & an' & after & Heq & Hm' & Hafter);
      [exists an; auto|].
    destruct (Hlast p before an' after Heq Hm' Hafter) as [_ Hrange]. lia.
  - intros Hnone.
    rewrite (merge_loop_unpainted _ _ p _ _ Hres); [reflexivity|].
    intros an Hin. left. apply Hnone, Hin.
  - apply Hlast.
Qed.

(** Two annotations over the same two voxels: the first marks both, the
    second only the voxel at [x = 1]. *)
Definition two_voxels (col : Color) (mask : Point5D -> bool) : Annotation :=
  mkAnnotation (mkArray5D (to_interval5d (mkPoint5D 2 1 1 1 1)) mask) col
               (mkDataSource (to_interval5d (mkPoint5D 2 1 1 1 1)) shape_ones).

Definition both_voxels : Annotation := two_voxels (red 9) (fun _ => true).
Definition right_voxel : Annotation := two_voxels (red 2) (fun p => x p =? 1).

Lemma merge_labels_every_marked_voxel_witness :
  exists res : Array5D Z,
    merge None [both_voxels; right_voxel] None = Some res
    /\ forall p : Point5D,
         (data res p = 0
          <-> forall an, In an [both_voxels; right_voxel] -> marks an p = false)
         /\ forall before an after,
              [both_voxels; right_voxel] = before ++ an :: after ->
              marks an p = true ->
              (forall an', In an' after -> marks an' p = false) ->
              color_map_get
                (create_color_map (map color [both_voxels; right_voxel]))
                (color an) = Some (data res p)
              /\ 1 <= data res p <= 255.
Proof.
  apply (merge_labels_every_marked_voxel None [both_voxels; right_voxel]).
  - discriminate.
  - vm_compute. lia.
Defined.

(** The merged block of the two annotations: label 2 for the first color
    at [x = 0], label 1 for the second, which is painted later, at
    [x = 1]. *)
Example merge_two_annotations :
  option_map (fun res => (data res (mkPoint5D 0 0 0 0 0),
                          data res (mkPoint5D 1 0 0 0 0)))
             (merge None [both_voxels; right_voxel] None)
  = Some (2, 1).
Proof. vm_compute. reflexivity. Qed.

End MergeFacts.

(* ===================================================================== *)
(** * Building colors and scribblings *)

Module ColorInitFacts.
Import Annotations ColorInit.

(** X6.  [Color.from_channels] returns a color only for exactly four
    channels, which become r, g, b and a.  No channel or more than four
    raise [ValueError]; one channel (the branch for a grey value builds an
    array of one element), two and three raise [IndexError]. *)
Theorem from_channels_needs_four_channels :
  forall (label_of : Z * Z * Z * Z -> string) (scaled_plus_255 : Z -> Z)
         (channels : list Z) (name : string),
    let result := from_channels label_of scaled_plus_255 channels name in
    (forall col, result = inr col ->
       channels = [r col; g col; b col; a col])
    /\ (List.length channels = 4%nat <-> exists col, result = inr col)
    /\ (result = inl ValueError
        <-> List.length channels = 0%nat \/ (4 < List.length channels)%nat)
    /\ (result = inl IndexError
        <-> (1 <= List.length channels <= 3)%nat).
Proof.
  intros label_of scaled channels name result. unfold result, from_channels.
  destruct channels as [|c0 [|c1 [|c2 [|c3 [|c4 more]]]]]; simpl.
  - split; [discriminate|]. split; [split; [discriminate | intros [? ?]; discriminate]|].
    split; [split; auto | split; [discriminate | lia]].
  - split; [discriminate|]. split; [split; [discriminate | intros [? ?]; discriminate]|].
    split; [split; [discriminate | lia] | split; [lia | reflexivity]].
  - split; [discriminate|]. split; [split; [discriminate | intros [? ?]; discriminate]|].
    split; [split; [discriminate | lia] | split; [lia | reflexivity]].
  - split; [discriminate|]. split; [split; [discriminate | intros [? ?]; discriminate]|].
    split; [split; [discriminate | lia] | split; [lia | reflexivity]].
  - split; [intros col H; inversion H; reflexivity|].
    split; [split; [eauto | reflexivity]|].
    split; [split; [discriminate | lia] | split; [discriminate | lia]].
  - split; [discriminate|]. split; [split; [discriminate | intros [? ?]; discriminate]|].
    split; [split; [intros _; right; lia | reflexivity] | split; [discriminate | lia]].
Qed.

End ColorInitFacts.

Module ScribblingFacts.
Import Nd Blocks Annotations Scribblings NdFacts.

Lemma get_pmin (p q : Point5D) (k : Axis) :
  get (pmin p q) k = Z.min (get p k) (get q k).
Proof. destruct k; reflexivity. Qed.

Lemma get_pmax (p q : Point5D) (k : Axis) :
  get (pmax p q) k = Z.max (get p k) (get q k).
Proof. destruct k; reflexivity. Qed.

Lemma get_padd (p q : Point5D) (k : Axis) :
  get (padd p q) k = get p k + get q k.
Proof. destruct k; reflexivity. Qed.

Lemma min_coords_le (rest : list Point5D) :
  forall (first : Point5D) (k : Axis),
    get (min_coords first rest) k <= get first k
    /\ forall v, In v rest -> get (min_coords first rest) k <= get v k.
Proof.
  unfold min_coords.
  induction rest as [|h rest IH]; intros first k; simpl.
  - split; [lia | intros v []].
  - destruct (IH (pmin first h) k) as [H1 H2]. rewrite get_pmin in H1.
    split; [lia|]. intros v [<- | Hin]; [lia | apply H2, Hin].
Qed.

Lemma min_coords_attained (rest : list Point5D) :
  forall (first : Point5D) (k : Axis),
    exists v, In v (first :: rest) /\ get (min_coords first rest) k = get v k.
Proof.
  unfold min_coords.
  induction rest as [|h rest IH]; intros first k; simpl.
  - exists first. auto.
  - destruct (IH (pmin first h) k) as (v & [<- | Hin] & Hv).
    + rewrite get_pmin in Hv.
      destruct (Z.min_spec (get first k) (get h k)) as [[_ E] | [_ E]];
        rewrite E in Hv; [exists first | exists h]; auto.
    + exists v. auto.
Qed.

Lemma max_coords_ge (rest : list Point5D) :
  forall (first : Point5D) (k : Axis),
    get first k <= get (max_coords first rest) k
    /\ forall v, In v rest -> get v k <= get (max_coords first rest) k.
Proof.
  unfold max_coords.
  induction rest as [|h rest IH]; intros first k; simpl.
  - split; [lia | intros v []].
  - destruct (IH (pmax first h) k) as [H1 H2]. rewrite get_pmax in H1.
    split; [lia|]. intros v [<- | Hin]; [lia | apply H2, Hin].
Qed.

Lemma max_coords_attained (rest : list Point5D) :
  forall (first : Point5D) (k : Axis),
    exists v, In v (first :: rest) /\ get (max_coords first rest) k = get v k.
Proof.
  unfold max_coords.
  induction rest as [|h rest IH]; intros first k; simpl.
  - exists first. auto.
  - destruct (IH (pmax first h) k) as (v & [<- | Hin] & Hv).
    + rewrite get_pmax in Hv.
      destruct (Z.max_spec (get first k) (get h k)) as [[_ E] | [_ E]];
        rewrite E in Hv; [exists h | exists first]; auto.
    + exists v. auto.
Qed.

(** The box of the scribbling: from the smallest coordinates to one past
    the largest. *)
Definition bounding_box (first : Point5D) (rest : list Point5D) : Interval5D :=
  mkInterval5D (min_coords first rest) (padd (max_coords first rest) shape_ones).

Lemma bounding_box_inside (first : Point5D) (rest : list Point5D) (v : Point5D) :
  In v (first :: rest) -> inside (bounding_box first rest) v = true.
Proof.
  intros Hin. apply inside_true. intros k. unfold bounding_box. simpl.
  rewrite get_padd.
  destruct (min_coords_le rest first k) as [Hm1 Hm2].
  destruct (max_coords_ge rest first k) as [HM1 HM2].
  assert (H1 : get shape_ones k = 1) by (destruct k; reflexivity).
  destruct Hin as [<- | Hin].
  - lia.
  - specialize (Hm2 v Hin). specialize (HM2 v Hin). lia.
Qed.

Lemma bounding_box_contained (outer : Interval5D) (first : Point5D)
    (rest : list Point5D) :
  contains outer (bounding_box first rest) = true
  <-> forall v, In v (first :: rest) -> inside outer v = true.
Proof.
  rewrite contains_true. split.
  - intros H v Hin. apply inside_true. intros k.
    pose proof (bounding_box_inside first rest v Hin) as Hv.
    rewrite inside_true in Hv. specialize (Hv k). specialize (H k).
    unfold bounding_box in *. simpl in *.
    rewrite get_padd in *.
    assert (H1 : get shape_ones k = 1) by (destruct k; reflexivity).
    lia.
  - intros H k. unfold bounding_box. simpl. rewrite get_padd.
    assert (H1 : get shape_ones k = 1) by (destruct k; reflexivity).
    destruct (min_coords_attained rest first k) as (v & Hv & ->).
    destruct (max_coords_attained rest first k) as (w & Hw & ->).
    pose proof (H v Hv) as Hiv. pose proof (H w Hw) as Hiw.
    rewrite inside_true in Hiv, Hiw.
    specialize (Hiv k). specialize (Hiw k). lia.
Qed.

Lemma bounding_box_one_channel (first : Point5D) (rest : list Point5D) :
  c (shape (bounding_box first rest)) = 1
  <-> forall v, In v rest -> c v = c first.
Proof.
  unfold bounding_box, shape. simpl.
  destruct (min_coords_le rest first AxC) as [Hm1 Hm2].
  destruct (max_coords_ge rest first AxC) as [HM1 HM2].
  simpl in *. split.
  - intros H v Hin. specialize (Hm2 v Hin). specialize (HM2 v Hin). lia.
  - intros H.
    destruct (min_coords_attained rest first AxC) as (v & Hv & Ev).
    destruct (max_coords_attained rest first AxC) as (w & Hw & Ew).
    simpl in *.
    assert (c v = c first) by (destruct Hv as [<- | Hv]; [reflexivity | apply H, Hv]).
    assert (c w = c first) by (destruct Hw as [<- | Hw]; [reflexivity | apply H, Hw]).
    lia.
Qed.

(** X7.  [Annotation.interpolate_from_points] on a non-empty list of
    voxels raises [ValueError] exactly when two of the voxels lie in
    different channels.  Otherwise the annotation's box is the bounding box
    of the voxels, it holds every voxel, and the call raises
    [AnnotationOutOfBounds] exactly when some voxel lies outside the data
    source. *)
Theorem interpolate_from_points_bounds :
  forall (interpolate_until : Point5D -> Point5D -> list Point5D)
         (col : Color) (first : Point5D) (rest : list Point5D)
         (raw : DataSource),
    let voxels := first :: rest in
    let result := interpolate_from_points interpolate_until col voxels raw in
    (result = inl SpansChannels <-> exists v, In v rest /\ c v <> c first)
    /\ (result = inl (OutOfBounds (AnnotationOutOfBounds
                                     (bounding_box first rest) raw))
        <-> (forall v, In v rest -> c v = c first)
            /\ exists v, In v voxels /\ inside (ds_roi raw) v = false)
    /\ ((exists an, result = inr an)
        <-> (forall v, In v rest -> c v = c first)
            /\ forall v, In v voxels -> inside (ds_roi raw) v = true)
    /\ forall an, result = inr an ->
         Annotation_roi an = bounding_box first rest
         /\ color an = col /\ raw_data an = raw
         /\ forall v, In v voxels -> inside (Annotation_roi an) v = true.
Proof.
  intros interpolate_until col first rest raw voxels result.
  assert (Hroi : translated (to_interval5d (shape (bounding_box first rest)))
                            (min_coords first rest)
                 = bounding_box first rest).
  { unfold bounding_box, translated, to_interval5d, shape. simpl.
    f_equal.
    - apply padd_zero_l.
    - destruct (min_coords first rest), (max_coords first rest).
      unfold padd, psub, pointwise. simpl. f_equal; lia. }
  assert (Hchan : (exists v, In v rest /\ c v <> c first)
                  <-> c (shape (bounding_box first rest)) <> 1).
  { rewrite bounding_box_one_channel. split.
    - intros (v & Hin & Hne) H. apply Hne, H, Hin.
    - intros H.
      destruct (forallb (fun v => c v =? c first) rest) eqn:E.
      + exfalso. apply H. intros v Hin.
        rewrite forallb_forall in E. apply Z.eqb_eq, E, Hin.
      + assert (Hex : existsb (fun v => negb (c v =? c first)) rest = true).
        { clear -E. induction rest as [|h rest IH]; simpl in *; [discriminate|].
          destruct (c h =? c first); simpl in *; [apply IH, E | reflexivity]. }
        apply existsb_exists in Hex. destruct Hex as (v & Hin & Hv).
        exists v. split; [exact Hin|].
        apply negb_true_iff, Z.eqb_neq in Hv. exact Hv. }
  assert (Hout : (exists v, In v voxels /\ inside (ds_roi raw) v = false)
                 <-> contains (ds_roi raw) (bounding_box first rest) = false).
  { split.
    - intros (v & Hin & Hv).
      destruct (contains (ds_roi raw) (bounding_box first rest)) eqn:E;
        [|reflexivity].
      rewrite bounding_box_contained in E. rewrite (E v Hin) in Hv.
      discriminate.
    - intros H.
      destruct (forallb (inside (ds_roi raw)) voxels) eqn:E.
      + rewrite forallb_forall in E.
        apply bounding_box_contained in E. congruence.
      + assert (Hex : existsb (fun v => negb (inside (ds_roi raw) v)) voxels
                      = true).
        { clear -E. induction voxels as [|h l IH]; simpl in *; [discriminate|].
          destruct (inside (ds_roi raw) h); simpl in *;
            [apply IH, E | reflexivity]. }
        apply existsb_exists in Hex. destruct Hex as (v & Hin & Hv).
        exists v. split; [exact Hin|]. apply negb_true_iff in Hv. exact Hv. }
  assert (Hsame : (forall v, In v rest -> c v = c first)
                  <-> c (shape (bounding_box first rest)) = 1).
  { symmetry. apply bounding_box_one_channel. }
  assert (Hin_all : (forall v, In v voxels -> inside (ds_roi raw) v = true)
                    <-> contains (ds_roi raw) (bounding_box first rest) = true).
  { symmetry. apply bounding_box_contained. }
  rewrite Hchan, Hout, Hsame, Hin_all.
  unfold result, voxels, interpolate_from_points.
  fold (bounding_box first rest).
  destruct (c (shape (bounding_box first rest)) =? 1) eqn:Ec; cbn [negb].
  - apply Z.eqb_eq in Ec. unfold Annotation_init. cbn [interval].
    rewrite Hroi.
    destruct (contains (ds_roi raw) (bounding_box first rest)) eqn:Econt;
      cbn [negb].
    + split; [split; [discriminate | intros H; exfalso; apply H, Ec]|].
      split; [split; [discriminate | intros [_ H]; discriminate]|].
      split; [split; [intros _; split; [exact Ec | reflexivity] | eauto]|].
      intros an H. inversion H; subst an. unfold Annotation_roi. simpl.
      repeat split. intros v Hin. apply bounding_box_inside. exact Hin.
    + split; [split; [discriminate | intros H; exfalso; apply H, Ec]|].
      split; [split; [intros _; split; [exact Ec | reflexivity] | reflexivity]|].
      split; [split; [intros [an H]; discriminate | intros [_ H]; discriminate]|].
      intros an H. discriminate.
  - apply Z.eqb_neq in Ec.
    split; [split; [intros _; exact Ec | reflexivity]|].
    split; [split; [discriminate | intros [H _]; exfalso; apply Ec, H]|].
    split; [split; [intros [an H]; discriminate
                   | intros [H _]; exfalso; apply Ec, H]|].
    intros an H. discriminate.
Qed.

End ScribblingFacts.

(* ===================================================================== *)
(** * request and request_size *)

Module RequestSizeFacts.
Import Request RequestSize.

Local Open Scope string_scope.

Lemma text_prefix_length (s : string) (n : nat) :
  (String.length (text_prefix s n) <= n)%nat.
Proof.
  unfold text_prefix. revert s. induction n as [|n IH]; intros s.
  - destruct s; simpl; lia.
  - destruct s as [|ch rest]; simpl; [lia|]. specialize (IH rest). lia.
Qed.

Lemma text_prefix_prefix (s : string) (n : nat) :
  String.prefix (text_prefix s n) s = true.
Proof.
  unfold text_prefix. revert s. induction n as [|n IH]; intros s.
  - destruct s; reflexivity.
  - destruct s as [|ch rest]; simpl; [reflexivity|].
    destruct (ascii_dec ch ch) as [_|Hne]; [apply IH | congruence].
Qed.

Lemma text_prefix_short (s : string) (n : nat) :
  (String.length s <= n)%nat -> text_prefix s n = s.
Proof.
  unfold text_prefix. revert s. induction n as [|n IH]; intros s Hlen.
  - destruct s; simpl in *; [reflexivity | lia].
  - destruct s as [|ch rest]; simpl in *; [reflexivity|].
    f_equal. apply IH. lia.
Qed.

Lemma slice_to_firstn {A : Type} (l : list A) (n : Z) :
  exists k : nat, slice_to l n = firstn k l.
Proof.
  unfold slice_to. destruct (0 <=? n)%Z; eauto.
Qed.

(** The headers that [request] sends. *)
Definition sent_headers (offset : Z) (num_bytes : option Z)
    (hdrs : option (list (string * string))) : list (string * string) :=
  with_header (match hdrs with Some h => h | None => [] end)
              "Range" (range_header_value offset num_bytes).

(** X8.  [request] calls the session once and sorts the outcome in three:
    an exception of the session gives [ErrRequestCrashed]; a response that
    is not ok gives [ErrRequestCompletedAsFailure] with the status, the
    headers and the first 1000 characters at most of the response text; an
    ok response gives the response headers and a leading part of the
    response body, for every [num_bytes], negative ones too. *)
Theorem request_sorts_the_response :
  forall (session_request : Method -> string -> option (list byte) ->
                            list (string * string) -> option Response)
         (method : Method) (url : string) (data : option (list byte))
         (offset : Z) (num_bytes : option Z)
         (hdrs : option (list (string * string))),
    let outcome :=
      request session_request method url data offset num_bytes hdrs in
    match session_request method url data
            (sent_headers offset num_bytes hdrs) with
    | None => outcome = ErrRequestCrashed
    | Some response =>
        if ok response then
          exists k : nat,
            outcome = Returned (firstn k (content response)) (headers response)
            /\ (num_bytes = None -> firstn k (content response) = content response)
        else
          exists shown : string,
            outcome = ErrRequestCompletedAsFailure (status_code response) shown
                        url (headers response)
            /\ (String.length shown <= 1000)%nat
            /\ String.prefix shown (text response) = true
            /\ ((String.length (text response) <= 1000)%nat ->
                shown = text response)
    end.
Proof.
  intros session_request method url data offset num_bytes hdrs outcome.
  unfold outcome, request, sent_headers.
  destruct (session_request method url data _) as [response|];
    [|reflexivity].
  destruct (ok response); simpl.
  - destruct num_bytes as [n|].
    + destruct (slice_to_firstn (content response) n) as [k Hk].
      exists k. rewrite Hk. split; [reflexivity | discriminate].
    + exists (List.length (content response)).
      rewrite firstn_all. split; reflexivity.
  - exists (text_prefix (text response) 1000).
    split; [reflexivity|]. split; [apply text_prefix_length|].
    split; [apply text_prefix_prefix | apply text_prefix_short].
Qed.

(** [headers[key]] on the items of a dict. *)
Fixpoint header (hs : list (string * string)) (key : string) : option string :=
  match hs with
  | [] => None
  | (k, v) :: rest => if String.eqb k key then Some v else header rest key
  end.

Lemma with_header_same (hs : list (string * string)) (key value : string) :
  header (with_header hs key value) key = Some value.
Proof.
  induction hs as [|[k v] rest IH]; simpl.
  - rewrite String.eqb_refl. reflexivity.
  - destruct (String.eqb k key) eqn:E; simpl; rewrite E; [reflexivity | exact IH].
Qed.

Lemma with_header_other (hs : list (string * string)) (key value other : string) :
  other <> key ->
  header (with_header hs key value) other = header hs other.
Proof.
  intros Hne. induction hs as [|[k v] rest IH]; simpl.
  - apply String.eqb_neq in Hne. rewrite String.eqb_sym, Hne. reflexivity.
  - destruct (String.eqb k key) eqn:E; simpl.
    + apply String.eqb_eq in E. subst k.
      apply String.eqb_neq in Hne. rewrite String.eqb_sym, Hne. reflexivity.
    + destruct (String.eqb k other); [reflexivity | exact IH].
Qed.

Lemma with_header_keys (hs : list (string * string)) (key value : string) :
  map fst (with_header hs key value)
  = if existsb (String.eqb key) (map fst hs) then map fst hs
    else (map fst hs ++ [key])%list.
Proof.
  induction hs as [|[k v] rest IH]; simpl; [reflexivity|].
  rewrite (String.eqb_sym key k).
  destruct (String.eqb k key) eqn:E; simpl; [reflexivity|].
  rewrite IH. destruct (existsb (String.eqb key) (map fst rest)); reflexivity.
Qed.

(** X23.  The headers that [request] hands to the session are the
    caller's headers with the Range header of the request: a Range header
    of the caller is replaced, every header under another key is passed on
    with its value, a key "range" in small letters too, and no key is sent
    twice when the caller's keys are distinct.  The outcome of [request]
    depends on the session only through its answer to these headers. *)
Theorem request_sends_its_own_range_header :
  forall (method : Method) (url : string) (data : option (list byte))
         (offset : Z) (num_bytes : option Z)
         (hdrs : option (list (string * string))),
    let given := match hdrs with Some h => h | None => [] end in
    let sent := sent_headers offset num_bytes hdrs in
    header sent "Range" = Some (range_header_value offset num_bytes)
    /\ (forall key, key <> "Range" -> header sent key = header given key)
    /\ header sent "range" = header given "range"
    /\ (NoDup (map fst given) -> NoDup (map fst sent))
    /\ forall session session' :
               Method -> string -> option (list byte) ->
               list (string * string) -> option Response,
         session method url data sent = session' method url data sent ->
         request session method url data offset num_bytes hdrs
         = request session' method url data offset num_bytes hdrs.
Proof.
  intros method url data offset num_bytes hdrs given sent.
  unfold sent, sent_headers. fold given.
  split; [apply with_header_same|].
  split; [intros key Hne; apply with_header_other; exact Hne|].
  split; [apply with_header_other; discriminate|].
  split.
  - intros Hnd. rewrite with_header_keys.
    destruct (existsb (String.eqb "Range") (map fst given)) eqn:E;
      [exact Hnd|].
    apply NoDup_app; [exact Hnd | repeat constructor; intros [] |].
    intros k Hin Hk. destruct Hk as [Hk | []]. subst k.
    assert (existsb (String.eqb "Range") (map fst given) = true).
    { apply existsb_exists. exists "Range".
      split; [exact Hin | apply String.eqb_refl]. }
    congruence.
  - intros session session' Hsame. unfold request. fold given.
    rewrite Hsame. reflexivity.
Qed.

(** X9.  [request_size] asks for the first byte only (a GET with Range
    "bytes=0-0") and its answer depends on nothing but the response to
    that request.  A failure of the request is returned as it is.  When
    the response has a Content-Length header, in any letter case, the size
    is that number, whatever Content-Range says; the total of
    Content-Range, the digits after its last slash, is used only when there
    is no Content-Length. *)
Theorem request_size_prefers_content_length :
  forall (session_request : Method -> string -> option (list byte) ->
                            list (string * string) -> option Response)
         (int : string -> option Z) (isdigit : string -> bool)
         (url : string) (hdrs : option (list (string * string))),
    let size := request_size session_request int isdigit url hdrs in
    match session_request get url None (sent_headers 0 (Some 1%Z) hdrs) with
    | None => size = Failed ErrRequestCrashed
    | Some response =>
        if ok response then
          match ci_get (headers response) "content-length" with
          | Some content_length =>
              size = match int content_length with
                     | Some n => Size n
                     | None => ErrBadContentLength
                     end
          | None =>
              (forall n, size = Size n ->
                 exists content_range,
                   ci_get (headers response) "content-range"
                     = Some content_range
                   /\ has_slash content_range = true
                   /\ isdigit (last_field content_range) = true
                   /\ int (last_field content_range) = Some n)
              /\ size <> Failed ErrRequestCrashed
          end
        else
          exists shown,
            size = Failed (ErrRequestCompletedAsFailure (status_code response)
                             shown url (headers response))
    end
    /\ range_header_value 0 (Some 1%Z) = "bytes=0-0".
Proof.
  intros session_request int isdigit url hdrs size.
  split; [|reflexivity].
  unfold size, request_size, request, sent_headers.
  destruct (session_request get url None _) as [response|]; [|reflexivity].
  destruct (ok response); simpl; [|eauto].
  destruct (ci_get (headers response) "content-length") as [cl|];
    [reflexivity|].
  destruct (ci_get (headers response) "content-range") as [cr|].
  - destruct (has_slash cr) eqn:Hs.
    + destruct (isdigit (last_field cr)) eqn:Hd.
      * destruct (int (last_field cr)) as [m|] eqn:Hi.
        -- split; [|discriminate]. intros n H. inversion H; subst m.
           exists cr. auto.
        -- split; [intros n H; discriminate | discriminate].
      * split; [intros n H; discriminate | discriminate].
    + split; [intros n H; discriminate | discriminate].
  - split; [intros n H; discriminate | discriminate].
Qed.

(** A server that honours the Range header answers the one-byte request
    with status 206, a Content-Length of 1 and the total size in
    Content-Range: [request_size] then returns 1, not the total. *)
Definition partial_response : Response :=
  mkResponse true 206 "" [Byte.x00]
             [("Content-Length", "1"); ("Content-Range", "bytes 0-0/12345")].

(** [int] and [isdigit] on strings of ASCII digits. *)
Definition ascii_int (s : string) : option Z :=
  match s with
  | EmptyString => None
  | _ => option_map (fun u => Z.of_N (N.of_uint u)) (NilZero.uint_of_string s)
  end.

Definition ascii_isdigit (s : string) : bool :=
  match ascii_int s with Some _ => true | None => false end.

Example request_size_of_a_partial_response :
  request_size (fun _ _ _ _ => Some partial_response) ascii_int ascii_isdigit
               "data-proxy.example/object" None
  = Size 1
  /\ option_map last_field (ci_get (headers partial_response) "content-range")
     = Some "12345".
Proof. split; reflexivity. Qed.

End RequestSizeFacts.

(* ===================================================================== *)
(** * The two process-pool backends paint the same predictions *)

Module BackendFacts.
Import Nd Blocks Orchestration OrchestrationFacts.

Section Painting.
Context {V : Type}.

(** The last block of a list that holds the voxel [p]. *)
Definition last_covering (results : list (Array5D V)) (p : Point5D)
  : option (Array5D V) :=
  find (fun b => inside (interval b) p) (rev results).

Lemma find_app {A : Type} (f : A -> bool) (l1 l2 : list A) :
  find f (l1 ++ l2) = match find f l1 with
                      | Some u => Some u
                      | None => find f l2
                      end.
Proof.
  induction l1 as [|h rest IH]; simpl; [reflexivity|].
  destruct (f h); [reflexivity | exact IH].
Qed.

(** After a sequence of [set]s a voxel holds what the last block over it
    holds. *)
Lemma fold_set_last (results : list (Array5D V)) :
  forall (acc : Array5D V) (p : Point5D),
    data (fold_left set results acc) p
    = match last_covering results p with
      | Some b => data b p
      | None => data acc p
      end.
Proof.
  unfold last_covering.
  induction results as [|h rest IH]; intros acc p; simpl; [reflexivity|].
  rewrite IH, find_app. destruct (find _ (rev rest)); [reflexivity|].
  simpl. unfold set, write_through. simpl.
  destruct (inside (interval h) p); reflexivity.
Qed.

(** Blocks agree wherever two of them overlap. *)
Definition agree (results : list (Array5D V)) : Prop :=
  forall b1 b2 p,
    In b1 results -> In b2 results ->
    inside (interval b1) p = true -> inside (interval b2) p = true ->
    data b1 p = data b2 p.

Lemma fold_set_covered (results : list (Array5D V)) (acc b : Array5D V)
    (p : Point5D) :
  agree results -> In b results -> inside (interval b) p = true ->
  data (fold_left set results acc) p = data b p.
Proof.
  intros Hagree Hin Hp. rewrite fold_set_last. unfold last_covering.
  destruct (find _ (rev results)) as [b'|] eqn:E.
  - apply find_some in E. destruct E as [Hin' Hp'].
    apply Hagree; [apply in_rev; exact Hin' | exact Hin | exact Hp' | exact Hp].
  - exfalso. apply in_rev in Hin. apply (find_none _ _ E b) in Hin.
    simpl in Hin. congruence.
Qed.

Lemma fold_set_uncovered (results : list (Array5D V)) (acc : Array5D V)
    (p : Point5D) :
  (forall b, In b results -> inside (interval b) p = false) ->
  data (fold_left set results acc) p = data acc p.
Proof.
  intros Hout. rewrite fold_set_last. unfold last_covering.
  destruct (find _ (rev results)) as [b'|] eqn:E; [|reflexivity].
  apply find_some in E. destruct E as [Hin' Hp'].
  apply in_rev in Hin'. rewrite (Hout b' Hin') in Hp'. discriminate.
Qed.

(** Painting agreeing blocks in another order gives the same voxels. *)
Lemma fold_set_perm (results results' : list (Array5D V)) (acc : Array5D V)
    (p : Point5D) :
  agree results -> Permutation results results' ->
  data (fold_left set results acc) p = data (fold_left set results' acc) p.
Proof.
  intros Hagree Hperm.
  assert (Hagree' : agree results').
  { intros b1 b2 q H1 H2. apply Hagree; eapply Permutation_in;
      try (symmetry; exact Hperm); assumption. }
  rewrite (fold_set_last results'). unfold last_covering.
  destruct (find _ (rev results')) as [b|] eqn:E.
  - apply find_some in E. destruct E as [Hin Hp]. apply in_rev in Hin.
    apply fold_set_covered; [exact Hagree| |exact Hp].
    eapply Permutation_in; [symmetry; exact Hperm | exact Hin].
  - apply fold_set_uncovered. intros b Hin.
    destruct (inside (interval b) p) eqn:Hp; [|reflexivity].
    assert (Hin' : In b (rev results')).
    { rewrite <- in_rev. eapply Permutation_in; [exact Hperm | exact Hin]. }
    apply (find_none _ _ E b) in Hin'. congruence.
Qed.

End Painting.

Section Backends.
Context {V PixelClassifier : Type}.
Variable v0 : V.
Variable predict : PixelClassifier -> DataRoi -> Array5D V.
Variable hash : DataRoi -> Z.
Variable get_tiles : DataRoi -> list DataRoi.
Variable num_classes : PixelClassifier -> Z.

(** X10.  When the prediction blocks of the tiles agree wherever two of
    them overlap (as they do when the tiles are disjoint), the order in
    which the coordinator merges them does not matter: with any positive
    number of workers the server's [do_predictions], which batches the
    tiles by hash, returns, and its block is voxel for voxel the one the
    benchmark's process-pool branch paints from the same tiles, with any
    positive number of workers of its own.  A voxel inside the block of a
    tile holds that tile's prediction, and a voxel that no block covers
    keeps the value of the allocation. *)
Theorem backends_paint_the_same_predictions :
  forall (num_workers benchmark_workers : Z) (request_roi : Slice5D)
         (classifier : PixelClassifier) (ds : DataSource),
    0 < num_workers -> 0 < benchmark_workers ->
    let backed_roi := mkDataRoi ds (defined_with request_roi (ds_shape ds)) in
    let tiles := get_tiles backed_roi in
    let allocated := allocate_predictions v0 num_classes classifier backed_roi in
    tiles <> [] ->
    agree (map (predict classifier) tiles) ->
    exists served painted : Predictions V,
      do_predictions v0 predict hash get_tiles num_classes num_workers
                     request_roi classifier ds = inr served
      /\ process_pool predict classifier benchmark_workers tiles allocated
         = inr painted
      /\ interval served = interval painted
      /\ forall p : Point5D,
           data served p = data painted p
           /\ (forall tile, In tile tiles ->
                 inside (interval (predict classifier tile)) p = true ->
                 data served p = data (predict classifier tile) p)
           /\ ((forall tile, In tile tiles ->
                  inside (interval (predict classifier tile)) p = false) ->
               data served p = v0).
Proof.
  intros num_workers benchmark_workers request_roi classifier ds Hw Hbw
         backed_roi tiles allocated Hne Hagree.
  destruct (server_do_predictions v0 predict hash get_tiles num_classes
              num_workers request_roi classifier ds Hw)
    as (Hserved & Hperm & _).
  fold backed_roi in Hserved, Hperm. fold tiles in Hperm.
  fold allocated in Hserved.
  set (slc_batches := group_slices hash num_workers (get_tiles backed_roi)) in *.
  destruct (benchmark_process_pool predict classifier benchmark_workers tiles
              allocated Hbw Hne) as (_ & _ & _ & _ & _ & Hpainted).
  set (results := List.concat
                    (map (fun item => map (predict classifier) (snd item))
                         slc_batches)) in *.
  assert (Hresults : results
                     = map (predict classifier) (List.concat (map snd slc_batches))).
  { unfold results. rewrite concat_map, map_map. reflexivity. }
  assert (Hperm' : Permutation (map (predict classifier) tiles) results).
  { rewrite Hresults. apply Permutation_map. symmetry. exact Hperm. }
  exists (fold_left set results allocated),
         (fold_left set (map (predict classifier) tiles) allocated).
  split; [exact Hserved|]. split; [exact Hpainted|].
  split; [rewrite !fold_set_interval; reflexivity|].
  intros p.
  assert (Hsame : data (fold_left set results allocated) p
                  = data (fold_left set (map (predict classifier) tiles)
                                    allocated) p).
  { symmetry. apply fold_set_perm; assumption. }
  split; [exact Hsame|]. rewrite Hsame. split.
  - intros tile Hin Hp. apply fold_set_covered; [exact Hagree| |exact Hp].
    apply in_map. exact Hin.
  - intros Hout. rewrite fold_set_uncovered; [reflexivity|].
    intros b Hin. apply in_map_iff in Hin. destruct Hin as (tile & <- & Hin).
    apply Hout, Hin.
Qed.

End Backends.

(** A classifier that predicts, on a tile, a block that holds the [x] of
    the tile. *)
Definition predict_x (classifier : unit) (tile : DataRoi) : Array5D Z :=
  allocate (roi tile) (x (start (roi tile))).

Lemma backends_paint_the_same_predictions_witness :
  let tiles := map tile_at [0; 1; 2] in
  let everything := mkSlice5D None None None None None in
  exists served painted : Predictions Z,
    do_predictions 0 predict_x hash_by_x (fun _ => tiles) (fun _ => 1) 2
                   everything tt strip = inr served
    /\ process_pool predict_x tt 3 tiles
         (allocate_predictions 0 (fun _ => 1) tt
            (mkDataRoi strip (defined_with everything (ds_shape strip))))
       = inr painted
    /\ interval served = interval painted
    /\ forall p : Point5D,
         data served p = data painted p
         /\ (forall tile, In tile tiles ->
               inside (interval (predict_x tt tile)) p = true ->
               data served p = data (predict_x tt tile) p)
         /\ ((forall tile, In tile tiles ->
                inside (interval (predict_x tt tile)) p = false) ->
             data served p = 0).
Proof.
  apply (backends_paint_the_same_predictions 0 predict_x hash_by_x
           (fun _ => map tile_at [0; 1; 2]) (fun _ => 1) 2 3
           (mkSlice5D None None None None None) tt strip).
  - lia.
  - lia.
  - discriminate.
  - intros b1 b2 p H1 H2 Hp1 Hp2. simpl in H1, H2.
    destruct H1 as [<- | [<- | [<- | []]]];
      destruct H2 as [<- | [<- | [<- | []]]];
      try reflexivity; exfalso;
      pose proof (proj1 (NdFacts.inside_true _ _) Hp1 AxX) as Hx1;
      pose proof (proj1 (NdFacts.inside_true _ _) Hp2 AxX) as Hx2;
      simpl in Hx1, Hx2; lia.
Defined.

End BackendFacts.

(* ===================================================================== *)
(** * Collections: applicability and channel multiplier *)

Module CollectionShapeFacts.
Import Nd Blocks Features CollectionMultiplier NdFacts.

Section Facts.
Variable V : Type.

Lemma kernel_get_pmax (p q : Point5D) (k : Axis) :
  get (pmax p q) k = Z.max (get p k) (get q k).
Proof. destruct k; reflexivity. Qed.

Lemma fold_pmax_ge (others : list (FeatureExtractor V)) :
  forall (acc limit : Point5D),
    pge limit (fold_left (fun acc f => pmax acc (kernel_shape f)) others acc)
    = pge limit acc
      && forallb (fun fx => pge limit (kernel_shape fx)) others.
Proof.
  induction others as [|h rest IH]; intros acc limit; simpl.
  - rewrite andb_true_r. reflexivity.
  - rewrite IH, andb_assoc. f_equal.
    apply eq_true_iff_eq. rewrite andb_true_iff, !pge_true. split.
    + intros H. split; intros k; specialize (H k); rewrite kernel_get_pmax in H; lia.
    + intros [H1 H2] k. specialize (H1 k). specialize (H2 k).
      rewrite kernel_get_pmax. lia.
Qed.

(** X11.  A [FeatureExtractorCollection] is applicable to a data source
    exactly when the shape of the data source is at least the kernel shape
    of every extractor of the collection: the kernel shape of the
    collection is the largest on every axis.  The extractors' own
    [is_applicable_to] is not asked: a collection is applicable to a data
    source with the wrong number of channels for a [ChannelwiseFilter] in
    it, as long as the shapes fit. *)
Theorem collection_applicable_when_every_kernel_fits :
  forall (first : FeatureExtractor V) (others : list (FeatureExtractor V))
         (ds : DataSource),
    option_map (fun collection => is_applicable_to collection ds)
               (FeatureExtractorCollection (first :: others))
    = Some (forallb (fun fx => default_is_applicable_to (kernel_shape fx) ds)
                    (first :: others))
    /\ forall (axis_2d : option Axis) (num_input_channels multiplier : Z)
              (kernel : Shape5D) (compute_slice : Writer V),
         let filter := ChannelwiseFilter axis_2d num_input_channels multiplier
                                         kernel compute_slice in
         pge (ds_shape ds) kernel = true ->
         c (ds_shape ds) <> num_input_channels ->
         is_applicable_to filter ds = false
         /\ option_map (fun collection => is_applicable_to collection ds)
                       (FeatureExtractorCollection [filter])
            = Some true.
Proof.
  intros first others ds. split.
  - simpl. f_equal. unfold default_is_applicable_to, max_kernel_shape.
    apply fold_pmax_ge.
  - intros axis_2d n m kernel cs filter Hfits Hc. split.
    + simpl. unfold ChannelwiseFilter_is_applicable_to. rewrite Hfits.
      apply Z.eqb_neq in Hc. rewrite Hc. reflexivity.
    + simpl. unfold default_is_applicable_to, max_kernel_shape. simpl.
      rewrite Hfits. reflexivity.
Qed.

(** A [ChannelwiseFilter] by its parameters. *)
Record FilterParams := mkFilterParams {
  fp_axis_2d : option Axis;
  fp_num_input_channels : Z;
  fp_channel_multiplier : Z;
  fp_kernel : Shape5D;
  fp_compute_slice : Writer V
}.

Definition filter_of (fp : FilterParams) : FeatureExtractor V :=
  ChannelwiseFilter (fp_axis_2d fp) (fp_num_input_channels fp)
                    (fp_channel_multiplier fp) (fp_kernel fp)
                    (fp_compute_slice fp).

(** X12.  For a collection of channelwise filters, [get_expected_shape]
    and [channel_multiplier] agree: the expected shape is the input shape
    with its channel count multiplied by the collection's channel
    multiplier, the sum of the multipliers of the filters. *)
Theorem collection_expected_shape_is_the_summed_multiplier :
  forall (filters : list FilterParams) (input_shape : Shape5D),
    Collection_get_expected_shape (map filter_of filters) input_shape
    = ChannelwiseFilter_get_expected_shape
        (Collection_channel_multiplier (map fp_channel_multiplier filters))
        input_shape.
Proof.
  intros filters input_shape.
  unfold Collection_get_expected_shape, ChannelwiseFilter_get_expected_shape.
  f_equal. induction filters as [|fp rest IH]; simpl.
  - lia.
  - rewrite IH. unfold Collection_channel_multiplier. simpl. lia.
Qed.

End Facts.

(** A filter for three channels in a collection, asked about the 5 by 5
    image with one channel. *)
Example collection_does_not_ask_its_filters :
  let filter := ChannelwiseFilter (V := Z) None 3 1 (mkPoint5D 3 3 1 1 1)
                                  (kernel_slice (fun _ _ => 0)) in
  is_applicable_to filter ApplicabilityFacts.source_5x5 = false
  /\ option_map (fun collection =>
                   is_applicable_to collection ApplicabilityFacts.source_5x5)
                (FeatureExtractorCollection [filter])
     = Some true.
Proof. split; reflexivity. Qed.

End CollectionShapeFacts.

(** * The scheme of a precomputed url *)

Module PrecomputedUrlFacts.
Import PrecomputedUrl.

Local Open Scope string_scope.

Lemma lstrip_head (chars s : string) (ch : ascii) (left : string) :
  lstrip chars s = String ch left -> mem ch chars = false.
Proof.
  induction s as [|ch' s IH]; simpl; [discriminate|].
  destruct (mem ch' chars) eqn:E; [exact IH|].
  intros H. inversion H; subst. exact E.
Qed.

Lemma lstrip_length (chars s : string) :
  (String.length (lstrip chars s) <= String.length s)%nat.
Proof.
  induction s as [|ch s IH]; simpl; [lia|].
  destruct (mem ch chars); simpl; lia.
Qed.

Lemma lstrip_unchanged (chars s : string) :
  lstrip chars s = s
  <-> match s with
      | EmptyString => True
      | String ch _ => mem ch chars = false
      end.
Proof.
  destruct s as [|ch s]; simpl; [tauto|].
  destruct (mem ch chars) eqn:E.
  - split; [|discriminate]. intros H. exfalso.
    pose proof (lstrip_length chars s) as Hlen.
    rewrite H in Hlen. simpl in Hlen. lia.
  - split; reflexivity.
Qed.

(** X13.  [url.lstrip("precomputed://")] does not remove the prefix
    "precomputed://" but every leading character that occurs in it: what
    is left never starts with one of the characters p, r, e, c, o, m, u, t,
    d, colon and slash.  So after the scheme, the leading characters of
    the rest of the url are removed as well when they are among these, and
    a url without the scheme is changed in the same way. *)
Theorem without_scheme_strips_a_character_set :
  forall rest : string,
    without_scheme ("precomputed://" ++ rest) = without_scheme rest
    /\ (forall ch left, without_scheme rest = String ch left ->
          mem ch "precomputed://" = false)
    /\ (without_scheme rest = rest
        <-> match rest with
            | EmptyString => True
            | String ch _ => mem ch "precomputed://" = false
            end)
    /\ (String.length (without_scheme rest) <= String.length rest)%nat.
Proof.
  intros rest. split; [reflexivity|]. split; [|split].
  - apply lstrip_head.
  - apply lstrip_unchanged.
  - apply lstrip_length.
Qed.

(** The url of a data source whose host name starts with one of the
    characters loses the start of the host name. *)
Example without_scheme_of_a_host_in_the_set :
  without_scheme "precomputed://data.example.org/volume" = "ata.example.org/volume"
  /\ without_scheme "precomputed://https://neuroglancer.example.org/volume"
     = "https://neuroglancer.example.org/volume".
Proof. split; reflexivity. Qed.

End PrecomputedUrlFacts.

(* ===================================================================== *)
(** * The data proxy and the object store *)

Module BucketFsFacts.
Import Request RequestSize BucketFs.

Section Facts.

Variable Token : Type.
Variable Login : Type.
Variable LoginError : Type.
Variable get_token : Login -> Token.
Variable refresh_token : Login -> Token -> (LoginError + Token) * Login.
Variable data_proxy_request :
  nat -> Method -> string -> option (list byte) -> Token -> option Response.
Variable url_path : string -> string.
Variable concatpath : string -> string -> string.
Variable with_redirect_false : string -> string.
Variable parse_url_from_data_proxy_response : list byte -> option string.
Variable cscs_request :
  Method -> string -> option (list byte) -> list (string * string) -> option Response.
Variable int : string -> option Z.
Variable isdigit : string -> bool.

Local Abbreviation World := (World Login).
Local Abbreviation ProxyOutcome := (ProxyOutcome LoginError).
Local Abbreviation attempt :=
  (data_proxy_attempt Token Login LoginError get_token refresh_token
                      data_proxy_request url_path).
Local Abbreviation from_data_proxy :=
  (_requests_from_data_proxy Token Login LoginError get_token refresh_token
                             data_proxy_request url_path).
Local Abbreviation swift_url :=
  (get_swift_object_url Token Login LoginError get_token refresh_token
     data_proxy_request url_path concatpath with_redirect_false
     parse_url_from_data_proxy_response).
Local Abbreviation read :=
  (read_file Token Login LoginError get_token refresh_token
     data_proxy_request url_path concatpath with_redirect_false
     parse_url_from_data_proxy_response cscs_request).
Local Abbreviation size :=
  (get_size Token Login LoginError get_token refresh_token
     data_proxy_request url_path concatpath with_redirect_false
     parse_url_from_data_proxy_response cscs_request int isdigit).

(** What the last request that the data proxy served was answered with. *)
Definition last_response (method : Method) (url : string)
    (data : option (list byte)) (w : World) : option Response :=
  data_proxy_request (pred (served w)) method url data (get_token (login w)).

(** One attempt without a retry: one request, no refresh, and the outcome
    is read off the response. *)
Lemma attempt_once (method : Method) (url : string) (data : option (list byte))
    (w : World) :
  let '(outcome, w') := attempt None method url data w in
  served w' = S (served w) /\ refreshes w' = refreshes w /\ login w' = login w
  /\ (forall body hs, outcome = ProxyReturned body hs ->
        exists response,
          last_response method url data w' = Some response
          /\ ok response = true /\ status_code response <> 404%Z
          /\ body = content response /\ hs = headers response)
  /\ (forall e, outcome <> ProxyLoginError e)
  /\ (last_response method url data w' = None
      <-> outcome = ProxyCrashed)
  /\ (forall response,
        last_response method url data w' = Some response ->
        (status_code response = 404%Z
         <-> exists p, outcome = ProxyFileNotFound p)
        /\ (status_code response <> 404%Z -> ok response = false ->
            outcome = ProxyFailure (status_code response))).
Proof.
  unfold data_proxy_attempt, last_response.
  destruct (data_proxy_request (served w) method url data (get_token (login w)))
    as [response|] eqn:E; simpl.
  - destruct (Z.eqb_spec (status_code response) 404) as [H404 | H404]; simpl.
    + rewrite E.
      split; [reflexivity|]. split; [reflexivity|]. split; [reflexivity|].
      split; [intros body hs H; discriminate|].
      split; [intros e H; discriminate|].
      split; [split; discriminate|].
      intros r Hr. inversion Hr; subst r.
      split; [split; eauto | intros; contradiction].
    + replace (if (status_code response =? 401)%Z then None else None)
        with (@None (World -> ProxyOutcome * World))
        by (destruct (status_code response =? 401)%Z; reflexivity).
      destruct (ok response) eqn:Hok; simpl; rewrite E.
      * split; [reflexivity|]. split; [reflexivity|]. split; [reflexivity|].
        split; [intros body hs H; inversion H; subst; exists response; auto|].
        split; [intros e H; discriminate|].
        split; [split; discriminate|].
        intros r Hr. inversion Hr; subst r.
        split; [split; [contradiction | intros [p Hp]; discriminate]|].
        intros _ Hf. congruence.
      * split; [reflexivity|]. split; [reflexivity|]. split; [reflexivity|].
        split; [intros body hs H; discriminate|].
        split; [intros e H; discriminate|].
        split; [split; discriminate|].
        intros r Hr. inversion Hr; subst r.
        split; [split; [contradiction | intros [p Hp]; discriminate]|].
        reflexivity.
  - rewrite E.
    split; [reflexivity|]. split; [reflexivity|]. split; [reflexivity|].
    split; [intros body hs H; discriminate|].
    split; [intros e H; discriminate|].
    split; [split; reflexivity|].
    intros r Hr. discriminate.
Qed.

(** X14.  [_requests_from_data_proxy] sends one request to the data proxy,
    or two: the second one only after a 401 (when the first answer is not a
    404) and one successful call to [refresh_token].  It never refreshes
    the token twice and never sends a third request: a 401 that comes back
    after the refresh is returned as a failure.  What it returns is read
    off the last response: a 404 is a file not found, and content is
    returned only from a response that is ok. *)
Theorem data_proxy_retries_once_after_a_refresh :
  forall (method : Method) (url : string) (data : option (list byte))
         (w : World),
    let outcome := fst (from_data_proxy method url data true w) in
    let w' := snd (from_data_proxy method url data true w) in
    (served w' = S (served w) \/ served w' = S (S (served w)))
    /\ (refreshes w' = refreshes w \/ refreshes w' = S (refreshes w))
    /\ (served w' = S (S (served w))
        <-> exists first refreshed login',
              data_proxy_request (served w) method url data
                                 (get_token (login w)) = Some first
              /\ status_code first = 401%Z
              /\ refresh_token (login w) (get_token (login w))
                 = (inr refreshed, login'))
    /\ (served w' = S (S (served w)) -> refreshes w' = S (refreshes w))
    /\ (forall body hs,
          outcome = ProxyReturned body hs ->
          exists response,
            last_response method url data w' = Some response
            /\ ok response = true /\ status_code response <> 404%Z
            /\ body = content response /\ hs = headers response)
    /\ (forall response,
          served w' = S (S (served w)) ->
          last_response method url data w' = Some response ->
          status_code response = 401%Z -> ok response = false ->
          outcome = ProxyFailure 401).
Proof.
  intros method url data w outcome w'. unfold outcome, w'.
  unfold _requests_from_data_proxy.
  set (second := attempt None method url data).
  unfold data_proxy_attempt.
  destruct (data_proxy_request (served w) method url data (get_token (login w)))
    as [first|] eqn:E; simpl.
  2:{ split; [left; reflexivity|]. split; [left; reflexivity|].
      split; [split; [intros H; lia
                     | intros (r & _ & _ & H & _); discriminate]|].
      split; [intros H; lia|].
      split; [intros body hs H; discriminate | intros r H; lia]. }
  destruct (Z.eqb_spec (status_code first) 404) as [H404 | H404]; simpl.
  { split; [left; reflexivity|]. split; [left; reflexivity|].
    split; [split; [intros H; lia
                   | intros (r & _ & _ & H & Hs & _); inversion H; subst; lia]|].
    split; [intros H; lia|].
    split; [intros body hs H; discriminate | intros r H; lia]. }
  destruct (Z.eqb_spec (status_code first) 401) as [H401 | H401]; simpl.
  - destruct (refresh_token (login w) (get_token (login w)))
      as [[e | refreshed] login'] eqn:Er; simpl.
    + split; [left; reflexivity|]. split; [right; reflexivity|].
      split; [split; [intros H; lia
                     | intros (r & t & l & _ & _ & H); discriminate]|].
      split; [intros H; lia|].
      split; [intros body hs H; discriminate | intros r H; lia].
    + pose proof (attempt_once method url data
                    (mkWorld login' (S (served w)) (S (refreshes w))))
        as Hsecond.
      fold second in Hsecond.
      destruct (second (mkWorld login' (S (served w)) (S (refreshes w))))
        as [outcome2 w2] eqn:E2.
      simpl in Hsecond.
      destruct Hsecond as (Hserved & Hrefreshes & _ & Hret & _ & _ & Hresp).
      simpl. rewrite Hserved, Hrefreshes.
      split; [right; reflexivity|]. split; [right; reflexivity|].
      split; [split; [intros _; eauto 7 | reflexivity]|].
      split; [reflexivity|]. split; [exact Hret|].
      intros response _ Hlast Hs Hok.
      destruct (Hresp response Hlast) as [_ Hfail].
      rewrite Hfail by (try lia; exact Hok). rewrite Hs. reflexivity.
  - destruct (ok first) eqn:Hok; simpl.
    + split; [left; reflexivity|]. split; [left; reflexivity|].
      split; [split; [intros H; lia
                     | intros (r & _ & _ & H & Hs & _); inversion H; subst;
                       contradiction]|].
      split; [intros H; lia|].
      split; [|intros r H; lia].
      intros body hs H. inversion H; subst. exists first.
      unfold last_response. simpl. auto.
    + split; [left; reflexivity|]. split; [left; reflexivity|].
      split; [split; [intros H; lia
                     | intros (r & _ & _ & H & Hs & _); inversion H; subst;
                       contradiction]|].
      split; [intros H; lia|].
      split; [intros body hs H; discriminate | intros r H; lia].
Qed.

(** X15.  [read_file] and [get_size] ask the data proxy for the url of
    the object once (through [_requests_from_data_proxy]) and then the
    object store.  [read_file] reports [FsFileNotFoundException] exactly
    when the data proxy answers 404; a 404 of the object store itself is an
    [FsIoException].  [get_size] reports [FsFileNotFoundException] in both
    cases: when the data proxy answers 404, and when the object store
    answers the one-byte request with a 404 that is not ok.  The exception
    carries the path that was asked for. *)
Theorem not_found_is_reported_by_get_size_for_both_servers :
  forall (bucket_url path : string) (offset : Z) (num_bytes : option Z)
         (w : World),
    let file_url := with_redirect_false (concatpath bucket_url path) in
    let proxy := from_data_proxy get file_url None true w in
    (forall p,
        fst (read bucket_url path offset num_bytes w)
        = inl (FsFileNotFoundException p)
        <-> p = path /\ exists q, fst proxy = ProxyFileNotFound q)
    /\ (forall p,
          fst (size bucket_url path w) = inl (FsFileNotFoundException p)
          <-> p = path
              /\ ((exists q, fst proxy = ProxyFileNotFound q)
                  \/ exists payload hs cscs_url response,
                       fst proxy = ProxyReturned payload hs
                       /\ parse_url_from_data_proxy_response payload
                          = Some cscs_url
                       /\ cscs_request get cscs_url None
                                       [("Range", "bytes=0-0")]%string
                          = Some response
                       /\ ok response = false
                       /\ status_code response = 404%Z))
    /\ snd (read bucket_url path offset num_bytes w) = snd proxy
    /\ snd (size bucket_url path w) = snd proxy.
Proof.
  intros bucket_url path offset num_bytes w file_url proxy.
  unfold read_file, get_size, get_swift_object_url.
  fold file_url. fold proxy.
  destruct proxy as [[payload hs | q | e | status |] w1]; simpl.
  2:{ split; [|split; [|split; reflexivity]].
      - intros p. split.
        + intros H. inversion H; subst. eauto.
        + intros [-> _]. reflexivity.
      - intros p. split.
        + intros H. inversion H; subst. eauto.
        + intros [-> _]. reflexivity. }
  2:{ split; [|split; [|split; reflexivity]]; intros p; split;
        try discriminate.
      - intros [_ [q H]]. discriminate.
      - intros [_ [[q H] | (b & h & u & r & H & _)]]; discriminate. }
  2:{ split; [|split; [|split; reflexivity]]; intros p; split;
        try discriminate.
      - intros [_ [q H]]. discriminate.
      - intros [_ [[q H] | (b & h & u & r & H & _)]]; discriminate. }
  2:{ split; [|split; [|split; reflexivity]]; intros p; split;
        try discriminate.
      - intros [_ [q H]]. discriminate.
      - intros [_ [[q H] | (b & h & u & r & H & _)]]; discriminate. }
  destruct (parse_url_from_data_proxy_response payload) as [cscs_url|] eqn:Ep;
    simpl.
  2:{ split; [|split; [|split; reflexivity]]; intros p; split;
        try discriminate.
      - intros [_ [q H]]. discriminate.
      - intros [_ [[q H] | (b & h & u & r & H & Hp & _)]]; [discriminate|].
        inversion H; subst. congruence. }
  split; [|split; [|split]].
  - intros p. split.
    + destruct (request cscs_request get cscs_url None offset num_bytes None);
        discriminate.
    + intros [_ [q H]]. discriminate.
  - intros p. unfold request_size, request. simpl.
    change (range_header_value 0 (Some 1%Z)) with "bytes=0-0"%string.
    destruct (cscs_request get cscs_url None [("Range", "bytes=0-0")]%string)
      as [response|] eqn:Er; simpl.
    + destruct (ok response) eqn:Hok; simpl.
      * split.
        -- destruct (ci_get (headers response) "content-length") as [cl|].
           ++ destruct (int cl); discriminate.
           ++ destruct (ci_get (headers response) "content-range") as [cr|];
                [|discriminate].
              destruct (has_slash cr); [|discriminate].
              destruct (isdigit (last_field cr)); [|discriminate].
              destruct (int (last_field cr)); discriminate.
        -- intros [_ [[q H] | (b & h & u & r & H & Hp & Hr & Hf & _)]];
             [discriminate|].
           inversion H; subst. rewrite Ep in Hp. inversion Hp; subst.
           rewrite Er in Hr. inversion Hr; subst. congruence.
      * destruct (Z.eqb_spec (status_code response) 404) as [H404 | H404].
        -- split.
           ++ intros H. inversion H; subst. split; [reflexivity|]. right.
              exists payload, hs, cscs_url, response. auto.
           ++ intros [-> _]. reflexivity.
        -- split; [discriminate|].
           intros [_ [[q H] | (b & h & u & r & H & Hp & Hr & _ & Hs)]];
             [discriminate|].
           inversion H; subst. rewrite Ep in Hp. inversion Hp; subst.
           rewrite Er in Hr. inversion Hr; subst. contradiction.
    + split; [discriminate|].
      intros [_ [[q H] | (b & h & u & r & H & Hp & Hr & _)]]; [discriminate|].
      inversion H; subst. rewrite Ep in Hp. inversion Hp; subst.
      rewrite Er in Hr. discriminate.
  - destruct (request cscs_request get cscs_url None offset num_bytes None);
      reflexivity.
  - destruct (request_size cscs_request int isdigit cscs_url None)
      as [n | [| status shown u hs' |] |]; try reflexivity.
    destruct (status =? 404)%Z; reflexivity.
Qed.

End Facts.

End BucketFsFacts.

(* ===================================================================== *)
(** * ChannelwiseFastFilter.compute: what is kept of a slice *)

Module FastFilterCropFacts.
Import Nd Blocks FastFilters FastFilterFacts.

Lemma halo_c (f : ChannelwiseFastFilter) : c (halo f) = 0.
Proof.
  unfold halo. destruct (axis_2d f) as [[| | | |]|]; reflexivity.
Qed.

Section Facts.

Variable V : Type.
Variable filter_fn : Kernel -> option Axis -> NdArray V -> NdArray V.

(** X16.  For one slice of [ChannelwiseFastFilter.compute], let the source
    return a block on the enlarged slice it was asked for, and let the
    kernel give [m] numbers per voxel.  Then the block that [compute] keeps
    for the slice has the box of the slice itself, so the halo is cut off
    again on every side, with the channels from [k * m] to [k * m + m],
    [k] being the position of the slice's channel in the region asked of
    [compute], whatever the first channel of that region is.  A voxel of
    the block holds the kernel's output at the index at which the kernel's
    input holds the source's value for that very voxel, in the channel of
    the slice: the output is not shifted against the data. *)
Theorem compute_one_crops_the_halo :
  forall (f : ChannelwiseFastFilter)
         (source : DataRoi -> Logged (Array5D V))
         (whole roi_slice : DataRoi) (log : list Invocation)
         (source_data : Array5D V) (m : Z),
    source (roi_enlarged roi_slice (halo f)) = (log, Some source_data) ->
    interval source_data = enlarged (roi roi_slice) (halo f) ->
    let input := raw V source_data in
    let out := filter_fn (kernel f) (axis_2d f) input in
    c (nd_shape out) = m ->
    (nd_has_c V out = false -> m = 1) ->
    let k := c (start (roi roi_slice)) - c (start (roi whole)) in
    exists result : Array5D V,
      snd (compute_one filter_fn f source whole roi_slice) = Some result
      /\ interval result
         = mkInterval5D (updated (start (roi roi_slice)) AxC (k * m))
                        (updated (stop (roi roi_slice)) AxC (k * m + m))
      /\ forall p : Point5D,
           let index :=
             psub p (updated (psub (start (roi roi_slice)) (halo f))
                             AxC (k * m)) in
           data result p = nd_at V out index
           /\ nd_at V input index
              = data source_data
                  (updated p AxC (c p - k * m + c (start (roi roi_slice)))).
Proof.
  intros f source whole roi_slice log source_data m Hsource Hinterval input
         out Hshape Hc k.
  unfold FastFilters.compute_one. rewrite Hsource.
  fold input. fold out.
  assert (Hm : (if nd_has_c V out then c (nd_shape out) else 1) = m).
  { destruct (nd_has_c V out) eqn:E.
    - exact Hshape.
    - symmetry. apply Hc. reflexivity. }
  rewrite Hm. fold k.
  eexists. split; [reflexivity|]. split.
  - unfold cut, with_c_of, FeatureData_at. cbn [interval start stop].
    unfold translated, to_interval5d. cbn [start stop].
    assert (Hstart : forall q v, c (padd zero (updated q AxC v)) = v).
    { intros q v. destruct q. reflexivity. }
    assert (Hstop : forall q v,
               c (padd (nd_shape out) (updated q AxC v)) = v + m).
    { intros q v. rewrite <- Hshape. destruct (nd_shape out), q.
      unfold updated, padd, pointwise. cbn. lia. }
    rewrite Hstart, Hstop. reflexivity.
  - intros p. cbv zeta. split; [reflexivity|].
    unfold input, raw. cbn [nd_at]. f_equal.
    rewrite Hinterval. unfold enlarged. cbn [start].
    pose proof (halo_c f) as Hh.
    destruct p, (start (roi roi_slice)), (halo f).
    unfold updated, padd, psub, pointwise. cbn in *. subst. f_equal; lia.
Qed.

End Facts.

(** The theorem at work: the whole image as the one slice, with the
    preprocessor that returns zeros and the kernel that returns its
    input. *)
Lemma compute_one_crops_the_halo_witness :
  let f := smoothing (3 # 10) in
  let source_data := zeros OpRetriever (roi_enlarged whole_image (halo f)) in
  let input := raw Z source_data in
  let out := identity_kernel (kernel f) (axis_2d f) input in
  exists result : Array5D Z,
    snd (compute_one identity_kernel f (from_preprocessor zeros OpRetriever)
                     whole_image whole_image) = Some result
    /\ interval result
       = mkInterval5D (updated (start (roi whole_image)) AxC (0 * 1))
                      (updated (stop (roi whole_image)) AxC (0 * 1 + 1))
    /\ forall p : Point5D,
         let index :=
           psub p (updated (psub (start (roi whole_image)) (halo f))
                           AxC (0 * 1)) in
         data result p = nd_at Z out index
         /\ nd_at Z input index
            = data source_data
                (updated p AxC (c p - 0 * 1 + c (start (roi whole_image)))).
Proof.
  apply (compute_one_crops_the_halo Z identity_kernel (smoothing (3 # 10))
           (from_preprocessor zeros OpRetriever) whole_image whole_image
           [InvPreprocessor OpRetriever
              (roi_enlarged whole_image (halo (smoothing (3 # 10))))]
           (zeros OpRetriever
              (roi_enlarged whole_image (halo (smoothing (3 # 10))))) 1).
  - reflexivity.
  - reflexivity.
  - reflexivity.
  - reflexivity.
Defined.

End FastFilterCropFacts.

(* ===================================================================== *)
(** * ChannelwiseFastFilter.compute: which preprocessor is asked *)

Module PreprocessorFacts.
Import Nd Blocks FastFilters FastFilterFacts.

(** The preprocessors that a logged call asked, those of a presmoothing
    sub-operator included. *)
Fixpoint operators_asked (i : Invocation) : list Operator :=
  match i with
  | InvPreprocessor op _ => [op]
  | InvGaussian _ _ inner => flat_map operators_asked inner
  | InvFilterFn _ _ => []
  end.

Definition asks_only (op : Operator) (log : list Invocation) : Prop :=
  Forall (fun asked => asked = op) (flat_map operators_asked log).

Lemma asks_only_app (op : Operator) (l1 l2 : list Invocation) :
  asks_only op l1 -> asks_only op l2 -> asks_only op (l1 ++ l2).
Proof.
  unfold asks_only. intros H1 H2. rewrite flat_map_app.
  apply Forall_app. split; assumption.
Qed.

Section Facts.

Variable V : Type.
Variable v0 : V.
Variable run_operator : Operator -> DataRoi -> Array5D V.
Variable filter_fn : Kernel -> option Axis -> NdArray V -> NdArray V.

Local Abbreviation compute := (compute v0 run_operator filter_fn).
Local Abbreviation compute_from := (compute_from v0 filter_fn).
Local Abbreviation compute_all := (compute_all filter_fn).
Local Abbreviation compute_one := (compute_one filter_fn).
Local Abbreviation from_preprocessor := (from_preprocessor run_operator).
Local Abbreviation from_gaussian := (from_gaussian v0 run_operator filter_fn).

Lemma compute_all_asks_only (op : Operator) (f : ChannelwiseFastFilter)
    (source : DataRoi -> Logged (Array5D V)) (whole : DataRoi)
    (slices : list DataRoi) :
  (forall region, asks_only op (fst (source region))) ->
  asks_only op (fst (compute_all f source whole slices)).
Proof.
  intros Hs. induction slices as [|roi_slice rest IH]; simpl; [constructor|].
  assert (Hone : asks_only op (fst (compute_one f source whole roi_slice))).
  { unfold FastFilters.compute_one.
    specialize (Hs (roi_enlarged roi_slice (halo f))).
    destruct (source (roi_enlarged roi_slice (halo f))) as [log [d|]];
      simpl in *; [|exact Hs].
    apply asks_only_app; [exact Hs | constructor]. }
  destruct (compute_one f source whole roi_slice) as [log [result|]];
    simpl in *; [|exact Hone].
  destruct (compute_all f source whole rest) as [log' [results|]]; simpl in *;
    apply asks_only_app; assumption.
Qed.

Lemma compute_from_asks_only (op : Operator) (f : ChannelwiseFastFilter)
    (source : DataRoi -> Logged (Array5D V)) (whole : DataRoi) :
  (forall region, asks_only op (fst (source region))) ->
  asks_only op (fst (compute_from f source whole)).
Proof.
  intros Hs. unfold FastFilters.compute_from.
  pose proof (compute_all_asks_only op f source whole
                (roi_split whole (roi_step f whole)) Hs) as H.
  destruct (compute_all f source whole (roi_split whole (roi_step f whole)))
    as [log [results|]]; exact H.
Qed.

Lemma from_preprocessor_asks_only (op : Operator) (region : DataRoi) :
  asks_only op (fst (from_preprocessor op region)).
Proof. repeat constructor. Qed.

Lemma from_gaussian_asks_only (g : ChannelwiseFastFilter) (region : DataRoi) :
  asks_only (preprocessor g) (fst (from_gaussian g region)).
Proof.
  unfold FastFilters.from_gaussian.
  pose proof (compute_from_asks_only (preprocessor g) g
                (from_preprocessor (preprocessor g)) region
                (from_preprocessor_asks_only (preprocessor g))) as H.
  destruct (compute_from g (from_preprocessor (preprocessor g)) region)
    as [inner result].
  unfold asks_only in *. simpl in *. rewrite app_nil_r. exact H.
Qed.

(** X17.  The constructor of [SigmaWindowFilter] does not hand its
    [preprocessor] argument on, so a [GaussianSmoothing] or a
    [GaussianGradientMagnitude] reads through the default [OpRetriever]
    whatever preprocessor it was built with.  The presmoothing
    sub-operator is a [GaussianSmoothing]: a filter with a positive
    [presmooth_sigma] never asks its own preprocessor, every region is read
    through [OpRetriever]; without presmoothing a filter asks only its own
    preprocessor. *)
Theorem presmoothing_reads_through_the_default_retriever :
  forall (f : ChannelwiseFastFilter) (whole : DataRoi),
    ((0 < presmooth_sigma f)%Q ->
     asks_only OpRetriever (fst (compute f whole)))
    /\ ((presmooth_sigma f <= 0)%Q ->
        asks_only (preprocessor f) (fst (compute f whole)))
    /\ forall (k : Q -> Q -> Kernel) (given : Operator)
              (sigma window_size : Q) (axis : option Axis) (presmooth : Q),
         asks_only OpRetriever
           (fst (compute (SigmaWindowFilter k given sigma window_size axis
                                            presmooth) whole)).
Proof.
  assert (Hpre : forall f whole, (0 < presmooth_sigma f)%Q ->
                   asks_only OpRetriever (fst (compute f whole))).
  { intros f whole Hpos. unfold FastFilters.compute.
    destruct (Qlt_le_dec 0 (presmooth_sigma f)) as [_ | Hle].
    - apply compute_from_asks_only. intros region.
      apply (from_gaussian_asks_only (gaussian_filter f) region).
    - exfalso. apply (Qlt_irrefl 0). eapply Qlt_le_trans; eassumption. }
  assert (Hraw : forall f whole, (presmooth_sigma f <= 0)%Q ->
                   asks_only (preprocessor f) (fst (compute f whole))).
  { intros f whole Hle. unfold FastFilters.compute.
    destruct (Qlt_le_dec 0 (presmooth_sigma f)) as [Hpos | _].
    - exfalso. apply (Qlt_irrefl 0). eapply Qlt_le_trans; eassumption.
    - apply compute_from_asks_only. intros region.
      apply from_preprocessor_asks_only. }
  intros f whole. split; [apply Hpre|]. split; [apply Hraw|].
  intros k given sigma window_size axis presmooth.
  destruct (Qlt_le_dec 0 presmooth) as [Hpos | Hle].
  - apply Hpre. exact Hpos.
  - apply (Hraw (SigmaWindowFilter k given sigma window_size axis presmooth)).
    exact Hle.
Qed.

End Facts.

(** A Hessian filter built with a preprocessor of its own and with
    presmoothing: all its data is read through [OpRetriever]. *)
Example presmoothed_filter_ignores_its_preprocessor :
  let f := mkFilter (HessianOfGaussianEigenvalues 1 0) (OtherOperator 7)
                    (Some AxZ) 1 in
  flat_map operators_asked (fst (compute 0 zeros identity_kernel f whole_image))
  = [OpRetriever].
Proof. vm_compute. reflexivity. Qed.

End PreprocessorFacts.

(* ===================================================================== *)
(** * Versions *)

Module VersionFacts.
Import Versions.

Local Open Scope string_scope.

Fixpoint all_digits (s : string) : bool :=
  match s with
  | EmptyString => true
  | String ch rest => is_digit ch && all_digits rest
  end.

Fixpoint has_dot (s : string) : bool :=
  match s with
  | EmptyString => false
  | String ch rest => Ascii.eqb ch "." || has_dot rest
  end.

Lemma string_of_uint_digits (d : Decimal.uint) :
  all_digits (NilEmpty.string_of_uint d) = true.
Proof. induction d; simpl; auto. Qed.

Lemma is_digit_not_dot (ch : ascii) : is_digit ch = true -> Ascii.eqb ch "." = false.
Proof.
  intros H. destruct (Ascii.eqb_spec ch "."); [|reflexivity].
  subst. discriminate H.
Qed.

Lemma all_digits_no_dot (s : string) : all_digits s = true -> has_dot s = false.
Proof.
  induction s as [|ch rest IH]; simpl; [reflexivity|].
  intros H. apply andb_true_iff in H. destruct H as [Hd Hrest].
  rewrite (is_digit_not_dot ch Hd), (IH Hrest). reflexivity.
Qed.

Lemma take_digits_all (s : string) : all_digits s = true -> take_digits s = s.
Proof.
  induction s as [|ch rest IH]; simpl; [reflexivity|].
  intros H. apply andb_true_iff in H. destruct H as [Hd Hrest].
  rewrite Hd, (IH Hrest). reflexivity.
Qed.

Lemma first_digits_all (s : string) :
  all_digits s = true -> s <> EmptyString -> first_digits s = Some s.
Proof.
  destruct s as [|ch rest]; simpl; [congruence|].
  intros H _. apply andb_true_iff in H. destruct H as [Hd Hrest].
  rewrite Hd, (take_digits_all rest Hrest). reflexivity.
Qed.

(** [str(n)] of a natural number: digits, at least one. *)
Lemma str_digits (n : Z) :
  0 <= n ->
  all_digits (Request.str n) = true /\ Request.str n <> EmptyString
  /\ int_of_digits (Request.str n) = n.
Proof.
  intros Hn. unfold Request.str, int_of_digits.
  assert (Hnil : Z.to_int n <> Decimal.Pos Decimal.Nil
                 /\ Z.to_int n <> Decimal.Neg Decimal.Nil).
  { destruct n as [|p|p]; simpl; [split; discriminate| |lia].
    split; [|discriminate]. intros H. inversion H as [Hp].
    apply (DecimalPos.Unsigned.to_uint_nonnil p). exact Hp. }
  destruct Hnil as [Hpos Hneg].
  rewrite (NilZero.isi _ Hpos Hneg), DecimalZ.of_to.
  split; [|split; [|reflexivity]].
  - destruct (Z.to_int n) as [d|d] eqn:E.
    + simpl. unfold NilZero.string_of_uint.
      destruct d; try apply string_of_uint_digits. reflexivity.
    + destruct n; simpl in E; try discriminate. lia.
  - destruct (Z.to_int n) as [d|d] eqn:E.
    + simpl. unfold NilZero.string_of_uint.
      destruct d; simpl; discriminate.
    + simpl. discriminate.
Qed.

Lemma split_dot_no_dot (s : string) : has_dot s = false -> split_dot s = [s].
Proof.
  induction s as [|ch rest IH]; simpl; [reflexivity|].
  intros H. apply orb_false_iff in H. destruct H as [Hch Hrest].
  rewrite Hch, (IH Hrest). reflexivity.
Qed.

Lemma split_dot_app (s rest : string) :
  has_dot s = false ->
  split_dot (s ++ "." ++ rest) = s :: split_dot rest.
Proof.
  induction s as [|ch s' IH]; simpl; [reflexivity|].
  intros H. apply orb_false_iff in H. destruct H as [Hch Hrest].
  specialize (IH Hrest). simpl in IH. rewrite Hch, IH. reflexivity.
Qed.

Lemma split_dot_join (parts : list string) :
  parts <> [] -> Forall (fun s => has_dot s = false) parts ->
  split_dot (join "." parts) = parts.
Proof.
  induction parts as [|s rest IH]; [congruence|].
  intros _ Hall. inversion Hall as [|? ? Hs Hrest]; subst.
  destruct rest as [|s2 rest'].
  - simpl. apply split_dot_no_dot. exact Hs.
  - change (join "." (s :: s2 :: rest')) with (s ++ "." ++ join "." (s2 :: rest')).
    rewrite split_dot_app by exact Hs. f_equal.
    apply IH; [discriminate | exact Hrest].
Qed.

Lemma convert_parts_str (t : list Z) :
  Forall (fun n => 0 <= n) t ->
  convert_parts (map Request.str t) = Some t.
Proof.
  induction t as [|n rest IH]; intros Hall; [reflexivity|].
  inversion Hall as [|? ? Hn Hrest]; subst. simpl.
  destruct (str_digits n Hn) as (Hd & Hne & Hint).
  rewrite (first_digits_all _ Hd Hne), (IH Hrest), Hint. reflexivity.
Qed.

(** X18.  [convertVersion] undoes [_format_version] on every non-empty
    tuple of natural numbers: the parts between the dots are read back as
    the numbers they were written from.  The empty tuple is not read back:
    its text is the empty string, whose one part has no digit, and
    [convertVersion] raises. *)
Theorem convertVersion_reads_back_format_version :
  forall t : list Z,
    t <> [] -> Forall (fun n => 0 <= n) t ->
    convertVersion (_format_version (map CInt t)) = Some t.
Proof.
  intros t Hne Hall. unfold convertVersion, _format_version.
  rewrite map_map. simpl.
  change (map (fun n => Request.str n) t) with (map Request.str t).
  rewrite split_dot_join.
  - apply convert_parts_str. exact Hall.
  - destruct t; [congruence | discriminate].
  - apply Forall_map. eapply Forall_impl; [|exact Hall].
    intros n Hn. apply all_digits_no_dot. apply (str_digits n Hn).
Qed.

Lemma convertVersion_reads_back_format_version_witness :
  convertVersion (_format_version (map CInt [1; 4; 0])) = Some [1; 4; 0]
  /\ convertVersion (_format_version []) = None.
Proof.
  split.
  - apply (convertVersion_reads_back_format_version [1; 4; 0]).
    + discriminate.
    + repeat constructor; lia.
  - reflexivity.
Defined.



End VersionFacts.

(* ===================================================================== *)
(** * The export worker *)

Module ExportWorkerFacts.
Import ExportWorker.

Section Facts.

Variable Dto : Type.
Variable DataSource : Type.
Variable DataSink : Type.
Variable Classifier : Type.
Variable SinkWriter : Type.
Variable ExportJob : Type.
Variable Step : Type.
Variable DataSource_from_dto : Dto -> option DataSource.
Variable DataSink_create_from_message : Dto -> option DataSink.
Variable VigraPixelClassifier_from_dto : Dto -> option Classifier.
Variable datasink_open : DataSink -> option SinkWriter.
Variable pixel_probabilities_job : Classifier -> SinkWriter -> DataSource -> ExportJob.
Variable simple_segmentation_job :
  Classifier -> Z -> SinkWriter -> DataSource -> ExportJob.
Variable job_args : ExportJob -> list Step.
Variable job_target : ExportJob -> Step -> bool.

Local Abbreviation run_steps := (run_steps ExportJob Step job_target).
Local Abbreviation main :=
  (main Dto DataSource DataSink Classifier SinkWriter ExportJob Step
        DataSource_from_dto DataSink_create_from_message
        VigraPixelClassifier_from_dto datasink_open pixel_probabilities_job
        simple_segmentation_job job_args job_target).

(** The loop runs the steps in order and stops after the first one that
    returns an exception. *)
Lemma run_steps_stops_at_the_first_failure (export_job : ExportJob)
    (steps : list Step) :
  let '(ran, finished) := run_steps export_job steps in
  exists later, steps = ran ++ later
  /\ forallb (job_target export_job) (removelast ran) = true
  /\ (finished = true
      <-> forallb (job_target export_job) steps = true)
  /\ (finished = true -> later = [])
  /\ (finished = false ->
      exists before failed,
        ran = before ++ [failed] /\ job_target export_job failed = false).
Proof.
  induction steps as [|step rest IH]; simpl.
  - exists []. repeat split; try reflexivity. discriminate.
  - destruct (job_target export_job step) eqn:E.
    + destruct (run_steps export_job rest) as [ran finished].
      destruct IH as (later & Hsteps & Hbefore & Hfin & Hlater & Hfail).
      exists later. split; [simpl; rewrite Hsteps; reflexivity|].
      split; [|split; [|split]].
      * destruct ran as [|r ran']; [reflexivity|].
        change (removelast (step :: r :: ran'))
          with (step :: removelast (r :: ran')).
        simpl forallb. rewrite E. exact Hbefore.
      * simpl. exact Hfin.
      * exact Hlater.
      * intros H. destruct (Hfail H) as (before & failed & -> & Hf).
        exists (step :: before), failed. split; [reflexivity | exact Hf].
    + exists rest. split; [reflexivity|]. split; [reflexivity|].
      split; [split; discriminate|]. split; [discriminate|].
      intros _. exists [], step. split; [reflexivity | exact E].
Qed.

(** The job that [main] builds when everything is deserialized and the
    sink is opened: with both keys in the job specification, the export of
    the pixel probabilities. *)
Definition job_of (job_spec : JobSpec Dto) : option ExportJob :=
  match DataSource_from_dto (datasource Dto job_spec),
        DataSink_create_from_message (datasink Dto job_spec) with
  | Some source, Some sink =>
      match pixel_probabilities Dto job_spec,
            simple_segmentation Dto job_spec with
      | Some dto, _ =>
          match VigraPixelClassifier_from_dto dto, datasink_open sink with
          | Some classifier, Some sink_writer =>
              Some (pixel_probabilities_job classifier sink_writer source)
          | _, _ => None
          end
      | None, Some (dto, label_index) =>
          match VigraPixelClassifier_from_dto dto, datasink_open sink with
          | Some classifier, Some sink_writer =>
              Some (simple_segmentation_job classifier label_index sink_writer
                                            source)
          | _, _ => None
          end
      | None, None => None
      end
  | _, _ => None
  end.

Lemma run_job_outcome (export_job : ExportJob) :
  let ran := fst (run_job ExportJob Step job_args job_target export_job) in
  let exit := snd (run_job ExportJob Step job_args job_target export_job) in
  (exit = Completed \/ exit = Exit1 FailedStep)
  /\ (exit = Completed <->
      forallb (job_target export_job) (job_args export_job) = true)
  /\ (exit = Completed -> ran = job_args export_job)
  /\ (exit = Exit1 FailedStep ->
      exists before failed later,
        job_args export_job = before ++ failed :: later
        /\ ran = before ++ [failed]
        /\ forallb (job_target export_job) before = true
        /\ job_target export_job failed = false).
Proof.
  unfold run_job.
  pose proof (run_steps_stops_at_the_first_failure export_job
                (job_args export_job)) as H.
  destruct (run_steps export_job (job_args export_job)) as [ran finished].
  destruct H as (later & Hsteps & Hbefore & Hfin & Hlater & Hfail).
  simpl. destruct finished.
  - split; [left; reflexivity|]. split; [|split].
    + split; [intros _; apply Hfin; reflexivity | reflexivity].
    + intros _. rewrite Hsteps, (Hlater eq_refl), app_nil_r. reflexivity.
    + discriminate.
  - split; [right; reflexivity|]. split; [|split].
    + split; [discriminate|]. intros H. apply Hfin in H. discriminate.
    + discriminate.
    + intros _. destruct (Hfail eq_refl) as (before & failed & -> & Hf).
      exists before, failed, later. rewrite Hsteps, <- app_assoc.
      split; [reflexivity|]. split; [reflexivity|]. split; [|exact Hf].
      rewrite removelast_last in Hbefore. exact Hbefore.
Qed.

(** X20.  The export worker runs the steps of the job in order and stops,
    with exit status 1, after the first step that returns an exception:
    the steps before it have been run (and their blocks written), the
    steps after it are not run.  It ends with "Export completed
    successfully" exactly when the data source, the data sink and the
    classifier are deserialized, the sink is opened, the job specification
    has one of the two export keys and every step succeeds; with both keys
    the pixel probabilities are exported.  No step is run when something
    fails before the loop. *)
Theorem export_stops_at_the_first_failing_step :
  forall job_spec : JobSpec Dto,
    let ran := fst (main job_spec) in
    let exit := snd (main job_spec) in
    (exit = Completed <->
     exists export_job,
       job_of job_spec = Some export_job
       /\ forallb (job_target export_job) (job_args export_job) = true)
    /\ (exit = Completed ->
        exists export_job,
          job_of job_spec = Some export_job /\ ran = job_args export_job)
    /\ (exit = Exit1 FailedStep <->
        exists export_job before failed later,
          job_of job_spec = Some export_job
          /\ job_args export_job = before ++ failed :: later
          /\ ran = before ++ [failed]
          /\ forallb (job_target export_job) before = true
          /\ job_target export_job failed = false)
    /\ (exit <> Completed -> exit <> Exit1 FailedStep ->
        ran = [] /\ job_of job_spec = None).
Proof.
  intros job_spec ran exit.
  assert (Hjob : forall export_job,
            job_of job_spec = Some export_job ->
            main job_spec
            = run_job ExportJob Step job_args job_target export_job).
  { intros export_job. unfold job_of, ExportWorker.main.
    destruct (DataSource_from_dto _) as [source|]; [|discriminate].
    destruct (DataSink_create_from_message _) as [sink|]; [|discriminate].
    destruct (pixel_probabilities Dto job_spec) as [dto|].
    - destruct (VigraPixelClassifier_from_dto dto) as [classifier|];
        [|discriminate].
      destruct (datasink_open sink) as [sink_writer|]; [|discriminate].
      intros H. inversion H. reflexivity.
    - destruct (simple_segmentation Dto job_spec) as [[dto label_index]|];
        [|discriminate].
      destruct (VigraPixelClassifier_from_dto dto) as [classifier|];
        [|discriminate].
      destruct (datasink_open sink) as [sink_writer|]; [|discriminate].
      intros H. inversion H. reflexivity. }
  assert (Hnone : job_of job_spec = None ->
            fst (main job_spec) = []
            /\ snd (main job_spec) <> Completed
            /\ snd (main job_spec) <> Exit1 FailedStep).
  { unfold job_of, ExportWorker.main.
    destruct (DataSource_from_dto _) as [source|];
      [|intros _; repeat split; discriminate].
    destruct (DataSink_create_from_message _) as [sink|];
      [|intros _; repeat split; discriminate].
    destruct (pixel_probabilities Dto job_spec) as [dto|].
    - destruct (VigraPixelClassifier_from_dto dto) as [classifier|];
        [|intros _; repeat split; discriminate].
      destruct (datasink_open sink) as [sink_writer|];
        [discriminate | intros _; repeat split; discriminate].
    - destruct (simple_segmentation Dto job_spec) as [[dto label_index]|];
        [|intros _; repeat split; discriminate].
      destruct (VigraPixelClassifier_from_dto dto) as [classifier|];
        [|intros _; repeat split; discriminate].
      destruct (datasink_open sink) as [sink_writer|];
        [discriminate | intros _; repeat split; discriminate]. }
  unfold ran, exit.
  destruct (job_of job_spec) as [export_job|] eqn:Ejob.
  - rewrite (Hjob export_job eq_refl).
    destruct (run_job_outcome export_job) as (Hcases & Hdone & Hran & Hfail).
    split; [|split; [|split]].
    + rewrite Hdone. split.
      * intros H. exists export_job. auto.
      * intros (job & Hj & H). inversion Hj; subst. exact H.
    + intros H. exists export_job. split; [reflexivity | apply Hran, H].
    + split.
      * intros H. destruct (Hfail H) as (before & failed & later & H1 & H2 & H3 & H4).
        exists export_job, before, failed, later. auto.
      * intros (job & before & failed & later & Hj & Hargs & _ & _ & Hf).
        inversion Hj; subst job.
        destruct Hcases as [Hc | Hc]; [|exact Hc].
        exfalso. apply Hdone in Hc. rewrite Hargs, forallb_app in Hc.
        simpl in Hc. rewrite Hf in Hc. rewrite andb_false_r in Hc.
        discriminate.
    + intros H1 H2. destruct Hcases; contradiction.
  - destruct (Hnone eq_refl) as (Hran & Hc & Hf).
    split; [|split; [|split]].
    + split; [intros H; contradiction | intros (job & H & _); discriminate].
    + intros H. contradiction.
    + split; [intros H; contradiction
             | intros (job & b & f & l & H & _); discriminate].
    + intros _ _. split; [exact Hran | reflexivity].
Qed.

End Facts.

End ExportWorkerFacts.

(* ===================================================================== *)
(** * The worker count *)

Module WorkerCountFacts.
Import Nd Blocks Orchestration OrchestrationFacts.

Section Facts.
Context {V PixelClassifier : Type}.
Variable v0 : V.
Variable predict : PixelClassifier -> DataRoi -> Array5D V.
Variable hash : DataRoi -> Z.
Variable get_tiles : DataRoi -> list DataRoi.
Variable num_classes : PixelClassifier -> Z.





End Facts.

End WorkerCountFacts.

(* ===================================================================== *)
(** * The urls of a bucket *)

Module BucketUrlFacts.
Import BucketUrl.

Local Open Scope string_scope.

Lemma port_eqb_refl (p : option Z) : port_eqb p p = true.
Proof. destruct p; simpl; [apply Z.eqb_refl | reflexivity]. Qed.

(** X22.  [BucketFs.try_from] reads the bucket and the path back from a
    url of the data proxy: for the url with the components api, v1,
    buckets, the name of the bucket and then the components of a path, it
    returns the bucket and the path (the root for no component).  But
    [recognizes] compares the texts of the paths, not their components: a
    url whose third component only starts with "buckets" is recognized as
    well, and read in the same way.  A url with nothing after that
    component is a bad bucket url, and a url of another protocol is not a
    bucket url. *)
Theorem try_from_reads_back_bucket_and_path :
  forall (no_port : option Z) (suffix bucket_name : string)
         (components : list string) (other : Url),
    let url_of := fun after =>
      mkUrl "https" "data-proxy.ebrains.eu" no_port
            ("api" :: "v1" :: ("buckets" ++ suffix) :: after) in
    try_from no_port (url_of (bucket_name :: components))
    = Bucket bucket_name
             (match join_slash components with
              | EmptyString => "/"
              | joined => joined
              end)
    /\ recognizes no_port (url_of (bucket_name :: components)) = true
    /\ try_from no_port (url_of []) = BadBucketUrl
    /\ (protocol other <> "https" -> try_from no_port other = NotABucketUrl).
Proof.
  intros no_port suffix bucket_name components other url_of.
  assert (Hrec : forall after, recognizes no_port (url_of after) = true).
  { intros after. unfold recognizes, url_of. cbn [protocol hostname port path API_URL].
    rewrite port_eqb_refl.
    assert (Hp : String.prefix (as_posix ["api"; "v1"; "buckets"])
                   (as_posix ("api" :: "v1" :: ("buckets" ++ suffix) :: after))
                 = true).
    { unfold as_posix. destruct after as [|a rest]; simpl.
      - repeat (destruct (ascii_dec _ _) as [_ | Hne]; [|congruence]).
        destruct suffix; reflexivity.
      - repeat (destruct (ascii_dec _ _) as [_ | Hne]; [|congruence]).
        destruct (suffix ++ _); reflexivity. }
    rewrite Hp. reflexivity. }
  split; [|split; [|split]].
  - unfold try_from. rewrite Hrec. reflexivity.
  - apply Hrec.
  - unfold try_from. rewrite Hrec. reflexivity.
  - intros Hproto. unfold try_from, recognizes.
    apply String.eqb_neq in Hproto. rewrite Hproto. reflexivity.
Qed.

Example try_from_of_a_neighbouring_path :
  try_from None (mkUrl "https" "data-proxy.ebrains.eu" None
                       ["api"; "v1"; "buckets-backup"; "secret"; "a"; "b.txt"])
  = Bucket "secret" "a/b.txt".
Proof. reflexivity. Qed.

End BucketUrlFacts.
